(** * Lung-segmentation tool: ROI geometry, UI state manager and mask refinement

    A shallow embedding of
      - [src/gui/widgets/roi_selector.py]  (class [ROIManager]),
      - [src/core/state_manager.py]        (enum [UIState], class [UIStateManager]),
      - [src/core/processing.py]           ([refine_mask] and its four stages),
      - [src/gui/workers.py]               ([MaskRefinementWorker._refine_with_progress]),
      - [src/gui/widgets/roi_selector.py]  (class [ROISelector]),
      - [src/core/processing.py]           ([calculate_mask_difference],
                                            [calculate_dice_coefficient]),
      - [src/core/data_io.py]              ([save_mask_nifti], [get_mask_statistics]),
      - [src/models/lungmask_segmenter.py] ([_run_segmentation], [_batch_segment]),
    followed by the properties proved about them.

    Conventions.  Python [int] is [Z].  A Python [float] is idealised as
    [Q] (exact rationals) where the code compares or truncates it, and in
    the Dice coefficient; the volumes and the improvement that the
    statistics report are computed as IEEE 754 doubles.  A numpy array is
    its shape together with its data in C order; Python objects that are
    mutated or aliased (numpy arrays) live in an explicit store and are
    passed by reference; a Python exception is the [Raise] result of a
    computation on that store.  [ndimage.label] and [ndimage.sum] are
    modelled by definitions, since properties of the code depend on what
    they compute; the morphological operators ([binary_dilation],
    [binary_closing], [binary_fill_holes]) are the methods of a class, and
    the properties hold for every instance. *)

From Stdlib Require Import String Ascii.
From Stdlib Require Import List ZArith QArith Qround Bool Lia Permutation Sorted.
From Stdlib Require SpecFloat.
Import ListNotations.
Local Open Scope Z_scope.

(* ################################################################# *)
(** * Part I: the model *)

(* ================================================================= *)
(** ** [roi_selector.py]: [ROIManager] *)

Module RoiSelector.

(** A stored ROI is the tuple [(z_slice, y_min, y_max, x_min, x_max)]. *)
Definition roi : Type := Z * Z * Z * Z * Z.

Record ROIManager : Type := mkROIManager {
  roi1_3d : option roi;
  roi2_3d : option roi
}.

Inductive exn : Type := ValueError.

(** [__init__] *)
Definition init : ROIManager := mkROIManager None None.

Definition set_roi1 (self : ROIManager) (z_slice x_min x_max y_min y_max : Z)
  : ROIManager :=
  mkROIManager (Some (z_slice, y_min, y_max, x_min, x_max)) (roi2_3d self).

Definition set_roi2 (self : ROIManager) (z_slice x_min x_max y_min y_max : Z)
  : ROIManager :=
  mkROIManager (roi1_3d self) (Some (z_slice, y_min, y_max, x_min, x_max)).

Definition reset (self : ROIManager) : ROIManager := mkROIManager None None.

Definition has_both_rois (self : ROIManager) : bool :=
  match roi1_3d self, roi2_3d self with
  | Some _, Some _ => true
  | _, _ => false
  end.

(** [get_combined_roi_coords]: the union of the two rectangles, the two
    slices as z-range, then the lower ends clamped from below at [0] and
    the upper ends clamped from above at [dim - 1]. *)
Definition get_combined_roi_coords (self : ROIManager) (volume_shape : Z * Z * Z)
  : exn + (Z * Z * Z * Z * Z * Z) :=
  if negb (has_both_rois self) then inl ValueError
  else
    match roi1_3d self, roi2_3d self with
    | Some (z1_slice, y1_0, y1_1, x1_0, x1_1),
      Some (z2_slice, y2_0, y2_1, x2_0, x2_1) =>
        let '(shape0, shape1, shape2) := volume_shape in
        let x0 := Z.min x1_0 x2_0 in
        let x1 := Z.max x1_1 x2_1 in
        let y0 := Z.min y1_0 y2_0 in
        let y1 := Z.max y1_1 y2_1 in
        let z0 := Z.min z1_slice z2_slice in
        let z1 := Z.max z1_slice z2_slice in
        let z0 := Z.max 0 z0 in
        let z1 := Z.min (shape0 - 1) z1 in
        let y0 := Z.max 0 y0 in
        let y1 := Z.min (shape1 - 1) y1 in
        let x0 := Z.max 0 x0 in
        let x1 := Z.min (shape2 - 1) x1 in
        inr (z0, z1, y0, y1, x0, x1)
    | _, _ => inl ValueError
    end.

(** The property the specification asks of a combined box. *)
Definition in_volume (volume_shape : Z * Z * Z) (box : Z * Z * Z * Z * Z * Z) : Prop :=
  let '(depth, height, width) := volume_shape in
  let '(z0, z1, y0, y1, x0, x1) := box in
  0 <= z0 <= z1 /\ z1 <= depth - 1 /\
  0 <= y0 <= y1 /\ y1 <= height - 1 /\
  0 <= x0 <= x1 /\ x1 <= width - 1.

End RoiSelector.

(* ================================================================= *)
(** ** [state_manager.py]: [UIState] and [UIStateManager] *)

Module StateManager.
Local Open Scope string_scope.

(** [class UIState(Enum)]: nine members, in declaration order. *)
Inductive UIState : Type :=
| INITIAL
| VOLUME_LOADED
| ROI1_DEFINED
| ROI2_DEFINED
| ROI_DEFINED
| SEGMENTING
| MASK_READY
| REFINING
| SAVING.

Definition value (s : UIState) : string :=
  match s with
  | INITIAL => "initial"
  | VOLUME_LOADED => "volume_loaded"
  | ROI1_DEFINED => "roi1_defined"
  | ROI2_DEFINED => "roi2_defined"
  | ROI_DEFINED => "roi_defined"
  | SEGMENTING => "segmenting"
  | MASK_READY => "mask_ready"
  | REFINING => "refining"
  | SAVING => "saving"
  end.

(** [list(UIState)] *)
Definition members : list UIState :=
  [INITIAL; VOLUME_LOADED; ROI1_DEFINED; ROI2_DEFINED; ROI_DEFINED;
   SEGMENTING; MASK_READY; REFINING; SAVING].

Definition UIState_eqb (a b : UIState) : bool :=
  match a, b with
  | INITIAL, INITIAL | VOLUME_LOADED, VOLUME_LOADED
  | ROI1_DEFINED, ROI1_DEFINED | ROI2_DEFINED, ROI2_DEFINED
  | ROI_DEFINED, ROI_DEFINED | SEGMENTING, SEGMENTING
  | MASK_READY, MASK_READY | REFINING, REFINING | SAVING, SAVING => true
  | _, _ => false
  end.

(** Python's [x in [a, b, c]]. *)
Definition state_in (s : UIState) (l : list UIState) : bool :=
  existsb (UIState_eqb s) l.

(** A registered widget: whether the object has a [setEnabled] method, and
    the flag that method sets. *)
Record widget : Type := mkWidget {
  has_setEnabled : bool;
  enabled : bool
}.

(** What the manager does to the outside world besides the widgets. *)
Inductive event : Type :=
| Printed (old new : UIState)      (* the [print] in [transition_to] *)
| Called (s : UIState).            (* the callback registered for [s] ran *)

Record UIStateManager : Type := mkManager {
  _current_state : UIState;
  _widgets : list (string * widget);      (* dict: name -> widget *)
  _state_callbacks : list UIState;        (* keys of the callback dict *)
  trace : list event
}.

(** [__init__] *)
Definition init : UIStateManager := mkManager INITIAL [] [] [].

Definition register_widgets (self : UIStateManager) (widgets : list (string * widget))
  : UIStateManager :=
  mkManager (_current_state self) widgets (_state_callbacks self) (trace self).

Definition register_state_callback (self : UIStateManager) (state : UIState)
  : UIStateManager :=
  mkManager (_current_state self) (_widgets self)
            (state :: _state_callbacks self) (trace self).

Definition current_state (self : UIStateManager) : UIState := _current_state self.

Fixpoint set_enabled_in (ws : list (string * widget)) (widget_name : string) (en : bool)
  : list (string * widget) :=
  match ws with
  | [] => []
  | (n, w) :: ws' =>
      if String.eqb n widget_name
      then (n, if has_setEnabled w then mkWidget true en else w) :: ws'
      else (n, w) :: set_enabled_in ws' widget_name en
  end.

Definition _set_widget_enabled (self : UIStateManager) (widget_name : string) (en : bool)
  : UIStateManager :=
  mkManager (_current_state self) (set_enabled_in (_widgets self) widget_name en)
            (_state_callbacks self) (trace self).

(** A run of [_set_widget_enabled] calls, in order. *)
Definition set_all (self : UIStateManager) (l : list (string * bool)) : UIStateManager :=
  fold_left (fun m p => _set_widget_enabled m (fst p) (snd p)) l self.

Definition _set_refinement_params_enabled (self : UIStateManager) (en : bool)
  : UIStateManager :=
  let param_widgets :=
    ["slider_hu_min"; "slider_hu_max"; "slider_dilation"; "slider_closing";
     "cb_fill_holes"; "btn_conservative_preset"; "btn_aggressive_preset"] in
  fold_left (fun m widget_name => _set_widget_enabled m widget_name en) param_widgets self.

(** The eight full configurations share one shape: nine buttons, then the
    refinement parameters. *)
Definition configure (self : UIStateManager)
           (load roi1 roi2 reset_roi segment apply_ref reset_mask save slider params : bool)
  : UIStateManager :=
  _set_refinement_params_enabled
    (set_all self
       [("btn_load", load); ("btn_draw_roi1", roi1); ("btn_draw_roi2", roi2);
        ("btn_reset_roi", reset_roi); ("btn_segment", segment);
        ("btn_apply_refinement", apply_ref); ("btn_reset_mask", reset_mask);
        ("btn_save", save); ("slice_slider", slider)])
    params.

Definition _set_initial_state (self : UIStateManager) :=
  configure self true false false false false false false false false false.
Definition _set_volume_loaded_state (self : UIStateManager) :=
  configure self true true false true false false false false true false.
Definition _set_roi1_defined_state (self : UIStateManager) :=
  configure self true true true true false false false false true false.
Definition _set_roi_defined_state (self : UIStateManager) :=
  configure self true true true true true false false false true false.
Definition _set_segmenting_state (self : UIStateManager) :=
  configure self false false false false false false false false true false.
Definition _set_mask_ready_state (self : UIStateManager) :=
  configure self true true true true true true true true true true.
Definition _set_refining_state (self : UIStateManager) :=
  configure self false false false false false false false false true false.
Definition _set_saving_state (self : UIStateManager) :=
  set_all self [("btn_load", false); ("btn_save", false);
                ("btn_apply_refinement", false)].

(** [_apply_state]: the [if]/[elif] chain; there is no branch for
    [ROI2_DEFINED]. *)
Definition _apply_state (self : UIStateManager) : UIStateManager :=
  match _current_state self with
  | INITIAL => _set_initial_state self
  | ROI1_DEFINED => _set_roi1_defined_state self
  | VOLUME_LOADED => _set_volume_loaded_state self
  | ROI_DEFINED => _set_roi_defined_state self
  | SEGMENTING => _set_segmenting_state self
  | MASK_READY => _set_mask_ready_state self
  | REFINING => _set_refining_state self
  | SAVING => _set_saving_state self
  | ROI2_DEFINED => self
  end.

Definition transition_to (self : UIStateManager) (new_state : UIState) : UIStateManager :=
  if UIState_eqb new_state (_current_state self) then self
  else
    let self := mkManager (_current_state self) (_widgets self) (_state_callbacks self)
                          (trace self ++ [Printed (_current_state self) new_state]) in
    let self := mkManager new_state (_widgets self) (_state_callbacks self) (trace self) in
    let self := _apply_state self in
    if state_in new_state (_state_callbacks self)
    then mkManager (_current_state self) (_widgets self) (_state_callbacks self)
                   (trace self ++ [Called new_state])
    else self.

Definition can_load_dicom (self : UIStateManager) : bool :=
  negb (state_in (_current_state self) [SEGMENTING; REFINING; SAVING]).

Definition can_segment (self : UIStateManager) : bool :=
  state_in (_current_state self) [ROI_DEFINED; MASK_READY].

Definition can_refine (self : UIStateManager) : bool :=
  UIState_eqb (_current_state self) MASK_READY.

Definition can_save (self : UIStateManager) : bool :=
  UIState_eqb (_current_state self) MASK_READY.

(** The eight states the specification lists. *)
Definition spec_states : list UIState :=
  [INITIAL; VOLUME_LOADED; ROI1_DEFINED; ROI_DEFINED;
   SEGMENTING; MASK_READY; REFINING; SAVING].

End StateManager.

(* ================================================================= *)
(** ** Connected components of a finite graph

    [scipy.ndimage.label] is a library function; its result is modelled by
    the textbook algorithm: scan the foreground in raster order and give
    each not yet labelled voxel's component the next label. *)

Module Graph.
Section Components.
Context {V : Type} (eqb : V -> V -> bool) (adj : V -> V -> bool).

Definition mem (v : V) (l : list V) : bool := existsb (eqb v) l.

(** Breadth-first search by levels: [rest] holds the vertices not reached
    yet, [frontier] the last level, [acc] everything reached. *)
Fixpoint bfs (fuel : nat) (frontier rest acc : list V) : list V :=
  match fuel with
  | O => acc
  | S k =>
      let (new, rest') := partition (fun u => existsb (adj u) frontier) rest in
      match new with
      | [] => acc
      | _ :: _ => bfs k new rest' (acc ++ new)
      end
  end.

(** The component of [v] among the vertices [fg]. *)
Definition component (fg : list V) (v : V) : list V :=
  bfs (S (length fg)) [v] (filter (fun u => negb (eqb u v)) fg) [v].

Fixpoint label_loop (fg todo : list V) (acc : list (list V)) : list (list V) :=
  match todo with
  | [] => acc
  | v :: todo' =>
      if existsb (mem v) acc then label_loop fg todo' acc
      else label_loop fg todo' (acc ++ [component fg v])
  end.

(** The components, in the order in which the scan meets them. *)
Definition components (fg : list V) : list (list V) := label_loop fg fg [].

(** The label of [v]: the 1-based index of the first component that
    contains it, [0] when none does. *)
Fixpoint label_of (comps : list (list V)) (v : V) : nat :=
  match comps with
  | [] => O
  | c :: cs =>
      if mem v c then 1%nat
      else match label_of cs v with O => O | S k => S (S k) end
  end.

(** Connectivity inside [fg]: the reflexive-transitive closure of [adj]
    on the members of [fg]. *)
Inductive conn (fg : list V) : V -> V -> Prop :=
| conn_refl : forall v, In v fg -> conn fg v v
| conn_step : forall u v w, conn fg u v -> In w fg -> adj v w = true -> conn fg u w.

(** Every component found is the class of a seed that carries its label. *)
Definition seeded (fg : list V) (cs : list (list V)) : Prop :=
  forall k c, nth_error cs k = Some c ->
    exists s, In s fg /\ c = component fg s /\ label_of cs s = S k.

End Components.
End Graph.

(* ================================================================= *)
(** ** numpy arrays and the [scipy.ndimage] functions used *)

Module Numpy.

(** A 3-D array: [shape = (depth, height, width)] and the values in C
    order.  Boolean arrays hold [0] and [1]. *)
Record ndarray : Type := mkArray {
  shape : nat * nat * nat;
  data : list Z
}.

Definition empty_array : ndarray := mkArray (0, 0, 0)%nat [].

Definition of_bools (s : nat * nat * nat) (l : list bool) : ndarray :=
  mkArray s (map Z.b2z l).

Definition zsum (l : list Z) : Z := fold_right Z.add 0 l.

(** [int(np.sum(a))] *)
Definition np_sum (a : ndarray) : Z := zsum (data a).

(** [np.zeros_like(a)] *)
Definition np_zeros_like (a : ndarray) : ndarray :=
  mkArray (shape a) (repeat 0 (length (data a))).

(** [a.astype(np.uint8)] *)
Definition astype_uint8 (a : ndarray) : ndarray :=
  mkArray (shape a) (map (fun v => v mod 256) (data a)).

(** [np.any(l)] *)
Definition np_any (l : list Z) : bool := existsb (fun v => negb (v =? 0)) l.

(** Python's [enumerate(l, start)]. *)
Fixpoint enumerate {A : Type} (start : Z) (l : list A) : list (Z * A) :=
  match l with
  | [] => []
  | x :: l' => (start, x) :: enumerate (start + 1) l'
  end.

(** *** Broadcasting, for the binary operator [&] *)

Definition bdim (a b : nat) : option nat :=
  if (a =? b)%nat then Some a
  else if (a =? 1)%nat then Some b
  else if (b =? 1)%nat then Some a
  else None.

Definition broadcast_shapes (s t : nat * nat * nat) : option (nat * nat * nat) :=
  let '(d1, h1, w1) := s in
  let '(d2, h2, w2) := t in
  match bdim d1 d2, bdim h1 h2, bdim w1 w2 with
  | Some d, Some h, Some w => Some (d, h, w)
  | _, _, _ => None
  end.

Definition shape_eqb (s t : nat * nat * nat) : bool :=
  let '(d1, h1, w1) := s in
  let '(d2, h2, w2) := t in
  ((d1 =? d2) && (h1 =? h2) && (w1 =? w2))%nat.

Definition get3 (a : ndarray) (z y x : nat) : Z :=
  let '(_, h, w) := shape a in
  nth ((z * h + y) * w + x) (data a) 0.

Definition broadcast_to (a : ndarray) (s : nat * nat * nat) : ndarray :=
  let '(d, h, w) := s in
  let '(da, ha, wa) := shape a in
  let pick (n i : nat) := if (n =? 1)%nat then O else i in
  mkArray s
    (flat_map (fun z =>
       flat_map (fun y =>
         map (fun x => get3 a (pick da z) (pick ha y) (pick wa x)) (seq 0 w))
         (seq 0 h))
       (seq 0 d)).

Fixpoint map2 {A B C : Type} (f : A -> B -> C) (l : list A) (l' : list B) : list C :=
  match l, l' with
  | x :: t, y :: t' => f x y :: map2 f t t'
  | _, _ => []
  end.

(** [a & b]: [None] stands for numpy's "operands could not be broadcast
    together" [ValueError]. *)
Definition np_and (a b : ndarray) : option ndarray :=
  if shape_eqb (shape a) (shape b)
  then Some (mkArray (shape a) (map2 Z.land (data a) (data b)))
  else
    match broadcast_shapes (shape a) (shape b) with
    | Some s =>
        Some (mkArray s (map2 Z.land (data (broadcast_to a s)) (data (broadcast_to b s))))
    | None => None
    end.

(** *** Slices along the first axis: [a[z]] and [a[z] = new] *)

Definition slice_size (a : ndarray) : nat :=
  let '(_, h, w) := shape a in (h * w)%nat.

Definition get_slice (a : ndarray) (z : nat) : list Z :=
  firstn (slice_size a) (skipn (z * slice_size a) (data a)).

Definition set_slice (a : ndarray) (z : nat) (new : list Z) : ndarray :=
  mkArray (shape a)
    (firstn (z * slice_size a) (data a) ++ new
       ++ skipn (z * slice_size a + slice_size a) (data a)).

(** *** [ndimage.label] with its default structuring element

    In three dimensions the default is the 6-neighbourhood.  Voxels are
    named by their flat index [(z * h + y) * w + x]. *)

Definition adj6 (h w : Z) (i j : Z) : bool :=
  let d := Z.abs (i - j) in
  ((d =? 1) && (i / w =? j / w))
  || ((d =? w) && (i / (h * w) =? j / (h * w)))
  || (d =? h * w).

(** The flat indices of the non-zero voxels, in raster order. *)
Definition foreground (a : ndarray) : list Z :=
  map fst (filter (fun iv => negb (snd iv =? 0)) (enumerate 0 (data a))).

Definition adjacency (a : ndarray) : Z -> Z -> bool :=
  let '(_, h, w) := shape a in adj6 (Z.of_nat h) (Z.of_nat w).

Definition label_components (a : ndarray) : list (list Z) :=
  Graph.components Z.eqb (adjacency a) (foreground a).

(** [labeled, num_features = ndimage.label(a)] *)
Definition ndimage_label (a : ndarray) : ndarray * Z :=
  let comps := label_components a in
  (mkArray (shape a)
     (map (fun iv => Z.of_nat (Graph.label_of Z.eqb comps (fst iv)))
          (enumerate 0 (data a))),
   Z.of_nat (length comps)).

(** [ndimage.sum(input, labels, index)]: for each label in [index] the sum
    of the values of [input] where [labels] has that label. *)
Definition ndimage_sum (input labels : ndarray) (index : list Z) : list Z :=
  map (fun i =>
         zsum (map (fun vl => if snd vl =? i then fst vl else 0)
                   (combine (data input) (data labels))))
      index.

(** [range(a, b)] *)
Definition range (a b : Z) : list Z :=
  map (fun k => a + Z.of_nat k) (seq 0 (Z.to_nat (b - a))).

(** [np.max] of a non-empty array. *)
Definition np_max (l : list Z) : Z :=
  match l with
  | [] => 0
  | x :: t => fold_left Z.max t x
  end.

(** [target[labels == i] = 1] *)
Definition assign_where (labels : ndarray) (i : Z) (target : ndarray) : ndarray :=
  mkArray (shape target)
    (map2 (fun l x => if l =? i then 1 else x) (data labels) (data target)).

(** The morphological operators of [scipy.ndimage] whose results the
    properties below do not depend on.  Each returns a boolean array of
    the shape of its input. *)
Class Ndimage : Type := {
  (** [ndimage.binary_dilation(input, iterations=n)] *)
  binary_dilation : ndarray -> Z -> list bool;
  (** [ndimage.binary_closing(input, structure=np.ones((n, n, n)))] *)
  binary_closing : ndarray -> Z -> list bool;
  (** [ndimage.binary_fill_holes(slice)] on a 2-D slice of the given
      height and width *)
  binary_fill_holes : nat -> nat -> list Z -> list bool
}.

End Numpy.

(* ================================================================= *)
(** ** Python floats

    A Python [float] and a [numpy.float64] are IEEE 754 binary64 numbers,
    and their arithmetic rounds to the nearest one, ties to even. *)

Module Float64.

Definition float : Type := SpecFloat.spec_float.

Definition prec : Z := 53.
Definition emax : Z := 1024.

(** [float(n)] on a Python integer: the double nearest to [n]. *)
Definition of_int (n : Z) : float :=
  SpecFloat.binary_normalize prec emax n 0 false.

(** [x * y] on doubles. *)
Definition mul (x y : float) : float := SpecFloat.SFmul prec emax x y.

(** [x / y] on doubles, for a divisor that is not zero. *)
Definition div (x y : float) : float := SpecFloat.SFdiv prec emax x y.

(** An integer as it stands, before any rounding. *)
Definition exact (n : Z) : float :=
  match n with
  | Z0 => SpecFloat.S754_zero false
  | Zpos m => SpecFloat.S754_finite false m 0
  | Zneg m => SpecFloat.S754_finite true m 0
  end.

(** [a / b] on two Python integers, [b] not zero: the double nearest to
    the quotient. *)
Definition int_div (a b : Z) : float := div (exact a) (exact b).

(** The double that a decimal literal denotes, such as [0.7] for
    [7 # 10]: the one nearest to it. *)
Definition literal (q : Q) : float := int_div (Qnum q) (Zpos (Qden q)).

(** A Python number: an [int] or a [float]. *)
Inductive number : Type :=
| PyInt (n : Z)
| PyFloat (x : float).

End Float64.

(* ================================================================= *)
(** ** The store of arrays, exceptions and emitted signals *)

Module Runtime.
Import Numpy Float64.

(** A reference to a numpy array: its index in the store. *)
Definition ref : Type := nat.

Inductive exn : Type :=
| KeyError (key : string)     (* [params[key]] on an absent key *)
| ValueError                  (* operands could not be broadcast together *)
| ZeroDivisionError.          (* [a / 0] *)

Inductive result (A : Type) : Type :=
| Ok (a : A)
| Raise (e : exn).
Arguments Ok {A} a.
Arguments Raise {A} e.

(** The text of a progress signal, by the place that emits it. *)
Inductive message : Type :=
| MsgHuDilation (hu_min hu_max : Q)
| MsgClosing
| MsgNoiseRemoval
| MsgFillHoles (z total_slices : nat)
| MsgFinalizing.

Record state : Type := mkState {
  heap : list ndarray;
  emitted : list (Z * message)       (* [self.progress.emit(pct, msg)] *)
}.

Definition M (A : Type) : Type := state -> result A * state.

Definition ret {A : Type} (a : A) : M A := fun st => (Ok a, st).

Definition bind {A B : Type} (c : M A) (k : A -> M B) : M B :=
  fun st =>
    match c st with
    | (Ok a, st') => k a st'
    | (Raise e, st') => (Raise e, st')
    end.

Definition raise {A : Type} (e : exn) : M A := fun st => (Raise e, st).

(** Reading the array a reference points to. *)
Definition deref (st : state) (r : ref) : ndarray := nth r (heap st) empty_array.

Definition load (r : ref) : M ndarray := fun st => (Ok (deref st r), st).

(** A new array object. *)
Definition alloc (a : ndarray) : M ref :=
  fun st => (Ok (length (heap st)), mkState (heap st ++ [a]) (emitted st)).

Fixpoint update {A : Type} (l : list A) (i : nat) (x : A) : list A :=
  match l, i with
  | [], _ => []
  | _ :: t, O => x :: t
  | y :: t, S j => y :: update t j x
  end.

(** Overwriting an array object in place. *)
Definition store (r : ref) (a : ndarray) : M unit :=
  fun st => (Ok tt, mkState (update (heap st) r a) (emitted st)).

Definition emit (percentage : Z) (msg : message) : M unit :=
  fun st => (Ok tt, mkState (heap st) (emitted st ++ [(percentage, msg)])).

(** [for x in l: s = body(s, x)] *)
Fixpoint for_each {A S : Type} (l : list A) (body : S -> A -> M S) (s : S) : M S :=
  match l with
  | [] => ret s
  | x :: l' => bind (body s x) (fun s' => for_each l' body s')
  end.

(** [d.get(key, default)] and [d[key]] on an optional entry. *)
Definition get {A : Type} (entry : option A) (default : A) : A :=
  match entry with Some v => v | None => default end.

Definition getitem {A : Type} (key : string) (entry : option A) : M A :=
  match entry with Some v => ret v | None => raise (KeyError key) end.

Definition of_option {A : Type} (o : option A) (e : exn) : M A :=
  match o with Some v => ret v | None => raise e end.

(** [a / b] on two Python integers: true division. *)
Definition truediv (a b : Z) : M float :=
  if b =? 0 then raise ZeroDivisionError else ret (int_div a b).

End Runtime.

Declare Scope py_scope.
Delimit Scope py_scope with py.
Notation "x <- c1 ;; c2" := (Runtime.bind c1 (fun x => c2))
  (at level 61, c1 at next level, right associativity) : py_scope.
Notation "' pat <- c1 ;; c2" := (Runtime.bind c1 (fun pat => c2))
  (at level 61, pat pattern, c1 at next level, right associativity) : py_scope.
Notation "c1 ;;; c2" := (Runtime.bind c1 (fun _ => c2))
  (at level 61, right associativity) : py_scope.

(* ================================================================= *)
(** ** [processing.py] *)

Module Processing.
Import Numpy Float64 Runtime.
Local Open Scope string_scope.
Local Open Scope list_scope.
Local Open Scope Z_scope.
Local Open Scope py_scope.

(** The [params] dictionary, with the keys the docstring lists; [None] is
    an absent key. *)
Record params : Type := mkParams {
  hu_min : option Q;
  hu_max : option Q;
  dilation_iter : option Z;
  closing_size : option Z;
  fill_holes : option bool
}.

(** A per-stage statistics dictionary, keys in insertion order. *)
Definition dict : Type := list (string * Z).

(** An entry of [stats['steps']]: [{'name': name, **step_stats}]. *)
Record step : Type := mkStep {
  name : string;
  step_stats : dict
}.

(** The [stats] dictionary [refine_mask] returns. *)
Record statistics : Type := mkStatistics {
  base_count : Z;
  steps : list step;
  final_count : Z;
  improvement_percent : number;
  volume_ml : float;
  params_copy : params
}.

Fixpoint lookup (key : string) (d : dict) : option Z :=
  match d with
  | [] => None
  | (k, v) :: d' => if String.eqb k key then Some v else lookup key d'
  end.

(** [x >= lo] and [x <= hi] on a voxel value and float bounds. *)
Definition in_hu_range (lo hi : Q) (v : Z) : bool :=
  Qle_bool lo (inject_Z v) && Qle_bool (inject_Z v) hi.

(** [np.prod(spacing)]: the product of the three doubles, from the
    left. *)
Definition np_prod (spacing : float * float * float) : float :=
  let '(sx, sy, sz) := spacing in mul (mul sx sy) sz.

(** [size > threshold] on floats. *)
Definition gt (size : Z) (threshold : Q) : bool :=
  negb (Qle_bool (inject_Z size) threshold).

Section WithNdimage.
Context {ops : Ndimage}.

Definition _apply_hu_dilation (mask volume : ref) (hu_min hu_max : Q) (iterations : Z)
  : M (ref * dict) :=
  m <- load mask ;;
  v <- load volume ;;
  let count_before := np_sum m in
  let lung_tissue :=
    mkArray (shape v) (map (fun x => Z.b2z (in_hu_range hu_min hu_max x)) (data v)) in
  let dilated := of_bools (shape m) (binary_dilation m iterations) in
  r <- of_option (np_and dilated lung_tissue) ValueError ;;
  mask <- alloc r ;;
  let count_after := np_sum r in
  ret (mask, [("voxels_before", count_before);
              ("voxels_after", count_after);
              ("voxels_added", count_after - count_before)]).

Definition _apply_morphological_closing (mask : ref) (size : Z) : M (ref * dict) :=
  m <- load mask ;;
  let count_before := np_sum m in
  let closed := of_bools (shape m) (binary_closing m size) in
  mask <- alloc closed ;;
  let count_after := np_sum closed in
  ret (mask, [("voxels_before", count_before);
              ("voxels_after", count_after);
              ("voxels_added", count_after - count_before)]).

(** The loop [for i, size in enumerate(sizes, 1)] of
    [_remove_small_components], on the pair
    [(mask_cleaned, components_kept)]. *)
Definition keep_large (labeled : ndarray) (threshold : Q)
           (acc : ndarray * Z) (isize : Z * Z) : ndarray * Z :=
  let '(mask_cleaned, components_kept) := acc in
  let '(i, size) := isize in
  if gt size threshold
  then (assign_where labeled i mask_cleaned, components_kept + 1)
  else (mask_cleaned, components_kept).

(** [threshold_ratio] is the default argument [0.01]; no caller passes
    another value. *)
Definition _remove_small_components (mask : ref) : M (ref * dict) :=
  let threshold_ratio : Q := 1 # 100 in
  m <- load mask ;;
  let count_before := np_sum m in
  let '(labeled, num_features) := ndimage_label m in
  if num_features =? 0 then
    ret (mask, [("voxels_before", count_before);
                ("voxels_after", 0);
                ("components_removed", 0)])
  else
    let sizes := ndimage_sum m labeled (range 1 (num_features + 1)) in
    let max_size := np_max sizes in
    let threshold := (inject_Z max_size * threshold_ratio)%Q in
    let '(mask_cleaned, components_kept) :=
      fold_left (keep_large labeled threshold) (enumerate 1 sizes) (np_zeros_like m, 0) in
    let count_after := np_sum mask_cleaned in
    mask_cleaned <- alloc mask_cleaned ;;
    ret (mask_cleaned, [("voxels_before", count_before);
                        ("voxels_after", count_after);
                        ("voxels_removed", count_before - count_after);
                        ("components_total", num_features);
                        ("components_kept", components_kept);
                        ("components_removed", num_features - components_kept)]).

(** [mask[z] = ndimage.binary_fill_holes(mask[z])] assigns into the array
    [mask] refers to. *)
Definition _fill_holes_2d (mask : ref) : M (ref * dict) :=
  m <- load mask ;;
  let count_before := np_sum m in
  let total_slices := fst (fst (shape m)) in
  slices_processed <-
    for_each (seq 0 total_slices)
      (fun slices_processed z =>
         m <- load mask ;;
         if np_any (get_slice m z) then
           let '(_, h, w) := shape m in
           store mask
             (set_slice m z (map Z.b2z (binary_fill_holes h w (get_slice m z)))) ;;;
           ret (slices_processed + 1)
         else ret slices_processed)
      0 ;;
  m <- load mask ;;
  let count_after := np_sum m in
  ret (mask, [("voxels_before", count_before);
              ("voxels_after", count_after);
              ("voxels_added", count_after - count_before);
              ("slices_processed", slices_processed)]).

Definition refine_mask (base_mask volume : ref) (spacing : float * float * float)
           (p : params)
  : M (ref * statistics) :=
  b <- load base_mask ;;
  mask <- alloc b ;;
  m <- load mask ;;
  let base_count := np_sum m in
  let steps : list step := [] in
  (* step 1: HU-gated dilation *)
  '(mask, steps) <-
    (if 0 <? get (dilation_iter p) 0 then
       lo <- getitem "hu_min" (hu_min p) ;;
       hi <- getitem "hu_max" (hu_max p) ;;
       it <- getitem "dilation_iter" (dilation_iter p) ;;
       '(mask, step_stats) <- _apply_hu_dilation mask volume lo hi it ;;
       ret (mask, steps ++ [mkStep "HU Dilation" step_stats])
     else ret (mask, steps)) ;;
  (* step 2: morphological closing *)
  '(mask, steps) <-
    (if 1 <? get (closing_size p) 1 then
       size <- getitem "closing_size" (closing_size p) ;;
       '(mask, step_stats) <- _apply_morphological_closing mask size ;;
       ret (mask, steps ++ [mkStep "Morphological Closing" step_stats])
     else ret (mask, steps)) ;;
  (* step 3: small components *)
  '(mask, step_stats) <- _remove_small_components mask ;;
  let steps := steps ++ [mkStep "Noise Removal" step_stats] in
  (* step 4: hole filling *)
  '(mask, steps) <-
    (if get (fill_holes p) false then
       '(mask, step_stats) <- _fill_holes_2d mask ;;
       ret (mask, steps ++ [mkStep "Hole Filling" step_stats])
     else ret (mask, steps)) ;;
  (* final statistics *)
  m <- load mask ;;
  let final_count := np_sum m in
  improvement <-
    (if 0 <? base_count
     then q <- truediv (final_count - base_count) base_count ;;
          ret (PyFloat (mul q (of_int 100)))
     else ret (PyInt 0)) ;;
  let volume_ml := div (mul (of_int final_count) (np_prod spacing)) (of_int 1000) in
  out <- alloc (astype_uint8 m) ;;
  ret (out, mkStatistics base_count steps final_count improvement volume_ml p).

End WithNdimage.
End Processing.

(* ================================================================= *)
(** ** [workers.py]: [MaskRefinementWorker] *)

Module Workers.
Import Numpy Float64 Runtime Processing.
Local Open Scope string_scope.
Local Open Scope list_scope.
Local Open Scope Z_scope.
Local Open Scope py_scope.

Record MaskRefinementWorker : Type := mkWorker {
  base_mask : ref;
  volume : ref;
  spacing : float * float * float;
  worker_params : params;
  organ_key : string
}.

Section WithNdimage.
Context {ops : Ndimage}.

(** [80 + int((z / total_slices) * 15)] *)
Definition progress_pct (z total_slices : nat) : Z :=
  80 + Qfloor ((inject_Z (Z.of_nat z) / inject_Z (Z.of_nat total_slices)) * 15)%Q.

Definition _refine_with_progress (self : MaskRefinementWorker) : M (ref * statistics) :=
  let p := worker_params self in
  b <- load (base_mask self) ;;
  mask <- alloc b ;;
  m <- load mask ;;
  let base_count := np_sum m in
  let steps : list step := [] in
  (* step 1 *)
  mask <-
    (if 0 <? get (dilation_iter p) 0 then
       lo <- getitem "hu_min" (hu_min p) ;;
       hi <- getitem "hu_max" (hu_max p) ;;
       emit 20 (MsgHuDilation lo hi) ;;;
       v <- load (volume self) ;;
       lo <- getitem "hu_min" (hu_min p) ;;
       hi <- getitem "hu_max" (hu_max p) ;;
       let lung_tissue :=
         mkArray (shape v) (map (fun x => Z.b2z (in_hu_range lo hi x)) (data v)) in
       m <- load mask ;;
       it <- getitem "dilation_iter" (dilation_iter p) ;;
       let dilated := of_bools (shape m) (binary_dilation m it) in
       r <- of_option (np_and dilated lung_tissue) ValueError ;;
       alloc r
     else ret mask) ;;
  (* step 2 *)
  mask <-
    (if 1 <? get (closing_size p) 1 then
       emit 40 MsgClosing ;;;
       size <- getitem "closing_size" (closing_size p) ;;
       m <- load mask ;;
       alloc (of_bools (shape m) (binary_closing m size))
     else ret mask) ;;
  (* step 3 *)
  emit 60 MsgNoiseRemoval ;;;
  m <- load mask ;;
  let '(labeled, num_features) := ndimage_label m in
  mask <-
    (if 0 <? num_features then
       let sizes := ndimage_sum m labeled (range 1 (num_features + 1)) in
       let max_size := np_max sizes in
       let threshold := (inject_Z max_size * (1 # 100))%Q in
       let mask_cleaned :=
         fold_left (fun mask_cleaned (isize : Z * Z) =>
                      let '(i, size) := isize in
                      if gt size threshold
                      then assign_where labeled i mask_cleaned
                      else mask_cleaned)
                   (enumerate 1 sizes) (np_zeros_like m) in
       alloc mask_cleaned
     else ret mask) ;;
  (* step 4 *)
  (if get (fill_holes p) false then
     m <- load mask ;;
     let total_slices := fst (fst (shape m)) in
     for_each (seq 0 total_slices)
       (fun (_ : unit) z =>
          (if (z mod 10 =? 0)%nat
           then emit (progress_pct z total_slices) (MsgFillHoles z total_slices)
           else ret tt) ;;;
          m <- load mask ;;
          if np_any (get_slice m z) then
            let '(_, h, w) := shape m in
            store mask
              (set_slice m z (map Z.b2z (binary_fill_holes h w (get_slice m z))))
          else ret tt)
       tt
   else ret tt) ;;;
  emit 95 MsgFinalizing ;;;
  m <- load mask ;;
  mask <- alloc (astype_uint8 m) ;;
  m <- load mask ;;
  let final_count := np_sum m in
  improvement <-
    (if 0 <? base_count
     then q <- truediv (final_count - base_count) base_count ;;
          ret (PyFloat (mul q (of_int 100)))
     else ret (PyInt 0)) ;;
  let volume_ml :=
    div (mul (of_int final_count) (np_prod (spacing self))) (of_int 1000) in
  ret (mask, mkStatistics base_count steps final_count improvement volume_ml p).

End WithNdimage.
End Workers.

(* ================================================================= *)
(** ** What stage 3 is meant to compute

    The vocabulary of the specification of small-component removal:
    connectivity, the voxel count of a component, the largest count, and the
    1% test.  The properties of Part II relate [_remove_small_components]
    to these. *)

Module Stage3.
Import Numpy Processing.

(** A mask holds only [0] and [1]. *)
Definition binary (a : ndarray) : Prop :=
  Forall (fun v => v = 0 \/ v = 1) (data a).

(** Two voxels are connected: a chain of 6-neighbours inside the
    foreground leads from one to the other. *)
Definition connected (a : ndarray) (i j : Z) : Prop :=
  Graph.conn (adjacency a) (foreground a) i j.

(** The label [ndimage.label] gives to the voxel with flat index [i]. *)
Definition label_at (a : ndarray) (i : Z) : Z :=
  Z.of_nat (Graph.label_of Z.eqb (label_components a) i).

Definition num_components (a : ndarray) : Z :=
  Z.of_nat (length (label_components a)).

(** The number of voxels that carry label [l]. *)
Definition voxel_count (a : ndarray) (l : Z) : Z :=
  Z.of_nat (length (filter (fun iv => label_at a (fst iv) =? l)
                           (enumerate 0 (data a)))).

(** The sum of the values of the voxels that carry label [l]. *)
Definition component_size (a : ndarray) (l : Z) : Z :=
  zsum (map (fun iv => if label_at a (fst iv) =? l then snd iv else 0)
            (enumerate 0 (data a))).

Definition component_sizes (a : ndarray) : list Z :=
  map (component_size a) (range 1 (num_components a + 1)).

Definition largest (a : ndarray) : Z := np_max (component_sizes a).

(** [size <= max_size * 0.01] *)
Definition small_size (max_size size : Z) : bool :=
  Qle_bool (inject_Z size) (inject_Z max_size * (1 # 100)).

Definition small (a : ndarray) (l : Z) : bool :=
  small_size (largest a) (component_size a l).

Definition kept_label (a : ndarray) (l : Z) : bool :=
  (1 <=? l) && (l <=? num_components a) && negb (small a l).

Definition kept_count (a : ndarray) : Z :=
  Z.of_nat (length (filter (fun l => negb (small a l))
                           (range 1 (num_components a + 1)))).

(** The mask with the voxels of the small components set to [0] and all
    other foreground voxels set to [1]. *)
Definition cleaned (a : ndarray) : ndarray :=
  mkArray (shape a)
    (map (fun iv => if kept_label a (label_at a (fst iv)) then 1 else 0)
         (enumerate 0 (data a))).

Definition cleaned_stats (a : ndarray) : dict :=
  [("voxels_before", np_sum a);
   ("voxels_after", np_sum (cleaned a));
   ("voxels_removed", np_sum a - np_sum (cleaned a));
   ("components_total", num_components a);
   ("components_kept", kept_count a);
   ("components_removed", num_components a - kept_count a)]%string.

Definition empty_stats (a : ndarray) : dict :=
  [("voxels_before", np_sum a);
   ("voxels_after", 0);
   ("components_removed", 0)]%string.

End Stage3.

(* ================================================================= *)
(** ** What the slice loop of stage 4 does to the store *)

Module Stage4.
Import Numpy Runtime.

Section WithNdimage.
Context {ops : Ndimage}.

(** One turn of the loop on the array [mask] refers to. *)
Definition fill_step (mask : ref) (h : list ndarray) (z : nat) : list ndarray :=
  let m := nth mask h empty_array in
  if np_any (get_slice m z) then
    let '(_, hh, w) := shape m in
    update h mask (set_slice m z (map Z.b2z (binary_fill_holes hh w (get_slice m z))))
  else h.

(** The number of turns that found a non-empty slice. *)
Fixpoint fill_count (mask : ref) (h : list ndarray) (zs : list nat) : Z :=
  match zs with
  | [] => 0
  | z :: zs' =>
      (if np_any (get_slice (nth mask h empty_array) z) then 1 else 0)
      + fill_count mask (fill_step mask h z) zs'
  end.

End WithNdimage.

(** All values are [0] or [1]. *)
Definition bits (a : ndarray) : Prop := Forall (fun v => 0 <= v <= 1) (data a).

(** The progress signals of the worker's slice loop: one every tenth
    slice. *)
Definition fill_emits (total_slices : nat) (zs : list nat) : list (Z * message) :=
  flat_map (fun z => if (z mod 10 =? 0)%nat
                     then [(Workers.progress_pct z total_slices,
                            MsgFillHoles z total_slices)]
                     else [])
           zs.

End Stage4.

(* ================================================================= *)
(** ** A reference instance of the morphological operators, and sample data

    The properties of Part II hold for every instance of [Ndimage].  To run
    the pipeline on sample data one instance is needed; this one follows the
    documented behaviour of [scipy.ndimage] with its default arguments
    (border value 0, origin 0). *)

Module Reference.
Import Numpy Float64 Runtime Processing.

(** The coordinates of a flat index, and back. *)
Definition unravel (s : nat * nat * nat) (i : nat) : Z * Z * Z :=
  let '(_, h, w) := s in
  (Z.of_nat (i / (h * w)), Z.of_nat ((i / w) mod h), Z.of_nat (i mod w)).

Definition inside (s : nat * nat * nat) (c : Z * Z * Z) : bool :=
  let '(d, h, w) := s in
  let '(z, y, x) := c in
  (0 <=? z) && (z <? Z.of_nat d) && (0 <=? y) && (y <? Z.of_nat h)
  && (0 <=? x) && (x <? Z.of_nat w).

(** The value at a coordinate; [false] outside the array. *)
Definition truth_at (a : ndarray) (c : Z * Z * Z) : bool :=
  let '(z, y, x) := c in
  inside (shape a) c
  && negb (get3 a (Z.to_nat z) (Z.to_nat y) (Z.to_nat x) =? 0).

(** One dilation by the 6-neighbourhood. *)
Definition dilate_once (a : ndarray) : ndarray :=
  of_bools (shape a)
    (map (fun iv => negb (snd iv =? 0)
                    || existsb (adjacency a (fst iv)) (foreground a))
         (enumerate 0 (data a))).

Definition dilation (a : ndarray) (iterations : Z) : list bool :=
  map (fun v => negb (v =? 0))
      (data (Nat.iter (Z.to_nat iterations) dilate_once a)).

(** The offsets of a cube of side [n] around its centre [n / 2]. *)
Definition cube (n : Z) : list (Z * Z * Z) :=
  let line := range (- (n / 2)) (n - n / 2) in
  flat_map (fun dz => flat_map (fun dy => map (fun dx => (dz, dy, dx)) line) line) line.

Definition positions (a : ndarray) : list (Z * Z * Z) :=
  map (unravel (shape a)) (seq 0 (length (data a))).

Definition dilate_cube (a : ndarray) (n : Z) : ndarray :=
  of_bools (shape a)
    (map (fun c => let '(z, y, x) := c in
                   existsb (fun o => let '(dz, dy, dx) := o in
                                     truth_at a (z - dz, y - dy, x - dx))
                           (cube n))
         (positions a)).

Definition erode_cube (a : ndarray) (n : Z) : ndarray :=
  of_bools (shape a)
    (map (fun c => let '(z, y, x) := c in
                   forallb (fun o => let '(dz, dy, dx) := o in
                                     truth_at a (z + dz, y + dy, x + dx))
                           (cube n))
         (positions a)).

(** Closing: dilation, then erosion, by the same cube. *)
Definition closing (a : ndarray) (n : Z) : list bool :=
  map (fun v => negb (v =? 0)) (data (erode_cube (dilate_cube a n) n)).

(** Hole filling in a slice: the background reached from the border of
    the slice by 4-neighbour steps stays background; all else is filled. *)
Definition fill_holes_2d (h w : nat) (slice : list Z) : list bool :=
  let adj := adj6 (Z.of_nat h) (Z.of_nat w) in
  let on_border (i : Z) :=
    let y := i / Z.of_nat w in
    let x := i mod Z.of_nat w in
    (y =? 0) || (y =? Z.of_nat h - 1) || (x =? 0) || (x =? Z.of_nat w - 1) in
  let background :=
    map fst (filter (fun iv => snd iv =? 0) (enumerate 0 slice)) in
  let seeds := filter on_border background in
  let rest := filter (fun i => negb (on_border i)) background in
  let outside := Graph.bfs adj (S (length rest)) seeds rest seeds in
  map (fun iv => negb (Graph.mem Z.eqb (fst iv) outside)) (enumerate 0 slice).

#[export] Instance scipy_ndimage : Ndimage := {
  binary_dilation := dilation;
  binary_closing := closing;
  binary_fill_holes := fill_holes_2d
}.

(** *** Sample data *)

(** A 3 x 3 ring in one slice, with a hole in the middle. *)
Definition ring : ndarray :=
  mkArray (1, 3, 3)%nat [1; 1; 1;
                         1; 0; 1;
                         1; 1; 1].

Definition ring_volume : ndarray :=
  mkArray (1, 3, 3)%nat [-700; -700; -700;
                         -700; -650; -700;
                         -700; -700;   40].

(** A volume whose shape cannot be broadcast against the ring's. *)
Definition short_volume : ndarray := mkArray (1, 1, 2)%nat [-700; -700].

(** The store of a caller that holds the ring, its volume and the short
    volume. *)
Definition ring_store : state := mkState [ring; ring_volume; short_volume] [].

(** A spacing of 1 mm along each axis. *)
Definition unit_spacing : float * float * float := (of_int 1, of_int 1, of_int 1).

Definition dilate_and_fill : params :=
  mkParams (Some (-1000 # 1)) (Some (-300 # 1)) (Some 1) (Some 1) (Some true).

Definition no_stage : params :=
  mkParams (Some (-1000 # 1)) (Some (-300 # 1)) (Some 0) (Some 1) (Some false).

(** A 6 x 11 x 20 mask with two components: a block of 5 x 10 x 19 = 950
    voxels and, away from it, a line of [n] voxels. *)
Definition block_and_line (n : nat) : ndarray :=
  mkArray (6, 11, 20)%nat
    (flat_map (fun z =>
       flat_map (fun y =>
         map (fun x =>
                if ((z <? 5) && (y <? 10) && (x <? 19))%nat then 1
                else if ((z =? 5) && (y =? 10) && (x <? n))%nat then 1
                else 0)
             (seq 0 20))
         (seq 0 11))
       (seq 0 6)).

(** A line of 150 voxels of value [1] and, one voxel away, a single voxel
    of value [2]: an array that is not a mask. *)
Definition weighted_line : ndarray :=
  mkArray (1, 1, 152)%nat (repeat 1 150 ++ [0; 2]).

End Reference.

(* ================================================================= *)
(** ** Reading the widgets and the ROIs back *)

Module Widgets.
Import StateManager.
Local Open Scope string_scope.

(** [self._widgets.get(name)] *)
Fixpoint find_widget (ws : list (string * widget)) (name : string) : option widget :=
  match ws with
  | [] => None
  | (n, w) :: ws' => if String.eqb n name then Some w else find_widget ws' name
  end.

(** [self._widgets[name].isEnabled()]; [None] when no widget has that
    name. *)
Definition is_enabled (self : UIStateManager) (name : string) : option bool :=
  option_map enabled (find_widget (_widgets self) name).

(** A widget is registered under [name] and has a [setEnabled] method. *)
Definition registered (self : UIStateManager) (name : string) : Prop :=
  exists w, find_widget (_widgets self) name = Some w /\ has_setEnabled w = true.

(** The names the [_set_..._state] methods pass to [_set_widget_enabled]. *)
Definition buttons : list string :=
  ["btn_load"; "btn_draw_roi1"; "btn_draw_roi2"; "btn_reset_roi"; "btn_segment";
   "btn_apply_refinement"; "btn_reset_mask"; "btn_save"; "slice_slider"].

Definition param_widgets : list string :=
  ["slider_hu_min"; "slider_hu_max"; "slider_dilation"; "slider_closing";
   "cb_fill_holes"; "btn_conservative_preset"; "btn_aggressive_preset"].

(** The widgets after a run of settings: a widget with [setEnabled] gets
    the flag of the last setting that names it. *)
Fixpoint last_setting (l : list (string * bool)) (name : string) : option bool :=
  match l with
  | [] => None
  | (n, en) :: l' =>
      match last_setting l' name with
      | Some e => Some e
      | None => if String.eqb n name then Some en else None
      end
  end.

Definition settle (o : option bool) (w : widget) : widget :=
  match o with
  | Some en => if has_setEnabled w then mkWidget true en else w
  | None => w
  end.

(** The settings each state applies, in the order of the calls. *)
Definition settings (s : UIState) : list (string * bool) :=
  let full (load roi1 roi2 reset_roi segment apply_ref reset_mask save slider
            params : bool) :=
    ([("btn_load", load); ("btn_draw_roi1", roi1); ("btn_draw_roi2", roi2);
      ("btn_reset_roi", reset_roi); ("btn_segment", segment);
      ("btn_apply_refinement", apply_ref); ("btn_reset_mask", reset_mask);
      ("btn_save", save); ("slice_slider", slider)]
       ++ map (fun n => (n, params)) param_widgets)%list in
  match s with
  | INITIAL => full true false false false false false false false false false
  | VOLUME_LOADED => full true true false true false false false false true false
  | ROI1_DEFINED => full true true true true false false false false true false
  | ROI_DEFINED => full true true true true true false false false true false
  | SEGMENTING => full false false false false false false false false true false
  | MASK_READY => full true true true true true true true true true true
  | REFINING => full false false false false false false false false true false
  | SAVING => [("btn_load", false); ("btn_save", false); ("btn_apply_refinement", false)]
  | ROI2_DEFINED => []
  end.

End Widgets.

Module RoiGeometry.
Import RoiSelector.

(** The voxel [(z, y, x)] lies in the rectangle of a stored ROI, on its
    slice. *)
Definition in_roi (r : roi) (z y x : Z) : Prop :=
  let '(z_slice, y_min, y_max, x_min, x_max) := r in
  z = z_slice /\ y_min <= y <= y_max /\ x_min <= x <= x_max.

Definition in_box (box : Z * Z * Z * Z * Z * Z) (z y x : Z) : Prop :=
  let '(z0, z1, y0, y1, x0, x1) := box in
  z0 <= z <= z1 /\ y0 <= y <= y1 /\ x0 <= x <= x1.

Definition in_shape (volume_shape : Z * Z * Z) (z y x : Z) : Prop :=
  let '(depth, height, width) := volume_shape in
  0 <= z < depth /\ 0 <= y < height /\ 0 <= x < width.

End RoiGeometry.

(* ================================================================= *)
(** ** [processing.py]: the mask metrics *)

Module Metrics.
Import Numpy Runtime.
Local Open Scope Z_scope.

(** [a.astype(bool)] *)
Definition astype_bool (a : ndarray) : ndarray :=
  mkArray (shape a) (map (fun v => Z.b2z (negb (v =? 0))) (data a)).

(** [~a] on a boolean array *)
Definition np_invert (a : ndarray) : ndarray :=
  mkArray (shape a) (map (fun v => Z.b2z (v =? 0)) (data a)).

(** The exceptions of a function that touches no array of the store. *)
Definition rbind {A B : Type} (r : result A) (k : A -> result B) : result B :=
  match r with
  | Ok a => k a
  | Raise e => Raise e
  end.

(** [a & b] *)
Definition and_ (a b : ndarray) : result ndarray :=
  match np_and a b with
  | Some r => Ok r
  | None => Raise ValueError
  end.

(** The sums are sums over [Z]: those of masks, which numpy adds up in
    64-bit integers. *)
Definition calculate_dice_coefficient (mask1 mask2 : ndarray) : result Q :=
  rbind (and_ mask1 mask2) (fun both =>
  let intersection := np_sum both in
  let sum_masks := np_sum mask1 + np_sum mask2 in
  if sum_masks =? 0 then Ok 1%Q
  else Ok (2 * inject_Z intersection / inject_Z sum_masks)%Q).

(** The dictionary [calculate_mask_difference] returns. *)
Record difference : Type := mkDifference {
  mask1_count : Z;
  mask2_count : Z;
  added_voxels : Z;
  removed_voxels : Z;
  unchanged_voxels : Z;
  dice_coefficient : Q
}.

Definition calculate_mask_difference (mask1 mask2 : ndarray) : result difference :=
  let mask1_bool := astype_bool mask1 in
  let mask2_bool := astype_bool mask2 in
  rbind (and_ mask2_bool (np_invert mask1_bool)) (fun added =>
  rbind (and_ mask1_bool (np_invert mask2_bool)) (fun removed =>
  rbind (and_ mask1_bool mask2_bool) (fun unchanged =>
  rbind (calculate_dice_coefficient mask1_bool mask2_bool) (fun dice =>
  Ok (mkDifference (np_sum mask1_bool) (np_sum mask2_bool)
                   (np_sum added) (np_sum removed) (np_sum unchanged) dice))))).

(** Two arrays of one shape, with as many values as each other. *)
Definition same_grid (a b : ndarray) : Prop :=
  shape a = shape b /\ length (data a) = length (data b).

(** Two masks share a voxel. *)
Definition overlap (a b : ndarray) : Prop :=
  exists i, nth i (data a) 0 = 1 /\ nth i (data b) 0 = 1.

End Metrics.

(* ================================================================= *)
(** ** The pipeline, stage by stage

    What each stage of [refine_mask] does to the store, to the reference
    held in [mask] and to [stats['steps']], as functions; Part IV proves
    that [refine_mask] and the worker compute their composition. *)

Module Pipeline.
Import Numpy Float64 Runtime Processing Workers Stage3 Stage4.
Local Open Scope string_scope.
Local Open Scope list_scope.
Local Open Scope Z_scope.

(** The statistics of a stage that adds voxels. *)
Definition growth (before after : Z) : dict :=
  [("voxels_before", before); ("voxels_after", after);
   ("voxels_added", after - before)].

(** [((volume >= hu_min) & (volume <= hu_max)).astype(np.uint8)] *)
Definition lung_tissue (v : ndarray) (lo hi : Q) : ndarray :=
  mkArray (shape v) (map (fun x => Z.b2z (in_hu_range lo hi x)) (data v)).

Section WithNdimage.
Context {ops : Ndimage}.

Definition dilated (m : ndarray) (it : Z) : ndarray :=
  of_bools (shape m) (binary_dilation m it).

Definition closed (m : ndarray) (size : Z) : ndarray :=
  of_bools (shape m) (binary_closing m size).

(** Stage 1 on the store [h] with the mask at [mask]. *)
Definition stage1 (p : params) (volume : ref) (h : list ndarray) (mask : ref)
  : result (list ndarray * ref * list step) :=
  if 0 <? get (dilation_iter p) 0 then
    match hu_min p, hu_max p, dilation_iter p with
    | None, _, _ => Raise (KeyError "hu_min")
    | Some _, None, _ => Raise (KeyError "hu_max")
    | Some _, Some _, None => Raise (KeyError "dilation_iter")
    | Some lo, Some hi, Some it =>
        let m := nth mask h empty_array in
        match np_and (dilated m it) (lung_tissue (nth volume h empty_array) lo hi) with
        | Some r =>
            Ok (h ++ [r], length h,
                [mkStep "HU Dilation" (growth (np_sum m) (np_sum r))])
        | None => Raise ValueError
        end
    end
  else Ok (h, mask, []).

Definition stage2 (p : params) (h : list ndarray) (mask : ref)
  : list ndarray * ref * list step :=
  if 1 <? get (closing_size p) 1 then
    let m := nth mask h empty_array in
    let c := closed m (get (closing_size p) 1) in
    (h ++ [c], length h,
     [mkStep "Morphological Closing" (growth (np_sum m) (np_sum c))])
  else (h, mask, []).

Definition stage3 (h : list ndarray) (mask : ref) : list ndarray * ref * step :=
  let m := nth mask h empty_array in
  if num_components m =? 0
  then (h, mask, mkStep "Noise Removal" (empty_stats m))
  else (h ++ [cleaned m], length h, mkStep "Noise Removal" (cleaned_stats m)).

Definition stage4 (p : params) (h : list ndarray) (mask : ref)
  : list ndarray * list step :=
  if get (fill_holes p) false then
    let m := nth mask h empty_array in
    let zs := seq 0 (fst (fst (shape m))) in
    let h' := fold_left (fill_step mask) zs h in
    (h', [mkStep "Hole Filling"
            (growth (np_sum m) (np_sum (nth mask h' empty_array))
               ++ [("slices_processed", fill_count mask h zs)])])
  else (h, []).

(** What one slice becomes. *)
Definition filled_slice (a : ndarray) (z : nat) : list Z :=
  if np_any (get_slice a z)
  then map Z.b2z (binary_fill_holes (snd (fst (shape a))) (snd (shape a))
                                    (get_slice a z))
  else get_slice a z.

(** The signals of the worker, stage by stage. *)
Definition signals1 (p : params) : list (Z * message) :=
  if 0 <? get (dilation_iter p) 0 then
    match hu_min p, hu_max p with
    | Some lo, Some hi => [(20, MsgHuDilation lo hi)]
    | _, _ => []
    end
  else [].

Definition signals2 (p : params) : list (Z * message) :=
  if 1 <? get (closing_size p) 1 then [(40, MsgClosing)] else [].

Definition signals4 (p : params) (m : ndarray) : list (Z * message) :=
  if get (fill_holes p) false
  then fill_emits (fst (fst (shape m))) (seq 0 (fst (fst (shape m))))
  else [].

(** The final statistics. *)
Definition improvement (base_count final_count : Z) : number :=
  if 0 <? base_count
  then PyFloat (mul (int_div (final_count - base_count) base_count) (of_int 100))
  else PyInt 0.

Definition millilitres (final_count : Z) (spacing : float * float * float) : float :=
  div (mul (of_int final_count) (np_prod spacing)) (of_int 1000).

(** The names of the stages that the parameters enable, in pipeline
    order. *)
Definition stage_names (p : params) : list string :=
  (if 0 <? get (dilation_iter p) 0 then ["HU Dilation"] else [])
  ++ (if 1 <? get (closing_size p) 1 then ["Morphological Closing"] else [])
  ++ ["Noise Removal"]
  ++ (if get (fill_holes p) false then ["Hole Filling"] else []).

(** The entries of [stats['steps']] chain: each step starts with the voxel
    count the one before it ended with. *)
Fixpoint chained (before : Z) (ss : list step) (after : Z) : Prop :=
  match ss with
  | [] => before = after
  | s :: ss' =>
      lookup "voxels_before" (step_stats s) = Some before
      /\ exists mid,
           lookup "voxels_after" (step_stats s) = Some mid /\ chained mid ss' after
  end.

(** The whole run: the arrays allocated, the array the mask ends in, and
    the steps recorded. *)
Definition pipeline (p : params) (volume : ref) (h : list ndarray) (base_mask : ref)
  : result (list ndarray * ref * list step) :=
  let h0 := h ++ [nth base_mask h empty_array] in
  match stage1 p volume h0 (length h) with
  | Raise e => Raise e
  | Ok (h1, m1, s1) =>
      let '(h2, m2, s2) := stage2 p h1 m1 in
      let '(h3, m3, s3) := stage3 h2 m2 in
      let '(h4, s4) := stage4 p h3 m3 in
      Ok (h4, m3, s1 ++ s2 ++ [s3] ++ s4)
  end.

End WithNdimage.
End Pipeline.

(* ================================================================= *)
(** ** [data_io.py]: the statistics of a mask *)

Module DataIO.
Import Numpy Float64 Processing.
Local Open Scope Z_scope.

(** The dictionary [get_mask_statistics] returns. *)
Record mask_statistics : Type := mkMaskStatistics {
  voxel_count : Z;
  volume_ml : float;
  volume_cm3 : float;
  z_coverage : Z;
  z_total : Z
}.

(** [np.sum(mask, axis=(1, 2))]: the sum of each slice. *)
Definition slice_sums (mask : ndarray) : list Z :=
  map (fun z => zsum (get_slice mask z)) (seq 0 (fst (fst (shape mask)))).

Definition get_mask_statistics (mask : ndarray) (spacing : float * float * float)
  : mask_statistics :=
  let voxel_count := np_sum mask in
  let voxel_volume_mm3 := np_prod spacing in
  let volume_ml := div (mul (of_int voxel_count) voxel_volume_mm3) (of_int 1000) in
  let z_coverage := zsum (map (fun s => Z.b2z (0 <? s)) (slice_sums mask)) in
  mkMaskStatistics voxel_count volume_ml volume_ml z_coverage
                   (Z.of_nat (fst (fst (shape mask)))).

End DataIO.

(* ================================================================= *)
(** ** Arrays whose data fit their shape *)

Module Shapes.
Import Numpy.

(** As many values as the shape says. *)
Definition well_formed (a : ndarray) : Prop :=
  length (data a) = (fst (fst (shape a)) * slice_size a)%nat.

(** [binary_fill_holes] returns an array of the shape of the slice it is
    given. *)
Definition fill_keeps_shape (ops : Ndimage) : Prop :=
  forall (h w : nat) (slice : list Z),
    length (binary_fill_holes h w slice) = length slice.

End Shapes.

(* ================================================================= *)
(** ** More sample data *)

Module MoreSamples.
Import Numpy Float64 Runtime Processing StateManager Reference.
Local Open Scope string_scope.

(** A manager with the four action buttons registered, two of them
    enabled. *)
Definition four_buttons : UIStateManager :=
  register_widgets init
    [("btn_load", mkWidget true true); ("btn_segment", mkWidget true true);
     ("btn_apply_refinement", mkWidget true false); ("btn_save", mkWidget true false)].

(** A 3 x 3 cross in one slice. *)
Definition cross : ndarray :=
  mkArray (1, 3, 3)%nat [0; 1; 0;
                         1; 1; 1;
                         0; 1; 0].

Definition all_disabled : params :=
  mkParams None None (Some 0) (Some 1) (Some false).

Definition dilate_only : params :=
  mkParams (Some (-1000 # 1)) (Some (-300 # 1)) (Some 1) (Some 1) (Some false).

(** The store of a caller that holds the block of 950 voxels with a line
    of 9 voxels beside it, and a volume of that shape. *)
Definition speckled_store : state :=
  mkState [block_and_line 9; np_zeros_like (block_and_line 9)] [].

(** A full block of 10 x 10 x 20 = 2000 voxels, and one of
    2 x 10 x 10 = 200 voxels, each with a volume of its shape. *)
Definition block : ndarray := mkArray (10, 10, 20)%nat (repeat 1 2000).

Definition block_store : state := mkState [block; np_zeros_like block] [].

Definition slab : ndarray := mkArray (2, 10, 10)%nat (repeat 1 200).

Definition slab_store : state := mkState [slab; np_zeros_like slab] [].

(** The spacing [(0.7, 0.7, 1.25)]. *)
Definition fine_spacing : float * float * float :=
  (literal (7 # 10), literal (7 # 10), literal (125 # 100)).

(** A row of five voxels, three of them set, and a volume in which the
    first four are lung tissue. *)
Definition strip_store : state :=
  mkState [mkArray (1, 1, 5)%nat [1; 1; 1; 0; 0];
           mkArray (1, 1, 5)%nat [-700; -700; -700; -700; 40]] [].

(** An array of bytes that is not a mask. *)
Definition labels : ndarray := mkArray (1, 2, 3)%nat [0; 1; 2; 2; 255; 7].

End MoreSamples.

(* ================================================================= *)
(** ** Python built-ins on floats *)

Module Builtins.

(** [int(x)] on a float: truncation towards zero. *)
Definition int_of (x : Q) : Z :=
  if Qle_bool 0 x then Qfloor x else Qceiling x.

(** [min(a, b)] and [max(a, b)] on floats. *)
Definition fmin (a b : Q) : Q := if Qle_bool a b then a else b.
Definition fmax (a b : Q) : Q := if Qle_bool b a then a else b.

End Builtins.

(* ================================================================= *)
(** ** [lungmask_segmenter.py]: segmentation in batches *)

Module Segmenter.
Import Numpy Builtins.
Local Open Scope Z_scope.

(** A SimpleITK image: its pixels as [sitk.GetArrayFromImage] gives them
    (axes z, y, x) and its geometry (axes x, y, z). *)
Record image : Type := mkImage {
  pixels : ndarray;
  spacing : Q * Q * Q;
  origin : Q * Q * Q;
  direction : list Q
}.

Inductive exn : Type :=
| ZeroDivisionError
| ValueError
| InferenceError.        (* whatever [self._inferer.apply] raises *)

(** [self._inferer]: the lungmask model, from outside. *)
Class LMInferer : Type := {
  apply : image -> exn + ndarray
}.

(** The fields of [LungMaskSegmenter] that the batching reads. *)
Record LungMaskSegmenter : Type := mkSegmenter {
  batch_size : Z
}.

(** What the batching does to the outside: calls of [progress_callback]
    and of the model. *)
Inductive event : Type :=
| Started (percentage n_slices : Z) (batched : bool)
| Progress (percentage batch_no n_batches i end_i : Z)
| Applied (img : image).

(** A bound of a Python slice on an axis of length [n]. *)
Definition slice_bound (n i : Z) : Z :=
  if i <? 0 then Z.max (i + n) 0 else Z.min i n.

(** The first index and the number of indices of [start:stop]. *)
Definition slice_range (n start stop : Z) : nat * nat :=
  let lo := slice_bound n start in
  let hi := slice_bound n stop in
  (Z.to_nat lo, Z.to_nat (hi - lo)).

(** [a[start:stop]] *)
Definition getitem_slice (a : ndarray) (start stop : Z) : ndarray :=
  let '(d, h, w) := shape a in
  let '(lo, k) := slice_range (Z.of_nat d) start stop in
  mkArray (k, h, w) (firstn (k * (h * w)) (skipn (lo * (h * w)) (data a))).

(** A shape that numpy broadcasts to a target shape. *)
Definition broadcastable (s t : nat * nat * nat) : bool :=
  let '(d1, h1, w1) := s in
  let '(d2, h2, w2) := t in
  (((d1 =? d2) || (d1 =? 1)) && ((h1 =? h2) || (h1 =? 1))
   && ((w1 =? w2) || (w1 =? 1)))%nat.

(** [a[start:stop] = v] on an array [a] of unsigned bytes. *)
Definition setitem_slice (a : ndarray) (start stop : Z) (v : ndarray) : exn + ndarray :=
  let '(d, h, w) := shape a in
  let '(lo, k) := slice_range (Z.of_nat d) start stop in
  if broadcastable (shape v) (k, h, w) then
    let values :=
      if shape_eqb (shape v) (k, h, w) then data v
      else data (broadcast_to v (k, h, w)) in
    inr (mkArray (shape a)
           (firstn (lo * (h * w)) (data a)
              ++ map (fun x => x mod 256) values
              ++ skipn ((lo + k) * (h * w)) (data a)))
  else inl ValueError.

(** [30 + int((batch_idx / n_batches) * 60)] *)
Definition batch_progress (batch_idx n_batches : Z) : Z :=
  30 + int_of ((inject_Z batch_idx / inject_Z n_batches) * 60)%Q.

(** The image of the batch of the slices [i:end_i]: the pixels of these
    slices, the geometry of the whole image, and the origin moved along z
    to slice [i]. *)
Definition batch_image (roi_sitk : image) (i end_i : Z) : image :=
  let batch := getitem_slice (pixels roi_sitk) i end_i in
  let '(ox, oy, oz) := origin roi_sitk in
  let '(sx, sy, sz) := spacing roi_sitk in
  mkImage batch (spacing roi_sitk) (ox, oy, (oz + inject_Z i * sz)%Q)
          (direction roi_sitk).

Section WithInferer.
Context {inferer : LMInferer}.

(** The loop [for batch_idx in range(n_batches)] on [result] and the
    events so far. *)
Fixpoint batch_loop (self : LungMaskSegmenter) (roi_sitk : image)
         (progress_callback : bool) (n_slices n_batches : Z) (idxs : list Z)
         (result : ndarray) (log : list event) : exn + (ndarray * list event) :=
  match idxs with
  | [] => inr (result, log)
  | batch_idx :: idxs' =>
      let i := batch_idx * batch_size self in
      let end_i := Z.min (i + batch_size self) n_slices in
      let log :=
        if progress_callback
        then log ++ [Progress (batch_progress batch_idx n_batches)
                              (batch_idx + 1) n_batches i end_i]
        else log in
      let batch_sitk := batch_image roi_sitk i end_i in
      match apply batch_sitk with
      | inl e => inl e
      | inr batch_seg =>
          match setitem_slice result i end_i batch_seg with
          | inl e => inl e
          | inr result =>
              batch_loop self roi_sitk progress_callback n_slices n_batches idxs'
                         result (log ++ [Applied batch_sitk])
          end
      end
  end.

Definition _batch_segment (self : LungMaskSegmenter) (roi_sitk : image)
           (progress_callback : bool) : exn + (ndarray * list event) :=
  let roi_array := pixels roi_sitk in
  let n_slices := Z.of_nat (fst (fst (shape roi_array))) in
  let result := np_zeros_like roi_array in
  if batch_size self =? 0 then inl ZeroDivisionError
  else
    let n_batches := (n_slices + batch_size self - 1) / batch_size self in
    batch_loop self roi_sitk progress_callback n_slices n_batches
               (range 0 n_batches) result [].

Definition _run_segmentation (self : LungMaskSegmenter) (sitk_image : image)
           (n_slices : Z) (progress_callback : bool) : exn + (ndarray * list event) :=
  let started (batched : bool) :=
    if progress_callback then [Started 25 n_slices batched] else [] in
  if 100 <? n_slices then
    match _batch_segment self sitk_image progress_callback with
    | inl e => inl e
    | inr (result, log) => inr (result, started true ++ log)
    end
  else
    match apply sitk_image with
    | inl e => inl e
    | inr result => inr (result, started false ++ [Applied sitk_image])
    end.

(** The images the model was applied to, in order. *)
Definition applied (log : list event) : list image :=
  flat_map (fun e => match e with Applied img => [img] | _ => [] end) log.

(** The percentages passed to [progress_callback], in order. *)
Definition percentages (log : list event) : list Z :=
  flat_map (fun e => match e with
                     | Started pct _ _ => [pct]
                     | Progress pct _ _ _ _ => [pct]
                     | Applied _ => []
                     end) log.

(** What the model makes of an image, as unsigned bytes. *)
Definition segmented (img : image) : list Z :=
  match apply img with
  | inr seg => map (fun x => x mod 256) (data seg)
  | inl _ => []
  end.

(** The model returns an array of the shape and size of the image it is
    given. *)
Definition keeps_shape : Prop :=
  forall img : image,
    exists seg, apply img = inr seg
                /\ shape seg = shape (pixels img)
                /\ length (data seg) = length (data (pixels img)).

End WithInferer.

(** The number of slices of an image. *)
Definition depth (img : image) : Z := Z.of_nat (fst (fst (shape (pixels img)))).

End Segmenter.

(** Sample data for the segmenter. *)
Module SegmenterSamples.
Import Numpy Segmenter.
Local Open Scope Z_scope.

(** A stand-in for the model: every voxel below -500 HU is marked 1. *)
#[export] Instance threshold_inferer : LMInferer := {
  apply img :=
    inr (mkArray (shape (pixels img))
                 (map (fun v => if v <? -500 then 1 else 0) (data (pixels img))))
}.

Definition identity_direction : list Q := [1; 0; 0; 0; 1; 0; 0; 0; 1]%Q.

(** Five slices of 1 x 2 voxels, 2 mm apart. *)
Definition scan : image :=
  mkImage (mkArray (5, 1, 2)%nat [-800; -200; -900; -100; 0; -600; -700; -700; 30; 40])
          (1, 1, 2)%Q (0, 0, 10)%Q identity_direction.

(** 101 slices of one voxel of air. *)
Definition long_scan : image :=
  mkImage (mkArray (101, 1, 1)%nat (repeat (-800) 101))
          (1, 1, 2)%Q (0, 0, 10)%Q identity_direction.

End SegmenterSamples.

(* ================================================================= *)
(** ** [data_io.py]: saving a mask *)

Module Saving.
Import Numpy.
Local Open Scope string_scope.

(** [s.endswith(suffix)]: some tail of [s] is [suffix]. *)
Fixpoint endswith (s suffix : string) : bool :=
  if String.eqb s suffix then true
  else match s with
       | EmptyString => false
       | String _ s' => endswith s' suffix
       end.

(** What [_save_with_sitk] hands to [sitk.WriteImage]. *)
Record sitk_image : Type := mkSitkImage {
  sitk_pixels : ndarray;
  sitk_spacing : Q * Q * Q;
  sitk_origin : Q * Q * Q;
  sitk_direction : list Q
}.

(** What [_save_with_nibabel] hands to [nib.save]. *)
Record nifti_image : Type := mkNifti {
  dataobj : ndarray;
  affine : list (list Q)
}.

(** The two libraries that write files, from outside: each call either
    returns ([true]) or raises ([false]), and changes the file system. *)
Class Storage : Type := {
  World : Type;
  (** the calls of [_save_with_sitk] on SimpleITK, up to [sitk.WriteImage] *)
  WriteImage : sitk_image -> string -> bool -> World -> bool * World;
  (** [nib.Nifti1Image] and [nib.save] *)
  nib_save : nifti_image -> string -> World -> bool * World
}.

(** A call of one of the two helpers, [_save_with_sitk] and
    [_save_with_nibabel]: the file name it was given and whether it
    returned. *)
Inductive call : Type :=
| BySitk (filepath : string) (returned : bool)
| ByNibabel (filepath : string) (returned : bool).

Definition call_path (c : call) : string :=
  match c with BySitk f _ => f | ByNibabel f _ => f end.

Definition call_returned (c : call) : bool :=
  match c with BySitk _ r => r | ByNibabel _ r => r end.

(** [mask.transpose(2, 1, 0)] *)
Definition transpose (a : ndarray) : ndarray :=
  let '(d, h, w) := shape a in
  mkArray (w, h, d)
    (flat_map (fun x =>
       flat_map (fun y => map (fun z => get3 a z y x) (seq 0 d)) (seq 0 h))
       (seq 0 w)).

(** The affine matrix of [_save_with_nibabel]: [np.eye(4)] with
    [affine[i, j] = direction[i, j] * spacing[j]] and the origin in the
    last column. *)
Definition make_affine (spacing origin : Q * Q * Q) (direction : list Q)
  : list (list Q) :=
  let '(s0, s1, s2) := spacing in
  let '(o0, o1, o2) := origin in
  let dir (i j : nat) := nth (3 * i + j)%nat direction 0%Q in
  let r0 := 0%nat in
  let r1 := 1%nat in
  let r2 := 2%nat in
  [[dir r0 r0 * s0; dir r0 r1 * s1; dir r0 r2 * s2; o0];
   [dir r1 r0 * s0; dir r1 r1 * s1; dir r1 r2 * s2; o1];
   [dir r2 r0 * s0; dir r2 r1 * s1; dir r2 r2 * s2; o2];
   [0; 0; 0; 1]]%Q.

Section WithStorage.
Context {storage : Storage}.

Definition _save_with_sitk (mask : ndarray) (filepath : string)
           (spacing origin : Q * Q * Q) (direction : list Q) (use_compression : bool)
           (world : World) : bool * World :=
  WriteImage (mkSitkImage (astype_uint8 mask) spacing origin direction)
             filepath use_compression world.

(** [np.array(direction).reshape(3, 3)] raises unless there are nine
    values. *)
Definition _save_with_nibabel (mask : ndarray) (filepath : string)
           (spacing origin : Q * Q * Q) (direction : list Q) (world : World)
  : bool * World :=
  if (length direction =? 9)%nat then
    nib_save (mkNifti (astype_uint8 (transpose mask))
                      (make_affine spacing origin direction))
             filepath world
  else (false, world).

(** [save_mask_nifti]: the value returned, the writer calls made, and the
    file system afterwards. *)
Definition save_mask_nifti (mask : ndarray) (filepath : string)
           (spacing origin : Q * Q * Q) (direction : list Q)
           (use_compression prefer_sitk : bool) (world : World)
  : bool * list call * World :=
  let filepath :=
    if negb (endswith filepath ".nii" || endswith filepath ".nii.gz")
    then filepath ++ (if use_compression then ".nii.gz" else ".nii")
    else filepath in
  let '(returned, first, world) :=
    if prefer_sitk then
      let '(r, w) := _save_with_sitk mask filepath spacing origin direction
                                      use_compression world in
      (r, BySitk filepath r, w)
    else
      let '(r, w) := _save_with_nibabel mask filepath spacing origin direction world in
      (r, ByNibabel filepath r, w) in
  if returned then (true, [first], world)
  else
    let '(r, w) := _save_with_nibabel mask filepath spacing origin direction world in
    (r, [first; ByNibabel filepath r], w).

End WithStorage.
End Saving.

(* ================================================================= *)
(** ** [roi_selector.py]: [ROISelector] *)

Module RoiDrawing.
Import Builtins.
Local Open Scope string_scope.
Local Open Scope list_scope.

(** A [matplotlib.patches.Rectangle] with the properties the selector
    sets. *)
Record Rectangle : Type := mkRectangle {
  xy : Q * Q;
  width : Q;
  height : Q;
  linewidth : Q;
  linestyle : string;
  alpha : Q
}.

(** A mouse event: whether [event.inaxes] is the selector's axes, and the
    data coordinates, [None] outside any axes. *)
Record MouseEvent : Type := mkEvent {
  inaxes : bool;
  xdata : option Q;
  ydata : option Q
}.

Record ROISelector : Type := mkSelector {
  rect : option Rectangle;
  x0 : option Q;
  y0 : option Q;
  press : option (option Q * option Q);
  cidpress : option Z;
  cidrelease : option Z;
  cidmotion : option Z
}.

(** What a handler does to the figure and to its client. *)
Inductive effect : Type :=
| Removed (r : Rectangle)                 (* [rect.remove()] *)
| Added (r : Rectangle)                   (* [ax.add_patch(rect)] *)
| DrawIdle                                (* [canvas.draw_idle()] *)
| Warned                                  (* the [print] of the warning *)
| Called (roi : Z * Z * Z * Z)            (* [self.callback(roi)] *)
| Disconnected (cid : Z).                 (* [canvas.mpl_disconnect(cid)] *)

Inductive outcome : Type :=
| Returned
| TypeError.          (* an operation between [None] and a float *)

Definition set_rect (self : ROISelector) (r : option Rectangle) : ROISelector :=
  mkSelector r (x0 self) (y0 self) (press self)
             (cidpress self) (cidrelease self) (cidmotion self).

Definition set_press (self : ROISelector) (p : option (option Q * option Q))
  : ROISelector :=
  mkSelector (rect self) (x0 self) (y0 self) p
             (cidpress self) (cidrelease self) (cidmotion self).

(** [connect], with the ids [canvas.mpl_connect] returns. *)
Definition connect (self : ROISelector) (press_id release_id motion_id : Z)
  : ROISelector :=
  mkSelector (rect self) (x0 self) (y0 self) (press self)
             (Some press_id) (Some release_id) (Some motion_id).

Definition disconnect (self : ROISelector) : list effect :=
  (match cidpress self with Some c => [Disconnected c] | None => [] end)
  ++ (match cidrelease self with Some c => [Disconnected c] | None => [] end)
  ++ (match cidmotion self with Some c => [Disconnected c] | None => [] end).

Definition on_press (self : ROISelector) (event : MouseEvent)
  : ROISelector * list effect :=
  if negb (inaxes event) then (self, [])
  else
    let self := mkSelector (rect self) (xdata event) (ydata event)
                           (Some (xdata event, ydata event))
                           (cidpress self) (cidrelease self) (cidmotion self) in
    match rect self with
    | Some r => (set_rect self None, [Removed r])
    | None => (self, [])
    end.

Definition on_motion (self : ROISelector) (event : MouseEvent)
  : outcome * ROISelector * list effect :=
  match press self with
  | None => (Returned, self, [])
  | Some _ =>
      if negb (inaxes event) then (Returned, self, [])
      else
        match xdata event, ydata event with
        | Some x1, Some y1 =>
            let removed := match rect self with Some r => [Removed r] | None => [] end in
            match x0 self, y0 self with
            | Some a, Some b =>
                let r := mkRectangle (a, b) (x1 - a)%Q (y1 - b)%Q 2%Q "--" (8 # 10)%Q in
                (Returned, set_rect self (Some r), removed ++ [Added r; DrawIdle])
            | _, _ => (TypeError, self, removed)
            end
        | _, _ => (Returned, self, [])
        end
  end.

Definition on_release (self : ROISelector) (event : MouseEvent)
  : outcome * ROISelector * list effect :=
  match press self with
  | None => (Returned, self, [])
  | Some _ =>
      match xdata event, ydata event with
      | Some x1, Some y1 =>
          let self := set_press self None in
          match x0 self, y0 self with
          | Some a, Some b =>
              let x_min := int_of (fmin a x1) in
              let x_max := int_of (fmax a x1) in
              let y_min := int_of (fmin b y1) in
              let y_max := int_of (fmax b y1) in
              if (x_max - x_min <? 5)%Z || (y_max - y_min <? 5)%Z then
                match rect self with
                | Some r => (Returned, set_rect self None, [Warned; Removed r; DrawIdle])
                | None => (Returned, self, [Warned; DrawIdle])
                end
              else
                let '(self, styled) :=
                  match rect self with
                  | Some r =>
                      (set_rect self
                         (Some (mkRectangle (xy r) (width r) (height r) (25 # 10)%Q "-" 1%Q)),
                       [DrawIdle])
                  | None => (self, [])
                  end in
                (Returned, self,
                 styled ++ [Called (x_min, x_max, y_min, y_max)] ++ disconnect self)
          | _, _ => (TypeError, self, [])
          end
      | _, _ => (Returned, set_press self None, [])
      end
  end.

Definition cancel (self : ROISelector) : ROISelector * list effect :=
  match rect self with
  | Some r => (set_rect self None, [Removed r] ++ disconnect self ++ [DrawIdle])
  | None => (self, disconnect self ++ [DrawIdle])
  end.

(** The selector after a run of [motion_notify_event]s. *)
Definition moved (self : ROISelector) (moves : list MouseEvent) : ROISelector :=
  fold_left (fun s event => snd (fst (on_motion s event))) moves self.

(** The ROIs the client was called with. *)
Definition reported (es : list effect) : list (Z * Z * Z * Z) :=
  flat_map (fun e => match e with Called roi => [roi] | _ => [] end) es.

End RoiDrawing.

(* ################################################################# *)
(** * Part II: properties *)

(* ================================================================= *)
(** ** ROI combination *)

Section RoiFacts.
Import RoiSelector.

(** When the union of the two rectangles meets the volume on every axis,
    the combined box lies inside the volume. *)
Lemma combined_roi_in_volume_when_overlapping
      (z1 y10 y11 x10 x11 z2 y20 y21 x20 x21 depth height width : Z) :
  0 < depth -> 0 < height -> 0 < width ->
  Z.min z1 z2 <= depth - 1 -> 0 <= Z.max z1 z2 ->
  Z.min y10 y20 <= Z.max y11 y21 ->
  Z.min y10 y20 <= height - 1 -> 0 <= Z.max y11 y21 ->
  Z.min x10 x20 <= Z.max x11 x21 ->
  Z.min x10 x20 <= width - 1 -> 0 <= Z.max x11 x21 ->
  exists box,
    get_combined_roi_coords
      (set_roi2 (set_roi1 init z1 x10 x11 y10 y11) z2 x20 x21 y20 y21)
      (depth, height, width) = inr box
    /\ in_volume (depth, height, width) box.
Proof.
  intros. eexists. split; [reflexivity|].
  unfold in_volume. lia.
Qed.

(** C1.  The combined box is claimed to satisfy [0 <= x0 <= x1 <= width-1]
    (and alike for z and y) for all stored rectangles, also those fully
    outside the volume.  [get_combined_roi_coords] clamps each lower end
    only from below and each upper end only from above: with both
    rectangles to the right of a volume of width 100 (x in 120..140 and
    150..170) it returns [x0 = 120] and [x1 = 99], and with both slice
    indices negative it returns [z1 = -2]. *)
Theorem combined_roi_outside_volume :
  get_combined_roi_coords
    (set_roi2 (set_roi1 init 10 120 140 30 60) 20 150 170 30 60)
    (50, 100, 100) = inr (10, 20, 30, 60, 120, 99)
  /\ ~ in_volume (50, 100, 100) (10, 20, 30, 60, 120, 99)
  /\ get_combined_roi_coords
       (set_roi2 (set_roi1 init (-3) 10 40 30 60) (-2) 20 50 30 60)
       (50, 100, 100) = inr (0, -2, 30, 60, 10, 50)
  /\ ~ in_volume (50, 100, 100) (0, -2, 30, 60, 10, 50).
Proof.
  repeat split; try reflexivity; unfold in_volume; lia.
Qed.

End RoiFacts.

(* ================================================================= *)
(** ** The UI state manager *)

Section StateFacts.
Import StateManager.

Lemma UIState_eqb_eq (a b : UIState) : UIState_eqb a b = true <-> a = b.
Proof. destruct a, b; simpl; split; congruence. Qed.

Lemma apply_state_current (m : UIStateManager) :
  _current_state (_apply_state m) = _current_state m.
Proof.
  unfold _apply_state.
  destruct (_current_state m) eqn:E; try exact E; reflexivity.
Qed.

(** After [transition_to s] the current state is [s]. *)
Lemma transition_to_current (m : UIStateManager) (s : UIState) :
  _current_state (transition_to m s) = s.
Proof.
  unfold transition_to.
  destruct (UIState_eqb s (_current_state m)) eqn:E.
  - apply UIState_eqb_eq in E. congruence.
  - match goal with |- context [if ?c then _ else _] => destruct c end;
      simpl; try rewrite apply_state_current; reflexivity.
Qed.

(** C6, as stated: the eight listed states would be all there are.
    [UIState.ROI2_DEFINED] is a ninth member. *)
Lemma spec_states_not_closed : ~ (forall s : UIState, In s spec_states).
Proof.
  intro H. specialize (H ROI2_DEFINED). simpl in H.
  repeat (destruct H as [H|H]; [discriminate H|]). exact H.
Qed.

(** C6, amended.  [UIState] is the closed set of nine members: the eight
    listed states and [ROI2_DEFINED], each with its own value; entering
    [ROI2_DEFINED] configures no widget, since [_apply_state] has no
    branch for it. *)
Theorem UIState_members_closed :
  (forall s : UIState, In s members)
  /\ NoDup members
  /\ length members = 9%nat
  /\ NoDup (map value members)
  /\ (forall s : UIState, In s members <-> In s spec_states \/ s = ROI2_DEFINED)
  /\ ~ In ROI2_DEFINED spec_states
  /\ (forall m : UIStateManager,
        _current_state m = ROI2_DEFINED -> _apply_state m = m).
Proof.
  split; [intro s; destruct s; simpl; tauto|].
  split; [repeat constructor; simpl; intuition discriminate|].
  split; [reflexivity|].
  split; [repeat constructor; simpl; intuition discriminate|].
  split; [intro s; destruct s; simpl; intuition discriminate|].
  split; [simpl; intuition discriminate|].
  intros m H. unfold _apply_state. rewrite H. reflexivity.
Qed.

(** C7.  The capability predicates depend on the current state only:
    [can_load_dicom] holds except in [SEGMENTING], [REFINING], [SAVING];
    [can_segment] holds exactly in [ROI_DEFINED] and [MASK_READY];
    [can_refine] and [can_save] hold exactly in [MASK_READY].  A fresh
    manager cannot segment; after [transition_to ROI_DEFINED] it can; after
    [transition_to SEGMENTING] loading is refused. *)
Theorem capabilities_by_state :
  (forall self : UIStateManager,
      (can_load_dicom self = true <->
       ~ In (_current_state self) [SEGMENTING; REFINING; SAVING])
      /\ (can_segment self = true <->
          _current_state self = ROI_DEFINED \/ _current_state self = MASK_READY)
      /\ (can_refine self = true <-> _current_state self = MASK_READY)
      /\ (can_save self = true <-> _current_state self = MASK_READY))
  /\ (forall self other : UIStateManager,
         _current_state self = _current_state other ->
         can_load_dicom self = can_load_dicom other
         /\ can_segment self = can_segment other
         /\ can_refine self = can_refine other
         /\ can_save self = can_save other)
  /\ can_segment init = false
  /\ (forall self : UIStateManager,
         _current_state self = INITIAL -> can_segment self = false)
  /\ (forall self : UIStateManager,
         can_segment (transition_to self ROI_DEFINED) = true)
  /\ (forall self : UIStateManager,
         can_load_dicom (transition_to self SEGMENTING) = false)
  /\ can_load_dicom (transition_to (transition_to init ROI_DEFINED) SEGMENTING) = false.
Proof.
  split.
  { intro self. unfold can_load_dicom, can_segment, can_refine, can_save, state_in.
    destruct (_current_state self); simpl;
      repeat split; intros; try congruence; try tauto;
      try (intuition discriminate). }
  split.
  { intros self other E.
    unfold can_load_dicom, can_segment, can_refine, can_save.
    rewrite E. repeat split. }
  split; [reflexivity|].
  split.
  { intros self E. unfold can_segment. rewrite E. reflexivity. }
  split.
  { intro self. unfold can_segment. rewrite transition_to_current. reflexivity. }
  split.
  { intro self. unfold can_load_dicom. rewrite transition_to_current. reflexivity. }
  reflexivity.
Qed.

End StateFacts.

(* ================================================================= *)
(** ** Connected components: the labelling is right *)

Section GraphFacts.
Import Graph.
Context {V : Type} (eqb : V -> V -> bool) (adj : V -> V -> bool).
Hypothesis eqb_eq : forall a b, eqb a b = true <-> a = b.
Hypothesis adj_sym : forall a b, adj a b = adj b a.

Lemma mem_In (v : V) (l : list V) : mem eqb v l = true <-> In v l.
Proof.
  unfold mem. rewrite existsb_exists. split.
  - intros [x [Hx E]]. apply eqb_eq in E. subst. exact Hx.
  - intro H. exists v. split; [exact H|]. apply eqb_eq. reflexivity.
Qed.

Lemma mem_false (v : V) (l : list V) : mem eqb v l = false <-> ~ In v l.
Proof.
  rewrite <- mem_In. destruct (mem eqb v l); split; congruence.
Qed.

Lemma In_dec_mem (v : V) (l : list V) : In v l \/ ~ In v l.
Proof.
  destruct (mem eqb v l) eqn:E.
  - left. apply mem_In. exact E.
  - right. apply mem_false. exact E.
Qed.

(** *** Connectivity is an equivalence on the foreground *)

Lemma conn_in (fg : list V) (u v : V) : conn adj fg u v -> In u fg /\ In v fg.
Proof. induction 1; tauto. Qed.

Lemma conn_trans (fg : list V) (u v w : V) :
  conn adj fg u v -> conn adj fg v w -> conn adj fg u w.
Proof.
  intros Huv Hvw. induction Hvw as [x Hx | x y z Hxy IH Hz Ha].
  - exact Huv.
  - apply conn_step with y; [apply IH; exact Huv | exact Hz | exact Ha].
Qed.

Lemma conn_sym (fg : list V) (u v : V) : conn adj fg u v -> conn adj fg v u.
Proof.
  induction 1 as [v Hv | u v w Huv IH Hw Ha].
  - constructor. exact Hv.
  - apply conn_trans with v; [|exact IH].
    apply conn_step with w.
    + constructor. exact Hw.
    + apply (conn_in _ _ _ Huv).
    + rewrite adj_sym. exact Ha.
Qed.

Lemma conn_incl (fg fg' : list V) (u v : V) :
  incl fg fg' -> conn adj fg u v -> conn adj fg' u v.
Proof.
  intros Hi H. induction H as [x Hx | x y z Hxy IH Hz Ha].
  - constructor. apply Hi. exact Hx.
  - apply conn_step with y; [exact IH | apply Hi; exact Hz | exact Ha].
Qed.

(** *** Breadth-first search computes the component *)

Lemma existsb_adj_false (u a : V) (frontier : list V) :
  existsb (adj u) frontier = false -> In a frontier -> adj u a = false.
Proof.
  intros H Ha. destruct (adj u a) eqn:E; [|reflexivity].
  assert (existsb (adj u) frontier = true)
    by (apply existsb_exists; exists a; auto).
  congruence.
Qed.

Lemma bfs_spec (fg : list V) (v : V) :
  forall fuel frontier rest acc,
    (forall w, In w acc -> conn adj fg v w) ->
    (forall u, In u fg -> In u acc \/ In u rest) ->
    (forall a u, In a acc -> ~ In a frontier -> In u rest -> adj u a = false) ->
    incl frontier acc ->
    incl rest fg ->
    (length rest < fuel)%nat ->
    (forall w, In w (bfs adj fuel frontier rest acc) -> conn adj fg v w)
    /\ incl acc (bfs adj fuel frontier rest acc)
    /\ (forall a w, In a (bfs adj fuel frontier rest acc) ->
                    In w fg -> adj a w = true ->
                    In w (bfs adj fuel frontier rest acc)).
Proof.
  induction fuel as [|k IH]; intros frontier rest acc Ha Hb Hc Hd He Hf; [lia|].
  simpl. rewrite partition_as_filter.
  destruct (filter (fun u => existsb (adj u) frontier) rest) as [|n new] eqn:En.
  - split; [exact Ha|]. split; [apply incl_refl|].
    intros a w Hacc Hw Hadj.
    destruct (Hb w Hw) as [Hin|Hrest]; [exact Hin|].
    exfalso.
    assert (Hex : existsb (adj w) frontier = false).
    { destruct (existsb (adj w) frontier) eqn:E; [|reflexivity].
      assert (In w (filter (fun u => existsb (adj u) frontier) rest))
        by (apply filter_In; auto).
      rewrite En in H. destruct H. }
    assert (adj w a = false).
    { destruct (In_dec_mem a frontier) as [Hfr|Hfr].
      - eapply existsb_adj_false; eauto.
      - apply Hc; auto. }
    rewrite adj_sym in Hadj. congruence.
  - rewrite <- En.
    set (new' := filter (fun u => existsb (adj u) frontier) rest) in *.
    set (rest' := filter (fun x => negb (existsb (adj x) frontier)) rest).
    assert (Hnew : forall w, In w new' -> In w rest /\ existsb (adj w) frontier = true)
      by (intros w Hw; apply filter_In in Hw; exact Hw).
    assert (Hrest' : forall w, In w rest' -> In w rest /\ existsb (adj w) frontier = false).
    { intros w Hw. apply filter_In in Hw. destruct Hw as [H1 H2].
      split; [exact H1|]. destruct (existsb (adj w) frontier); [discriminate|reflexivity]. }
    destruct (IH new' rest' (acc ++ new')) as [S1 [S2 S3]].
    + intros w Hw. apply in_app_or in Hw. destruct Hw as [Hw|Hw]; [auto|].
      destruct (Hnew w Hw) as [Hr Hex].
      apply existsb_exists in Hex. destruct Hex as [f [Hf1 Hf2]].
      apply conn_step with f; auto.
      rewrite adj_sym. exact Hf2.
    + intros u Hu. destruct (Hb u Hu) as [H|H].
      * left. apply in_or_app. auto.
      * destruct (existsb (adj u) frontier) eqn:E.
        -- left. apply in_or_app. right. apply filter_In. auto.
        -- right. apply filter_In. rewrite E. auto.
    + intros a u Hacc Hnf Hu.
      destruct (Hrest' u Hu) as [Hur Hex].
      apply in_app_or in Hacc. destruct Hacc as [Hacc|Hacc]; [|contradiction].
      destruct (In_dec_mem a frontier) as [Hfr|Hfr].
      * eapply existsb_adj_false; eauto.
      * apply Hc; auto.
    + apply incl_appr, incl_refl.
    + intros w Hw. apply He. apply (Hrest' w Hw).
    + assert (length rest = length new' + length rest')%nat.
      { unfold new', rest'. clear. induction rest as [|x r IHr]; simpl; [reflexivity|].
        destruct (existsb (adj x) frontier); simpl; lia. }
      assert (0 < length new')%nat by (rewrite En; simpl; lia).
      lia.
    + split; [exact S1|]. split; [|exact S3].
      intros w Hw. apply S2. apply in_or_app. auto.
Qed.

Lemma component_spec (fg : list V) (v w : V) :
  In v fg -> (In w (component eqb adj fg v) <-> conn adj fg v w).
Proof.
  intro Hv. unfold component.
  destruct (bfs_spec fg v (S (length fg)) [v]
              (filter (fun u => negb (eqb u v)) fg) [v]) as [S1 [S2 S3]].
  - intros x [<-|[]]. constructor. exact Hv.
  - intros u Hu. destruct (eqb u v) eqn:E.
    + left. apply eqb_eq in E. subst. left. reflexivity.
    + right. apply filter_In. rewrite E. auto.
  - intros a u [<-|[]] Hn. exfalso. apply Hn. left. reflexivity.
  - apply incl_refl.
  - intros x Hx. apply filter_In in Hx. tauto.
  - pose proof (filter_length_le (fun u => negb (eqb u v)) fg). lia.
  - split; [apply S1|].
    intro H. induction H as [x Hx | x y z Hxy IH Hz Ha].
    + apply S2. left. reflexivity.
    + apply S3 with y; [apply IH; assumption | exact Hz | exact Ha].
Qed.

(** *** Labels *)

Lemma label_of_zero (cs : list (list V)) (v : V) :
  label_of eqb cs v = O <-> existsb (mem eqb v) cs = false.
Proof.
  induction cs as [|c cs IH]; simpl; [tauto|].
  destruct (mem eqb v c); simpl.
  - split; discriminate.
  - destruct (label_of eqb cs v); simpl in *.
    + tauto.
    + split; [discriminate|]. intro H. apply IH in H. discriminate.
Qed.

(** A positive label [S k] names the first component holding the vertex. *)
Lemma label_of_first (cs : list (list V)) (v : V) (k : nat) :
  label_of eqb cs v = S k <->
  (exists c, nth_error cs k = Some c /\ mem eqb v c = true)
  /\ (forall j c, (j < k)%nat -> nth_error cs j = Some c -> mem eqb v c = false).
Proof.
  revert k. induction cs as [|c cs IH]; intro k; simpl.
  - split; [discriminate|]. intros [[c [H _]] _]. destruct k; discriminate.
  - destruct (mem eqb v c) eqn:E.
    + split.
      * intro H. injection H as <-. split.
        -- exists c. auto.
        -- intros j c' Hj. lia.
      * intros [_ H]. destruct k; [reflexivity|].
        specialize (H O c ltac:(lia) eq_refl). congruence.
    + destruct k as [|k].
      * split.
        -- destruct (label_of eqb cs v); discriminate.
        -- intros [[c' [H1 H2]] _]. simpl in H1. injection H1 as <-. congruence.
      * specialize (IH k).
        destruct (label_of eqb cs v) as [|n].
        -- split; [discriminate|].
           intros [[c' [H1 H2]] H3]. simpl in H1.
           assert (O = S k); [|discriminate].
           apply IH. split; [eauto|].
           intros j c'' Hj Hn. apply (H3 (S j) c''); [lia|exact Hn].
        -- split.
           ++ intro H. injection H as ->.
              destruct IH as [IH _]. destruct (IH eq_refl) as [[c' [H1 H2]] H3].
              split; [exists c'; auto|].
              intros [|j] c'' Hj Hn; simpl in Hn.
              ** injection Hn as <-. exact E.
              ** apply (H3 j c''); [lia|exact Hn].
           ++ intros [[c' [H1 H2]] H3]. simpl in H1.
              f_equal. apply IH. split; [eauto|].
              intros j c'' Hj Hn. apply (H3 (S j) c''); [lia|exact Hn].
Qed.

Lemma label_of_le (cs : list (list V)) (v : V) :
  (label_of eqb cs v <= length cs)%nat.
Proof.
  destruct (label_of eqb cs v) as [|k] eqn:E; [lia|].
  apply label_of_first in E. destruct E as [[c [H _]] _].
  assert (k < length cs)%nat by (apply nth_error_Some; congruence). lia.
Qed.

(** Membership in some component gives a label no later than it. *)
Lemma label_of_before (cs : list (list V)) (v : V) (k : nat) (c : list V) :
  nth_error cs k = Some c -> mem eqb v c = true ->
  exists j, label_of eqb cs v = S j /\ (j <= k)%nat.
Proof.
  revert k. induction cs as [|c0 cs IH]; intros k Hn Hm.
  - destruct k; discriminate.
  - simpl. destruct (mem eqb v c0) eqn:E.
    + exists O. split; [reflexivity|lia].
    + destruct k as [|k]; simpl in Hn.
      * injection Hn as <-. congruence.
      * destruct (IH k Hn Hm) as [j [Hj1 Hj2]]. rewrite Hj1.
        exists (S j). split; [reflexivity|lia].
Qed.

Lemma label_of_app (cs cs' : list (list V)) (v : V) :
  label_of eqb (cs ++ cs') v =
  match label_of eqb cs v with
  | O => match label_of eqb cs' v with O => O | S k => S (length cs + k) end
  | S k => S k
  end.
Proof.
  induction cs as [|c cs IH]; simpl.
  - destruct (label_of eqb cs' v); reflexivity.
  - destruct (mem eqb v c); [reflexivity|].
    rewrite IH. destruct (label_of eqb cs v).
    + destruct (label_of eqb cs' v); reflexivity.
    + reflexivity.
Qed.

Lemma label_loop_spec (fg : list V) :
  forall todo acc,
    incl todo fg ->
    seeded eqb adj fg acc ->
    seeded eqb adj fg (label_loop eqb adj fg todo acc)
    /\ (forall v, In v todo -> label_of eqb (label_loop eqb adj fg todo acc) v <> O)
    /\ (forall v, label_of eqb acc v <> O ->
                  label_of eqb (label_loop eqb adj fg todo acc) v = label_of eqb acc v).
Proof.
  induction todo as [|v todo IH]; intros acc Hi Hs; simpl.
  - split; [exact Hs|]. split; [intros v []|reflexivity].
  - assert (Hv : In v fg) by (apply Hi; left; reflexivity).
    assert (Hi' : incl todo fg) by (intros x Hx; apply Hi; right; exact Hx).
    destruct (existsb (mem eqb v) acc) eqn:E.
    + destruct (IH acc Hi' Hs) as [I1 [I2 I3]].
      split; [exact I1|]. split; [|exact I3].
      intros x [<-|Hx]; [|auto].
      assert (label_of eqb acc v <> O).
      { intro H0. apply label_of_zero in H0. congruence. }
      rewrite I3; auto.
    + assert (Hz : label_of eqb acc v = O) by (apply label_of_zero; exact E).
      assert (Hself : mem eqb v (component eqb adj fg v) = true).
      { apply mem_In. apply component_spec; [exact Hv|]. constructor. exact Hv. }
      assert (Hnew : label_of eqb (acc ++ [component eqb adj fg v]) v = S (length acc)).
      { rewrite label_of_app, Hz. simpl. rewrite Hself. f_equal. lia. }
      assert (Hs' : seeded eqb adj fg (acc ++ [component eqb adj fg v])).
      { intros k c Hn.
        destruct (Nat.lt_ge_cases k (length acc)) as [Hk|Hk].
        - rewrite nth_error_app1 in Hn by exact Hk.
          destruct (Hs k c Hn) as [s [Hs1 [Hs2 Hs3]]].
          exists s. split; [exact Hs1|]. split; [exact Hs2|].
          rewrite label_of_app, Hs3. reflexivity.
        - rewrite nth_error_app2 in Hn by exact Hk.
          destruct (k - length acc)%nat as [|d] eqn:Ed; simpl in Hn.
          + injection Hn as <-. exists v. split; [exact Hv|]. split; [reflexivity|].
            rewrite Hnew. f_equal. lia.
          + destruct d; discriminate. }
      destruct (IH (acc ++ [component eqb adj fg v]) Hi' Hs') as [I1 [I2 I3]].
      split; [exact I1|]. split.
      * intros x [<-|Hx]; [|auto].
        rewrite I3; rewrite Hnew; discriminate.
      * intros x Hx. rewrite I3.
        -- rewrite label_of_app. destruct (label_of eqb acc x); [contradiction|reflexivity].
        -- rewrite label_of_app. destruct (label_of eqb acc x); [contradiction|discriminate].
Qed.

Lemma components_seeded (fg : list V) : seeded eqb adj fg (components eqb adj fg).
Proof.
  apply (label_loop_spec fg fg []); [apply incl_refl|].
  intros k c H. destruct k; discriminate.
Qed.

(** Foreground vertices, and only they, get a positive label. *)
Lemma label_positive (fg : list V) (v : V) :
  label_of eqb (components eqb adj fg) v <> O <-> In v fg.
Proof.
  split.
  - intro H. destruct (label_of eqb (components eqb adj fg) v) as [|k] eqn:E;
      [contradiction|].
    apply label_of_first in E. destruct E as [[c [Hn Hm]] _].
    destruct (components_seeded fg k c Hn) as [s [Hs [-> _]]].
    apply mem_In in Hm. apply component_spec in Hm; [|exact Hs].
    apply (conn_in _ _ _ Hm).
  - intro Hv.
    apply (label_loop_spec fg fg []); [apply incl_refl| |exact Hv].
    intros k c H. destruct k; discriminate.
Qed.

(** Every label from [1] to the number of components is in use. *)
Lemma label_used (fg : list V) (k : nat) :
  (k < length (components eqb adj fg))%nat ->
  exists s, In s fg /\ label_of eqb (components eqb adj fg) s = S k.
Proof.
  intro Hk.
  destruct (nth_error (components eqb adj fg) k) as [c|] eqn:E.
  - destruct (components_seeded fg k c E) as [s [H1 [_ H2]]]. eauto.
  - apply nth_error_None in E. lia.
Qed.

(** Two foreground vertices share a label exactly when they are
    connected. *)
Lemma label_eq_conn (fg : list V) (v w : V) :
  In v fg -> In w fg ->
  (label_of eqb (components eqb adj fg) v = label_of eqb (components eqb adj fg) w
   <-> conn adj fg v w).
Proof.
  intros Hv Hw.
  set (cs := components eqb adj fg).
  assert (Hcls : forall x k, label_of eqb cs x = S k ->
             exists s, In s fg /\ conn adj fg s x
                       /\ nth_error cs k = Some (component eqb adj fg s)).
  { intros x k Hx. apply label_of_first in Hx. destruct Hx as [[c [Hn Hm]] _].
    destruct (components_seeded fg k c Hn) as [s [Hs [-> _]]].
    exists s. split; [exact Hs|]. split; [|exact Hn].
    apply component_spec; [exact Hs|]. apply mem_In. exact Hm. }
  assert (Hle : forall x y k, conn adj fg x y -> label_of eqb cs x = S k ->
             exists j, label_of eqb cs y = S j /\ (j <= k)%nat).
  { intros x y k Hxy Hx.
    destruct (Hcls x k Hx) as [s [Hs [Hsx Hn]]].
    apply (label_of_before cs y k _ Hn).
    apply mem_In. apply component_spec; [exact Hs|].
    apply conn_trans with x; assumption. }
  split.
  - intro E.
    destruct (label_of eqb cs v) as [|k] eqn:Ev.
    + exfalso. apply (proj2 (label_positive fg v) Hv). exact Ev.
    + destruct (Hcls v k Ev) as [s [Hs [Hsv Hn]]].
      symmetry in E. destruct (Hcls w k E) as [s' [Hs' [Hsw Hn']]].
      rewrite Hn in Hn'. injection Hn' as Ec.
      apply conn_trans with s; [apply conn_sym; exact Hsv|].
      apply component_spec; [exact Hs|]. rewrite Ec.
      apply component_spec; [exact Hs'|]. exact Hsw.
  - intro Hc.
    destruct (label_of eqb cs v) as [|k] eqn:Ev.
    + exfalso. apply (proj2 (label_positive fg v) Hv). exact Ev.
    + destruct (Hle v w k Hc Ev) as [j [Hj1 Hj2]].
      destruct (Hle w v j (conn_sym _ _ _ Hc) Hj1) as [k' [Hk1 Hk2]].
      fold cs in Ev. rewrite Ev in Hk1. injection Hk1 as <-.
      rewrite Hj1. f_equal. lia.
Qed.

End GraphFacts.

(* ================================================================= *)
(** ** Arrays: enumeration, sums and labels *)

(** Case analysis on every integer comparison in the goal. *)
Ltac zbool :=
  repeat match goal with
         | |- context [?a <=? ?b] => destruct (Z.leb_spec a b)
         | |- context [?a <? ?b] => destruct (Z.ltb_spec a b)
         | |- context [?a =? ?b] => destruct (Z.eqb_spec a b)
         end;
  simpl; try reflexivity; try lia.

Section ArrayFacts.
Import Numpy.

Lemma enumerate_length {A : Type} (l : list A) (s : Z) :
  length (enumerate s l) = length l.
Proof. revert s. induction l; intro s; simpl; [|rewrite IHl]; reflexivity. Qed.

Lemma enumerate_snd {A : Type} (l : list A) (s : Z) :
  map snd (enumerate s l) = l.
Proof. revert s. induction l; intro s; simpl; [|rewrite IHl]; reflexivity. Qed.

Lemma enumerate_bounds {A : Type} (l : list A) (s i : Z) (x : A) :
  In (i, x) (enumerate s l) -> s <= i < s + Z.of_nat (length l).
Proof.
  revert s. induction l as [|y l IH]; intros s H; simpl in *; [destruct H|].
  destruct H as [H|H].
  - injection H as <- <-. lia.
  - apply IH in H. lia.
Qed.

Lemma enumerate_functional {A : Type} (l : list A) (s i : Z) (x y : A) :
  In (i, x) (enumerate s l) -> In (i, y) (enumerate s l) -> x = y.
Proof.
  revert s. induction l as [|z l IH]; intros s Hx Hy; simpl in *; [destruct Hx|].
  destruct Hx as [Hx|Hx], Hy as [Hy|Hy].
  - congruence.
  - injection Hx as <- <-. apply enumerate_bounds in Hy. lia.
  - injection Hy as <- <-. apply enumerate_bounds in Hx. lia.
  - eapply IH; eauto.
Qed.

Lemma enumerate_map {A B : Type} (f : A -> B) (l : list A) (s : Z) :
  enumerate s (map f l) = map (fun iv => (fst iv, f (snd iv))) (enumerate s l).
Proof. revert s. induction l; intro s; simpl; [|rewrite IHl]; reflexivity. Qed.

Lemma enumerate_twice {A : Type} (l : list A) (s : Z) :
  enumerate s (enumerate s l) = map (fun iv => (fst iv, iv)) (enumerate s l).
Proof. revert s. induction l; intro s; simpl; [|rewrite IHl]; reflexivity. Qed.

(** Enumerating an array computed position by position. *)
Lemma enumerate_recompute {A B : Type} (h : Z * A -> B) (l : list A) (s : Z) :
  enumerate s (map h (enumerate s l)) = map (fun iv => (fst iv, h iv)) (enumerate s l).
Proof.
  rewrite enumerate_map, enumerate_twice, map_map. reflexivity.
Qed.

Lemma enumerate_range {B : Type} (f : Z -> B) (a b : Z) :
  enumerate a (map f (range a b)) = map (fun i => (i, f i)) (range a b).
Proof.
  unfold range.
  assert (G : forall m j s, s = a + Z.of_nat j ->
            enumerate s (map f (map (fun k => a + Z.of_nat k) (seq j m)))
            = map (fun i => (i, f i)) (map (fun k => a + Z.of_nat k) (seq j m))).
  { induction m as [|m IH]; intros j s E; simpl; [reflexivity|].
    rewrite (IH (S j) (s + 1)) by lia. subst s. reflexivity. }
  apply G. simpl. lia.
Qed.

Lemma In_range (a b i : Z) : In i (range a b) <-> a <= i < b.
Proof.
  unfold range. rewrite in_map_iff. split.
  - intros [k [E Hk]]. apply in_seq in Hk. lia.
  - intro H. exists (Z.to_nat (i - a)). split; [lia|]. apply in_seq. lia.
Qed.

Lemma range_length (a b : Z) : length (range a b) = Z.to_nat (b - a).
Proof. unfold range. rewrite length_map, length_seq. reflexivity. Qed.

(** *** Sums *)

Lemma zsum_ext {A : Type} (f g : A -> Z) (l : list A) :
  (forall x, In x l -> f x = g x) -> zsum (map f l) = zsum (map g l).
Proof.
  induction l as [|x l IH]; intro H; simpl; [reflexivity|].
  rewrite (H x) by (left; reflexivity).
  rewrite IH; [reflexivity|]. intros y Hy. apply H. right. exact Hy.
Qed.

Lemma zsum_le {A : Type} (f g : A -> Z) (l : list A) :
  (forall x, In x l -> f x <= g x) -> zsum (map f l) <= zsum (map g l).
Proof.
  induction l as [|x l IH]; intro H; simpl; [lia|].
  pose proof (H x (or_introl eq_refl)).
  assert (zsum (map f l) <= zsum (map g l))
    by (apply IH; intros y Hy; apply H; right; exact Hy).
  lia.
Qed.

Lemma zsum_nonneg (l : list Z) : (forall x, In x l -> 0 <= x) -> 0 <= zsum l.
Proof.
  induction l as [|x l IH]; intro H; simpl; [lia|].
  pose proof (H x (or_introl eq_refl)).
  assert (0 <= zsum l) by (apply IH; intros y Hy; apply H; right; exact Hy).
  lia.
Qed.

Lemma zsum_member_le (l : list Z) (x : Z) :
  (forall y, In y l -> 0 <= y) -> In x l -> x <= zsum l.
Proof.
  induction l as [|y l IH]; intros Hn Hx; simpl in *; [destruct Hx|].
  assert (0 <= zsum l) by (apply zsum_nonneg; intros; apply Hn; auto).
  pose proof (Hn y (or_introl eq_refl)).
  destruct Hx as [->|Hx]; [lia|].
  assert (x <= zsum l) by (apply IH; auto). lia.
Qed.

(** Exchanging two finite sums. *)
Lemma zsum_swap {A B : Type} (f : A -> B -> Z) (l : list A) (l' : list B) :
  zsum (map (fun x => zsum (map (fun y => f x y) l')) l)
  = zsum (map (fun y => zsum (map (fun x => f x y) l)) l').
Proof.
  induction l as [|x l IH]; simpl.
  - induction l' as [|y l' IH']; simpl; [reflexivity|]. rewrite <- IH'. reflexivity.
  - rewrite IH. clear IH.
    induction l' as [|y l' IH']; simpl; [reflexivity|]. rewrite <- IH'. lia.
Qed.

(** Summing an indicator of [l = i] over [i] in a range picks [v] when [l]
    is in the range. *)
Lemma zsum_indicator_range (a b l v : Z) :
  zsum (map (fun i => if l =? i then v else 0) (range a b))
  = if (a <=? l) && (l <? b) then v else 0.
Proof.
  unfold range.
  assert (G : forall m j,
            zsum (map (fun i => if l =? i then v else 0)
                      (map (fun k => a + Z.of_nat k) (seq j m)))
            = if (a + Z.of_nat j <=? l) && (l <? a + Z.of_nat j + Z.of_nat m)
              then v else 0).
  { induction m as [|m IH]; intro j; simpl map; simpl zsum.
    - zbool.
    - rewrite IH. zbool. }
  rewrite G. simpl Z.of_nat. rewrite Z.add_0_r.
  destruct (Z_le_gt_dec a b).
  - replace (a + Z.of_nat (Z.to_nat (b - a))) with b by lia. reflexivity.
  - replace (Z.to_nat (b - a)) with O by lia. simpl. zbool.
Qed.

(** *** The maximum of a non-empty list *)

Lemma fold_max_spec (l : list Z) (x : Z) :
  (x <= fold_left Z.max l x)
  /\ (forall y, In y l -> y <= fold_left Z.max l x)
  /\ (fold_left Z.max l x = x \/ In (fold_left Z.max l x) l).
Proof.
  revert x. induction l as [|y l IH]; intro x; simpl.
  - split; [lia|]. split; [intros y []|left; reflexivity].
  - destruct (IH (Z.max x y)) as [H1 [H2 H3]].
    split; [lia|]. split.
    + intros z [<-|Hz]; [lia|auto].
    + destruct H3 as [H3|H3]; [|right; right; exact H3].
      rewrite H3. destruct (Z.max_spec x y) as [[_ E]|[_ E]]; rewrite E; auto.
Qed.

Lemma np_max_ge (l : list Z) (y : Z) : In y l -> y <= np_max l.
Proof.
  destruct l as [|x l]; [intros []|]. simpl.
  destruct (fold_max_spec l x) as [H1 [H2 _]].
  intros [<-|H]; auto.
Qed.

Lemma np_max_in (l : list Z) : l <> [] -> In (np_max l) l.
Proof.
  destruct l as [|x l]; [congruence|]. intros _. simpl.
  destruct (fold_max_spec l x) as [_ [_ [H|H]]]; [left; congruence|right; exact H].
Qed.

(** *** Elementwise assignment *)

Lemma map2_map_same {A B C : Type} (f : A -> B -> C) (g : A -> B) (l : list A) :
  map2 f l (map g l) = map (fun x => f x (g x)) l.
Proof. induction l; simpl; [|rewrite IHl]; reflexivity. Qed.

Lemma repeat_as_map {A B : Type} (x : B) (l : list A) :
  repeat x (length l) = map (fun _ => x) l.
Proof. induction l; simpl; [|rewrite IHl]; reflexivity. Qed.

Lemma combine_map_enumerate {B : Type} (f : Z * Z -> B) (l : list Z) (s : Z) :
  combine l (map f (enumerate s l)) = map (fun iv => (snd iv, f iv)) (enumerate s l).
Proof. revert s. induction l; intro s; simpl; [|rewrite IHl]; reflexivity. Qed.

(** *** The 6-neighbourhood *)

Lemma adj6_sym (h w i j : Z) : adj6 h w i j = adj6 h w j i.
Proof.
  unfold adj6.
  replace (Z.abs (j - i)) with (Z.abs (i - j)) by lia.
  rewrite (Z.eqb_sym (i / w)), (Z.eqb_sym (i / (h * w))). reflexivity.
Qed.

Lemma adjacency_sym (a : ndarray) (i j : Z) : adjacency a i j = adjacency a j i.
Proof.
  unfold adjacency. destruct (shape a) as [[d h] w]. apply adj6_sym.
Qed.

(** *** Foreground *)

Lemma In_foreground (a : ndarray) (i : Z) :
  In i (foreground a) <-> exists v, In (i, v) (enumerate 0 (data a)) /\ v <> 0.
Proof.
  unfold foreground. rewrite in_map_iff. split.
  - intros [[j v] [E H]]. simpl in E. subst j.
    apply filter_In in H. destruct H as [H1 H2]. simpl in H2.
    exists v. split; [exact H1|]. intro Hv. subst v. discriminate.
  - intros [v [H1 H2]]. exists (i, v). split; [reflexivity|].
    apply filter_In. split; [exact H1|]. simpl.
    destruct (v =? 0) eqn:E; [|reflexivity]. apply Z.eqb_eq in E. contradiction.
Qed.

Lemma np_sum_enumerate (a : ndarray) :
  np_sum a = zsum (map snd (enumerate 0 (data a))).
Proof. rewrite enumerate_snd. reflexivity. Qed.

End ArrayFacts.

(* ================================================================= *)
(** ** Stage 3: small-component removal *)

Section Stage3Facts.
Import Numpy Runtime Processing Stage3.
Context {ops : Ndimage}.

Lemma ndimage_label_eq (a : ndarray) :
  ndimage_label a
  = (mkArray (shape a) (map (fun iv => label_at a (fst iv)) (enumerate 0 (data a))),
     num_components a).
Proof. reflexivity. Qed.

Lemma ndimage_sum_eq (a : ndarray) (index : list Z) :
  ndimage_sum a (fst (ndimage_label a)) index = map (component_size a) index.
Proof.
  unfold ndimage_sum. rewrite ndimage_label_eq. simpl fst. simpl data.
  apply map_ext. intro i.
  rewrite (combine_map_enumerate (fun iv => label_at a (fst iv))), map_map.
  reflexivity.
Qed.

(** The sizes, as [_remove_small_components] computes them. *)
Lemma component_sizes_run (a : ndarray) :
  component_sizes a
  = let '(labeled, num_features) := ndimage_label a in
    ndimage_sum a labeled (range 1 (num_features + 1)).
Proof.
  unfold component_sizes.
  rewrite <- (ndimage_sum_eq a (range 1 (num_components a + 1))).
  rewrite ndimage_label_eq. reflexivity.
Qed.

(** The loop of [_remove_small_components], in closed form. *)
Lemma keep_large_fold (s s' : nat * nat * nat) (L : list Z) (thr : Q) :
  forall (es : list (Z * Z)) (f0 : Z -> Z) (k0 : Z),
    fold_left (keep_large (mkArray s L) thr) es (mkArray s' (map f0 L), k0)
    = (mkArray s'
         (map (fun l => if existsb (fun e => (l =? fst e) && gt (snd e) thr) es
                        then 1 else f0 l) L),
       k0 + Z.of_nat (length (filter (fun e => gt (snd e) thr) es))).
Proof.
  induction es as [|[i size] es IH]; intros f0 k0.
  - simpl. rewrite Z.add_0_r. reflexivity.
  - cbn [fold_left].
    replace (keep_large (mkArray s L) thr (mkArray s' (map f0 L), k0) (i, size))
      with (if gt size thr
            then (assign_where (mkArray s L) i (mkArray s' (map f0 L)), k0 + 1)
            else (mkArray s' (map f0 L), k0)) by reflexivity.
    cbn [existsb filter fst snd].
    destruct (gt size thr) eqn:G.
    + unfold assign_where. cbn [data shape]. rewrite map2_map_same.
      rewrite (IH (fun l => if l =? i then 1 else f0 l)). f_equal.
      * f_equal. apply map_ext. intro l.
        destruct (l =? i); simpl; [|reflexivity].
        destruct (existsb _ es); reflexivity.
      * simpl length. lia.
    + rewrite IH. f_equal. f_equal. apply map_ext. intro l.
      rewrite andb_false_r. reflexivity.
Qed.

Lemma existsb_kept (f : Z -> Z) (thr : Q) (n l : Z) :
  existsb (fun e => (l =? fst e) && gt (snd e) thr)
          (map (fun i => (i, f i)) (range 1 (n + 1)))
  = (1 <=? l) && (l <=? n) && gt (f l) thr.
Proof.
  apply eq_true_iff_eq. rewrite existsb_exists. split.
  - intros [[i x] [Hin H]]. apply in_map_iff in Hin.
    destruct Hin as [j [E Hj]]. injection E as <- <-. simpl in H.
    apply andb_true_iff in H. destruct H as [H1 H2].
    apply Z.eqb_eq in H1. subst j. apply In_range in Hj.
    rewrite H2. zbool.
  - intro H. apply andb_true_iff in H. destruct H as [H1 H2].
    apply andb_true_iff in H1. destruct H1 as [H0 H1].
    exists (l, f l). split.
    + apply in_map_iff. exists l. split; [reflexivity|]. apply In_range. lia.
    + simpl. rewrite Z.eqb_refl, H2. reflexivity.
Qed.

Lemma filter_length_pairs (f : Z -> Z) (p : Z -> bool) (R : list Z) :
  length (filter (fun e : Z * Z => p (snd e)) (map (fun i => (i, f i)) R))
  = length (filter (fun i => p (f i)) R).
Proof.
  induction R as [|i R IH]; simpl; [reflexivity|].
  destruct (p (f i)); simpl; rewrite IH; reflexivity.
Qed.

(** What [_remove_small_components] returns and does to the store. *)
Lemma remove_small_components_run (mask : ref) (st : state) :
  _remove_small_components mask st
  = if num_components (deref st mask) =? 0
    then (Ok (mask, empty_stats (deref st mask)), st)
    else (Ok (length (heap st), cleaned_stats (deref st mask)),
          mkState (heap st ++ [cleaned (deref st mask)]) (emitted st)).
Proof.
  unfold _remove_small_components, bind, load. cbv zeta.
  set (m := deref st mask).
  pose proof (ndimage_sum_eq m (range 1 (num_components m + 1))) as Hs.
  rewrite ndimage_label_eq in *. simpl fst in Hs.
  destruct (num_components m =? 0) eqn:En; [reflexivity|].
  rewrite Hs.
  fold (component_sizes m). fold (largest m).
  unfold component_sizes at 1. rewrite enumerate_range.
  unfold np_zeros_like. rewrite <- (enumerate_length (data m) 0).
  rewrite <- (length_map (fun iv => label_at m (fst iv))).
  rewrite repeat_as_map.
  rewrite keep_large_fold.
  assert (Ec : mkArray (shape m)
             (map (fun l => if existsb
                      (fun e => (l =? fst e)
                                && gt (snd e) (inject_Z (largest m) * (1 # 100)))
                      (map (fun i => (i, component_size m i))
                           (range 1 (num_components m + 1)))
                    then 1 else 0)
                  (map (fun iv => label_at m (fst iv)) (enumerate 0 (data m))))
             = cleaned m).
  { unfold cleaned. f_equal. rewrite map_map. apply map_ext. intro iv.
    rewrite existsb_kept. reflexivity. }
  rewrite Ec.
  assert (Ek : 0 + Z.of_nat (length (filter
                (fun e : Z * Z => gt (snd e) (inject_Z (largest m) * (1 # 100)))
                (map (fun i => (i, component_size m i))
                     (range 1 (num_components m + 1)))))
               = kept_count m).
  { unfold kept_count.
    rewrite (filter_length_pairs (component_size m)
               (fun x => gt x (inject_Z (largest m) * (1 # 100)))).
    reflexivity. }
  rewrite Ek. reflexivity.
Qed.

End Stage3Facts.

(* ================================================================= *)
(** ** The labels of an array *)

Section LabelFacts.
Import Numpy Runtime Processing Stage3.

Lemma label_at_positive (a : ndarray) (i : Z) :
  label_at a i <> 0 <-> In i (foreground a).
Proof.
  unfold label_at, label_components.
  rewrite <- (label_positive Z.eqb (adjacency a) Z.eqb_eq (adjacency_sym a)).
  lia.
Qed.

Lemma label_at_range (a : ndarray) (i : Z) : 0 <= label_at a i <= num_components a.
Proof.
  unfold label_at, num_components.
  pose proof (label_of_le Z.eqb (label_components a) i). lia.
Qed.

Lemma label_at_used (a : ndarray) (l : Z) :
  1 <= l <= num_components a ->
  exists i, In i (foreground a) /\ label_at a i = l.
Proof.
  unfold num_components, label_at, label_components. intro H.
  destruct (label_used Z.eqb (adjacency a) Z.eqb_eq (adjacency_sym a)
              (foreground a) (Z.to_nat (l - 1))) as [s [H1 H2]]; [lia|].
  exists s. split; [exact H1|]. rewrite H2. lia.
Qed.

Lemma label_at_connected (a : ndarray) (i j : Z) :
  In i (foreground a) -> In j (foreground a) ->
  (label_at a i = label_at a j <-> connected a i j).
Proof.
  intros Hi Hj. unfold label_at, connected, label_components.
  rewrite <- (label_eq_conn Z.eqb (adjacency a) Z.eqb_eq (adjacency_sym a)
                (foreground a) i j Hi Hj).
  lia.
Qed.

Lemma num_components_zero (a : ndarray) :
  num_components a = 0 <-> foreground a = [].
Proof.
  split.
  - intro H. destruct (foreground a) as [|i fg] eqn:E; [reflexivity|].
    assert (Hi : In i (foreground a)) by (rewrite E; left; reflexivity).
    apply label_at_positive in Hi. pose proof (label_at_range a i). lia.
  - intro H. unfold num_components, label_components. rewrite H. reflexivity.
Qed.

Lemma num_components_nonneg (a : ndarray) : 0 <= num_components a.
Proof. unfold num_components. lia. Qed.

(** The value of a voxel decides whether it is foreground. *)
Lemma foreground_value (a : ndarray) (i v : Z) :
  In (i, v) (enumerate 0 (data a)) -> (In i (foreground a) <-> v <> 0).
Proof.
  intro H. rewrite In_foreground. split.
  - intros [v' [H1 H2]]. rewrite (enumerate_functional _ _ _ _ _ H H1). exact H2.
  - intro Hv. exists v. auto.
Qed.

Lemma binary_value (a : ndarray) (i v : Z) :
  binary a -> In (i, v) (enumerate 0 (data a)) -> v = 0 \/ v = 1.
Proof.
  intros Hb H. unfold binary in Hb. rewrite Forall_forall in Hb. apply Hb.
  rewrite <- (enumerate_snd (data a) 0). apply in_map_iff. exists (i, v). auto.
Qed.

Lemma labelled_value (a : ndarray) (i v : Z) :
  binary a -> In (i, v) (enumerate 0 (data a)) -> label_at a i <> 0 -> v = 1.
Proof.
  intros Hb H Hl. apply label_at_positive in Hl.
  apply (foreground_value a i v H) in Hl.
  destruct (binary_value a i v Hb H); [contradiction|assumption].
Qed.

Lemma unlabelled_value (a : ndarray) (i v : Z) :
  In (i, v) (enumerate 0 (data a)) -> label_at a i = 0 -> v = 0.
Proof.
  intros H Hl. destruct (Z.eq_dec v 0) as [E|E]; [exact E|].
  apply (foreground_value a i v H) in E. apply label_at_positive in E. contradiction.
Qed.

(** *** Sizes *)

Lemma zsum_indicator_length {A : Type} (p : A -> bool) (l : list A) :
  zsum (map (fun x => if p x then 1 else 0) l) = Z.of_nat (length (filter p l)).
Proof.
  induction l as [|x l IH]; simpl; [reflexivity|].
  destruct (p x); simpl length; lia.
Qed.

Lemma zsum_filter (p : Z -> bool) (l : list Z) :
  zsum (map (fun x => if p x then x else 0) l) = zsum (filter p l).
Proof.
  induction l as [|x l IH]; simpl; [reflexivity|].
  destruct (p x); simpl; lia.
Qed.

Lemma zsum_guard {A : Type} (b : bool) (f : A -> Z) (l : list A) :
  (if b then 0 else zsum (map f l)) = zsum (map (fun x => if b then 0 else f x) l).
Proof.
  destruct b; [|reflexivity].
  induction l as [|x l IH]; simpl; [reflexivity|]. rewrite <- IH. reflexivity.
Qed.

(** In a binary mask the size of a component is its number of voxels. *)
Lemma component_size_count (a : ndarray) (l : Z) :
  binary a -> 1 <= l -> component_size a l = voxel_count a l.
Proof.
  intros Hb Hl. unfold component_size, voxel_count.
  rewrite <- zsum_indicator_length. apply zsum_ext.
  intros [i v] Hin. simpl.
  destruct (Z.eqb_spec (label_at a i) l) as [E|E]; [|reflexivity].
  apply (labelled_value a i v Hb Hin). lia.
Qed.

(** A component that is in use has at least one voxel. *)
Lemma component_size_positive (a : ndarray) (i : Z) :
  binary a -> In i (foreground a) -> 1 <= component_size a (label_at a i).
Proof.
  intros Hb Hi. pose proof Hi as Hi'. apply In_foreground in Hi'.
  destruct Hi' as [v [Hin Hv]].
  assert (v = 1) by (destruct (binary_value a i v Hb Hin); [contradiction|assumption]).
  subst v. unfold component_size.
  apply (zsum_member_le
           (map (fun iv => if label_at a (fst iv) =? label_at a i then snd iv else 0)
                (enumerate 0 (data a)))).
  - intros y Hy. apply in_map_iff in Hy. destruct Hy as [[j w] [E Hj]]. simpl in E.
    destruct (binary_value a j w Hb Hj);
      destruct (label_at a j =? label_at a i); lia.
  - apply in_map_iff. exists (i, 1). split; [|exact Hin].
    simpl. rewrite Z.eqb_refl. reflexivity.
Qed.

(** The components partition the foreground: their sizes add up to the
    sum of the mask. *)
Lemma np_sum_by_components (a : ndarray) : np_sum a = zsum (component_sizes a).
Proof.
  unfold component_sizes, component_size.
  rewrite (zsum_swap
             (fun l (iv : Z * Z) => if label_at a (fst iv) =? l then snd iv else 0)).
  rewrite np_sum_enumerate. apply zsum_ext.
  intros [i v] Hin. simpl. rewrite zsum_indicator_range.
  pose proof (label_at_range a i).
  destruct (Z.eq_dec (label_at a i) 0) as [E|E].
  - rewrite (unlabelled_value a i v Hin E). destruct (_ && _); reflexivity.
  - zbool.
Qed.

Lemma np_sum_cleaned (a : ndarray) :
  binary a ->
  np_sum (cleaned a)
  = zsum (map (fun l => if small a l then 0 else component_size a l)
              (range 1 (num_components a + 1))).
Proof.
  intro Hb. unfold component_size.
  rewrite (map_ext _ _
             (fun l => zsum_guard (small a l)
                         (fun iv : Z * Z => if label_at a (fst iv) =? l then snd iv else 0)
                         (enumerate 0 (data a)))).
  rewrite (zsum_swap
             (fun l (iv : Z * Z) =>
                if small a l then 0
                else if label_at a (fst iv) =? l then snd iv else 0)).
  unfold np_sum, cleaned. simpl data. apply zsum_ext.
  intros [i v] Hin. simpl.
  rewrite (zsum_ext _
             (fun l => if label_at a i =? l
                       then (if small a (label_at a i) then 0 else v) else 0)).
  - rewrite zsum_indicator_range. unfold kept_label.
    pose proof (label_at_range a i).
    destruct (Z.leb_spec 1 (label_at a i)) as [H1|H1];
      destruct (Z.leb_spec (label_at a i) (num_components a)) as [H2|H2];
      destruct (Z.ltb_spec (label_at a i) (num_components a + 1)) as [H3|H3];
      simpl; try lia; try reflexivity.
    destruct (small a (label_at a i)); simpl; [reflexivity|].
    symmetry. apply (labelled_value a i v Hb Hin). lia.
  - intros l _. destruct (Z.eqb_spec (label_at a i) l) as [E|E].
    + subst l. reflexivity.
    + destruct (small a l); reflexivity.
Qed.

(** The voxels removed are those of the small components. *)
Lemma voxels_removed_eq (a : ndarray) :
  binary a ->
  np_sum a - np_sum (cleaned a)
  = zsum (filter (small_size (largest a)) (component_sizes a)).
Proof.
  intro Hb. rewrite np_sum_by_components, np_sum_cleaned by exact Hb.
  rewrite <- zsum_filter. unfold component_sizes. rewrite map_map.
  generalize (range 1 (num_components a + 1)). intro R.
  induction R as [|l R IH]; simpl; [reflexivity|].
  unfold small at 1.
  destruct (small_size (largest a) (component_size a l)); lia.
Qed.

Lemma kept_count_eq (a : ndarray) :
  kept_count a
  = Z.of_nat (length (filter (fun s => negb (small_size (largest a) s))
                             (component_sizes a))).
Proof.
  unfold kept_count, component_sizes.
  generalize (range 1 (num_components a + 1)). intro R. f_equal.
  induction R as [|l R IH]; simpl; [reflexivity|].
  unfold small at 1.
  destruct (small_size (largest a) (component_size a l)); simpl; rewrite IH; reflexivity.
Qed.

End LabelFacts.

Section Stage3Spec.
Import Numpy Runtime Processing Stage3.
Context {ops : Ndimage}.
Local Open Scope string_scope.
Local Open Scope list_scope.
Local Open Scope Z_scope.

Lemma np_any_foreground (a : ndarray) :
  np_any (data a) = false <-> foreground a = [].
Proof.
  unfold np_any, foreground.
  rewrite <- (enumerate_snd (data a) 0) at 1.
  generalize (enumerate 0 (data a)). intro e.
  induction e as [|[i v] e IH]; simpl; [tauto|].
  destruct (v =? 0); simpl; [exact IH|]. split; discriminate.
Qed.

Lemma np_any_components (a : ndarray) :
  (num_components a =? 0) = negb (np_any (data a)).
Proof.
  destruct (np_any (data a)) eqn:E; simpl.
  - apply Z.eqb_neq. intro H. apply num_components_zero, np_any_foreground in H.
    congruence.
  - apply Z.eqb_eq. apply num_components_zero, np_any_foreground. exact E.
Qed.

Lemma binary_forallb (a : ndarray) :
  forallb (fun v => (v =? 0) || (v =? 1)) (data a) = true -> binary a.
Proof.
  intro H. unfold binary. apply Forall_forall. intros v Hv.
  rewrite forallb_forall in H. specialize (H v Hv).
  apply orb_true_iff in H. destruct H as [H|H]; apply Z.eqb_eq in H; auto.
Qed.

(** The cleaned mask, voxel by voxel: a voxel is cleared when it is
    background or its component is small, and is [1] otherwise. *)
Lemma cleaned_pointwise (a : ndarray) :
  binary a ->
  cleaned a
  = mkArray (shape a)
      (map (fun iv =>
              if (snd iv =? 0)
                 || small_size (largest a) (component_size a (label_at a (fst iv)))
              then 0 else 1)
           (enumerate 0 (data a))).
Proof.
  intro Hb. unfold cleaned. f_equal. apply map_ext_in.
  intros [i v] Hin. simpl. unfold kept_label, small.
  pose proof (label_at_range a i).
  destruct (Z.eqb_spec v 0) as [E|E]; simpl.
  - assert (label_at a i = 0).
    { destruct (Z.eq_dec (label_at a i) 0) as [E0|E0]; [exact E0|].
      pose proof (labelled_value a i v Hb Hin E0). lia. }
    rewrite H0. reflexivity.
  - assert (label_at a i <> 0).
    { apply label_at_positive. apply (foreground_value a i v Hin). exact E. }
    destruct (Z.leb_spec 1 (label_at a i)); [|lia].
    destruct (Z.leb_spec (label_at a i) (num_components a)); [|lia].
    simpl. destruct (small_size _ _); reflexivity.
Qed.

(** C3.  On a mask [m] (values 0 and 1), [_remove_small_components]
    - labels the connected components: foreground voxels get the labels
      [1..num_components], two of them the same label exactly when they
      are connected;
    - takes as size of a component its number of voxels, and as
      [max_size] the largest of these;
    - on an empty mask returns the very same array and the statistics
      [voxels_after = 0], [components_removed = 0];
    - otherwise returns a new array in which a voxel is [0] when it was
      [0] or its component has [size <= max_size * 0.01], and [1]
      otherwise; [components_kept] counts the components above the
      threshold and [voxels_removed] adds up the sizes of the others;
    - so with component sizes 950 and 10: [components_kept = 2] and
      [voxels_removed = 0]; with sizes 950 and 9: [voxels_removed = 9]. *)
Theorem remove_small_components_spec (st : state) (mask : ref) :
  let m := deref st mask in
  binary m ->
  (forall i, In i (foreground m) <-> 1 <= label_at m i <= num_components m)
  /\ (forall i j, In i (foreground m) -> In j (foreground m) ->
                  (label_at m i = label_at m j <-> connected m i j))
  /\ (forall l, 1 <= l <= num_components m ->
                exists i, In i (foreground m) /\ label_at m i = l)
  /\ (forall l, 1 <= l -> component_size m l = voxel_count m l)
  /\ (forall s, In s (component_sizes m) -> s <= largest m)
  /\ (np_any (data m) = true -> In (largest m) (component_sizes m))
  /\ (np_any (data m) = false ->
      _remove_small_components mask st
      = (Ok (mask, [("voxels_before", np_sum m); ("voxels_after", 0);
                    ("components_removed", 0)]), st))
  /\ (np_any (data m) = true ->
      exists d,
        _remove_small_components mask st
        = (Ok (length (heap st), d),
           mkState
             (heap st ++
                [mkArray (shape m)
                   (map (fun iv =>
                           if (snd iv =? 0)
                              || small_size (largest m)
                                   (component_size m (label_at m (fst iv)))
                           then 0 else 1)
                        (enumerate 0 (data m)))])
             (emitted st))
        /\ lookup "voxels_before" d = Some (np_sum m)
        /\ lookup "voxels_removed" d
           = Some (zsum (filter (small_size (largest m)) (component_sizes m)))
        /\ lookup "components_total" d = Some (num_components m)
        /\ lookup "components_kept" d
           = Some (Z.of_nat (length (filter (fun s => negb (small_size (largest m) s))
                                            (component_sizes m))))
        /\ (Permutation [950; 10] (component_sizes m) ->
            lookup "components_kept" d = Some 2
            /\ lookup "voxels_removed" d = Some 0)
        /\ (Permutation [950; 9] (component_sizes m) ->
            lookup "voxels_removed" d = Some 9)).
Proof.
  intros m Hb.
  split.
  { intro i. rewrite <- label_at_positive. pose proof (label_at_range m i). lia. }
  split; [apply label_at_connected|].
  split; [apply label_at_used|].
  split; [intros l Hl; apply component_size_count; assumption|].
  split; [intros s Hs; apply np_max_ge; exact Hs|].
  split.
  { intro Hne. apply np_max_in. unfold component_sizes.
    pose proof (np_any_components m) as Hn. rewrite Hne in Hn. simpl in Hn.
    apply Z.eqb_neq in Hn. pose proof (num_components_nonneg m).
    intro E. apply (f_equal (@length Z)) in E.
    rewrite length_map, range_length in E. simpl in E. lia. }
  split.
  { intro He. rewrite remove_small_components_run. fold m.
    rewrite np_any_components, He. reflexivity. }
  intro Hne. exists (cleaned_stats m).
  split.
  { rewrite remove_small_components_run. fold m.
    rewrite np_any_components, Hne. simpl negb. cbv iota.
    rewrite <- cleaned_pointwise by exact Hb. reflexivity. }
  assert (Hrem : lookup "voxels_removed" (cleaned_stats m)
                 = Some (zsum (filter (small_size (largest m)) (component_sizes m)))).
  { unfold cleaned_stats. simpl. rewrite voxels_removed_eq by exact Hb. reflexivity. }
  assert (Hkept : lookup "components_kept" (cleaned_stats m)
                  = Some (Z.of_nat (length (filter
                            (fun s => negb (small_size (largest m) s))
                            (component_sizes m))))).
  { unfold cleaned_stats. simpl. rewrite kept_count_eq. reflexivity. }
  split; [reflexivity|].
  split; [exact Hrem|].
  split; [reflexivity|].
  split; [exact Hkept|].
  split.
  - intro Hp. rewrite Hrem, Hkept. unfold largest.
    apply Permutation_length_2_inv in Hp.
    destruct Hp as [-> | ->]; split; reflexivity.
  - intro Hp. rewrite Hrem. unfold largest.
    apply Permutation_length_2_inv in Hp.
    destruct Hp as [-> | ->]; reflexivity.
Qed.

End Stage3Spec.

(* ================================================================= *)
(** ** Stage 3 is idempotent *)

Section Idempotence.
Import Numpy Runtime Processing Stage3.
Local Open Scope Z_scope.

Lemma small_size_self (M : Z) : 1 <= M -> small_size M M = false.
Proof.
  intro H. unfold small_size.
  destruct (Qle_bool (inject_Z M) (inject_Z M * (1 # 100))) eqn:E; [|reflexivity].
  apply Qle_bool_iff in E. unfold Qle in E. simpl in E. lia.
Qed.

Variable a : ndarray.
Hypothesis Hb : binary a.

Let e := enumerate 0 (data a).
Let K (i : Z) : bool := kept_label a (label_at a i).
Let c := cleaned a.

Lemma cleaned_enumerate :
  enumerate 0 (data c) = map (fun iv => (fst iv, if K (fst iv) then 1 else 0)) e.
Proof. unfold c, cleaned. simpl data. apply enumerate_recompute. Qed.

Lemma cleaned_adjacency : adjacency c = adjacency a.
Proof. reflexivity. Qed.

Lemma kept_foreground (i : Z) : K i = true -> In i (foreground a).
Proof.
  unfold K, kept_label. intro H. apply label_at_positive.
  apply andb_true_iff in H. destruct H as [H _].
  apply andb_true_iff in H. destruct H as [H _].
  apply Z.leb_le in H. lia.
Qed.

Lemma cleaned_foreground (i : Z) :
  In i (foreground c) <-> In i (foreground a) /\ K i = true.
Proof.
  rewrite (In_foreground c). rewrite cleaned_enumerate. split.
  - intros [v [Hin Hv]]. apply in_map_iff in Hin.
    destruct Hin as [[j w] [E Hj]]. simpl in E. injection E as <- <-.
    destruct (K j) eqn:Ek; [|contradiction].
    split; [apply kept_foreground; exact Ek|reflexivity].
  - intros [Hi Hk]. apply In_foreground in Hi. destruct Hi as [v [Hin _]].
    exists 1. split; [|discriminate].
    apply in_map_iff. exists (i, v). simpl. rewrite Hk. auto.
Qed.

Lemma cleaned_foreground_incl : incl (foreground c) (foreground a).
Proof. intros i Hi. apply cleaned_foreground in Hi. tauto. Qed.

(** Whether a voxel is kept depends on its label only. *)
Lemma kept_same_label (i j : Z) : label_at a i = label_at a j -> K i = K j.
Proof. unfold K. intro E. rewrite E. reflexivity. Qed.

(** Removing other components neither cuts nor joins a kept component. *)
Lemma connected_cleaned (i j : Z) :
  In i (foreground c) -> (connected c i j <-> connected a i j).
Proof.
  intro Hi. unfold connected. rewrite cleaned_adjacency. split.
  - apply conn_incl. exact cleaned_foreground_incl.
  - intro H. revert Hi.
    induction H as [x Hx | x y z Hxy IH Hz Ha]; intro Hi.
    + constructor. exact Hi.
    + apply Graph.conn_step with y; [apply IH; exact Hi| |exact Ha].
      apply cleaned_foreground. split; [exact Hz|].
      apply cleaned_foreground in Hi. destruct Hi as [Hxa Hk].
      rewrite <- Hk. symmetry. apply kept_same_label.
      apply label_at_connected; [exact Hxa|exact Hz|].
      apply Graph.conn_step with y; assumption.
Qed.

Lemma cleaned_same_label (i j : Z) :
  In i (foreground c) -> In j (foreground c) ->
  (label_at c i = label_at c j <-> label_at a i = label_at a j).
Proof.
  intros Hi Hj.
  rewrite (label_at_connected c i j Hi Hj).
  rewrite (connected_cleaned i j Hi).
  symmetry. apply label_at_connected; apply cleaned_foreground_incl; assumption.
Qed.

(** A kept component has the same size before and after. *)
Lemma cleaned_component_size (i : Z) :
  In i (foreground c) ->
  component_size c (label_at c i) = component_size a (label_at a i).
Proof.
  intro Hi. unfold component_size. rewrite cleaned_enumerate, map_map. fold e.
  apply zsum_ext. intros [p v] Hin. simpl.
  destruct (K p) eqn:Ek.
  - assert (Hp : In p (foreground c))
      by (apply cleaned_foreground; split; [apply kept_foreground|]; assumption).
    pose proof (cleaned_same_label p i Hp Hi) as Hl.
    assert (v = 1).
    { apply (labelled_value a p v Hb Hin).
      apply label_at_positive, kept_foreground. exact Ek. }
    subst v.
    destruct (Z.eqb_spec (label_at c p) (label_at c i)) as [E1|E1];
      destruct (Z.eqb_spec (label_at a p) (label_at a i)) as [E2|E2];
      try reflexivity; tauto.
  - destruct (Z.eqb_spec (label_at a p) (label_at a i)) as [E2|E2].
    + apply kept_same_label in E2. apply cleaned_foreground in Hi. fold K in E2.
      destruct Hi as [_ Hk]. congruence.
    + destruct (label_at c p =? label_at c i); reflexivity.
Qed.

Lemma component_size_listed (b : ndarray) (i : Z) :
  In i (foreground b) -> In (component_size b (label_at b i)) (component_sizes b).
Proof.
  intro Hi. unfold component_sizes. apply in_map. apply In_range.
  apply label_at_positive in Hi. pose proof (label_at_range b i). lia.
Qed.

Hypothesis Hne : np_any (data a) = true.

(** A voxel of a largest component; its component is kept. *)
Lemma largest_kept :
  exists i, In i (foreground c) /\ component_size a (label_at a i) = largest a.
Proof.
  assert (Hin : In (largest a) (component_sizes a)).
  { apply np_max_in. unfold component_sizes.
    intro E. apply (f_equal (@length Z)) in E.
    rewrite length_map, range_length in E. simpl in E.
    assert (num_components a <> 0).
    { intro H0. apply num_components_zero, np_any_foreground in H0. congruence. }
    pose proof (num_components_nonneg a). lia. }
  unfold component_sizes in Hin. apply in_map_iff in Hin.
  destruct Hin as [l [El Hl]]. apply In_range in Hl.
  destruct (label_at_used a l) as [i [Hi Ei]]; [lia|].
  exists i. rewrite Ei. split; [|exact El].
  apply cleaned_foreground. split; [exact Hi|].
  unfold K, kept_label, small. rewrite Ei, El.
  rewrite small_size_self.
  - zbool.
  - rewrite <- El, <- Ei. apply component_size_positive; assumption.
Qed.

Lemma cleaned_largest : largest c = largest a.
Proof.
  destruct largest_kept as [i [Hi Ei]].
  assert (Hin : In (largest a) (component_sizes c)).
  { rewrite <- Ei, <- (cleaned_component_size i Hi).
    apply component_size_listed. exact Hi. }
  apply Z.le_antisymm.
  - assert (Hc : In (largest c) (component_sizes c)).
    { apply np_max_in. intro E. rewrite E in Hin. destruct Hin. }
    unfold component_sizes in Hc. apply in_map_iff in Hc.
    destruct Hc as [l [El Hl]]. apply In_range in Hl.
    destruct (label_at_used c l) as [j [Hj Ej]]; [lia|].
    rewrite <- El, <- Ej, (cleaned_component_size j Hj).
    apply np_max_ge. apply component_size_listed.
    apply cleaned_foreground_incl. exact Hj.
  - apply np_max_ge. exact Hin.
Qed.

Lemma cleaned_kept (i : Z) : kept_label c (label_at c i) = K i.
Proof.
  destruct (K i) eqn:Ek.
  - assert (Hi : In i (foreground c))
      by (apply cleaned_foreground; split; [apply kept_foreground|]; assumption).
    unfold kept_label, small.
    rewrite cleaned_largest, (cleaned_component_size i Hi).
    pose proof (label_at_range c i).
    assert (label_at c i <> 0) by (apply label_at_positive; exact Hi).
    unfold K, kept_label, small in Ek.
    apply andb_true_iff in Ek. destruct Ek as [_ Ek]. rewrite Ek.
    zbool.
  - assert (Hi : ~ In i (foreground c)).
    { intro H. apply cleaned_foreground in H. destruct H. congruence. }
    assert (E0 : label_at c i = 0).
    { destruct (Z.eq_dec (label_at c i) 0) as [E|E]; [exact E|].
      apply label_at_positive in E. contradiction. }
    rewrite E0. reflexivity.
Qed.

(** Cleaning a cleaned mask changes nothing. *)
Lemma cleaned_idempotent : cleaned c = c.
Proof.
  transitivity (mkArray (shape a) (map (fun iv => if K (fst iv) then 1 else 0) e));
    [|reflexivity].
  unfold cleaned. rewrite cleaned_enumerate, map_map.
  f_equal. apply map_ext. intro iv. simpl.
  rewrite cleaned_kept. reflexivity.
Qed.

Lemma cleaned_nonempty : np_any (data c) = true.
Proof.
  destruct largest_kept as [i [Hi _]].
  destruct (np_any (data c)) eqn:E; [reflexivity|].
  apply np_any_foreground in E. rewrite E in Hi. destruct Hi.
Qed.

End Idempotence.

(* ================================================================= *)
(** ** The store *)

Section RuntimeFacts.
Import Numpy Float64 Runtime.

Lemma update_length {A : Type} (l : list A) (i : nat) (x : A) :
  length (update l i x) = length l.
Proof.
  revert i. induction l as [|y l IH]; intros [|i]; simpl; try reflexivity.
  rewrite IH. reflexivity.
Qed.

Lemma update_nth_same {A : Type} (l : list A) (i : nat) (x d : A) :
  (i < length l)%nat -> nth i (update l i x) d = x.
Proof.
  revert i. induction l as [|y l IH]; intros [|i] H; simpl in *; try lia.
  - reflexivity.
  - apply IH. lia.
Qed.

Lemma update_nth_other {A : Type} (l : list A) (i j : nat) (x d : A) :
  i <> j -> nth j (update l i x) d = nth j l d.
Proof.
  revert i j. induction l as [|y l IH]; intros [|i] [|j] H; simpl; try reflexivity.
  - contradiction.
  - apply IH. lia.
Qed.

Lemma update_firstn {A : Type} (l : list A) (i n : nat) (x : A) :
  (n <= i)%nat -> firstn n (update l i x) = firstn n l.
Proof.
  revert i n. induction l as [|y l IH]; intros [|i] [|n] H; simpl; try reflexivity.
  - lia.
  - rewrite IH by lia. reflexivity.
Qed.

Lemma bind_unfold {A B : Type} (c : M A) (k : A -> M B) (st : state) :
  bind c k st
  = match c st with
    | (Ok a, st') => k a st'
    | (Raise e, st') => (Raise e, st')
    end.
Proof. reflexivity. Qed.

(** The guarded division of the final statistics never raises. *)
Lemma improvement_run (base_count final_count : Z) (st : state) :
  (if 0 <? base_count
   then bind (truediv (final_count - base_count) base_count)
             (fun q => ret (PyFloat (mul q (of_int 100))))
   else ret (PyInt 0)) st
  = (Ok (if 0 <? base_count
         then PyFloat (mul (int_div (final_count - base_count) base_count)
                           (of_int 100))
         else PyInt 0), st).
Proof.
  destruct (Z.ltb_spec 0 base_count) as [H|H]; [|reflexivity].
  unfold bind, truediv.
  destruct (Z.eqb_spec base_count 0) as [E|E]; [lia|reflexivity].
Qed.

Lemma deref_alloc (h : list ndarray) (em : list (Z * message)) (a : ndarray) :
  deref (mkState (h ++ [a]) em) (length h) = a.
Proof. unfold deref. simpl. apply nth_middle. Qed.

End RuntimeFacts.

(* ================================================================= *)
(** ** The stages, run on a store *)

Section StageRuns.
Import Numpy Runtime Processing Stage3 Stage4.
Context {ops : Ndimage}.
Local Open Scope string_scope.
Local Open Scope list_scope.
Local Open Scope Z_scope.

Lemma hu_dilation_run (mask volume : ref) (lo hi : Q) (it : Z)
      (h : list ndarray) (em : list (Z * message)) :
  _apply_hu_dilation mask volume lo hi it (mkState h em)
  = match np_and (of_bools (shape (nth mask h empty_array))
                    (binary_dilation (nth mask h empty_array) it))
                 (mkArray (shape (nth volume h empty_array))
                    (map (fun x => Z.b2z (in_hu_range lo hi x))
                         (data (nth volume h empty_array))))
    with
    | Some r =>
        (Ok (length h, [("voxels_before", np_sum (nth mask h empty_array));
                        ("voxels_after", np_sum r);
                        ("voxels_added", np_sum r - np_sum (nth mask h empty_array))]),
         mkState (h ++ [r]) em)
    | None => (Raise ValueError, mkState h em)
    end.
Proof.
  unfold _apply_hu_dilation, bind, load, deref. simpl.
  destruct (np_and _ _); reflexivity.
Qed.

Lemma closing_run (mask : ref) (size : Z) (h : list ndarray) (em : list (Z * message)) :
  _apply_morphological_closing mask size (mkState h em)
  = (Ok (length h,
         [("voxels_before", np_sum (nth mask h empty_array));
          ("voxels_after",
           np_sum (of_bools (shape (nth mask h empty_array))
                     (binary_closing (nth mask h empty_array) size)));
          ("voxels_added",
           np_sum (of_bools (shape (nth mask h empty_array))
                     (binary_closing (nth mask h empty_array) size))
           - np_sum (nth mask h empty_array))]),
     mkState (h ++ [of_bools (shape (nth mask h empty_array))
                      (binary_closing (nth mask h empty_array) size)]) em).
Proof. reflexivity. Qed.

Lemma fill_loop_run (mask : ref) :
  forall (zs : list nat) (sp : Z) (h : list ndarray) (em : list (Z * message)),
    for_each zs
      (fun slices_processed z =>
         bind (load mask) (fun m =>
           if np_any (get_slice m z) then
             let '(_, hh, w) := shape m in
             bind (store mask
                     (set_slice m z
                        (map Z.b2z (binary_fill_holes hh w (get_slice m z)))))
                  (fun _ => ret (slices_processed + 1))
           else ret slices_processed))
      sp (mkState h em)
    = (Ok (sp + fill_count mask h zs), mkState (fold_left (fill_step mask) zs h) em).
Proof.
  induction zs as [|z zs IH]; intros sp h em.
  - simpl. rewrite Z.add_0_r. reflexivity.
  - cbn [for_each fill_count fold_left].
    rewrite bind_unfold. unfold bind at 1, load at 1.
    change (deref {| heap := h; emitted := em |} mask) with (nth mask h empty_array).
    assert (Hs : fill_step mask h z
                 = if np_any (get_slice (nth mask h empty_array) z)
                   then let '(_, hh, w) := shape (nth mask h empty_array) in
                        update h mask
                          (set_slice (nth mask h empty_array) z
                             (map Z.b2z
                                (binary_fill_holes hh w
                                   (get_slice (nth mask h empty_array) z))))
                   else h) by reflexivity.
    rewrite Hs. clear Hs.
    destruct (np_any (get_slice (nth mask h empty_array) z)) eqn:E.
    + destruct (shape (nth mask h empty_array)) as [[d hh] w] eqn:Es.
      unfold bind at 1, store at 1, ret at 1. cbn [heap emitted].
      rewrite IH. rewrite Z.add_assoc. reflexivity.
    + unfold ret at 1. rewrite IH. rewrite Z.add_0_l. reflexivity.
Qed.

Lemma fill_holes_run (mask : ref) (h : list ndarray) (em : list (Z * message)) :
  _fill_holes_2d mask (mkState h em)
  = (Ok (mask,
         [("voxels_before", np_sum (nth mask h empty_array));
          ("voxels_after",
           np_sum (nth mask
                     (fold_left (fill_step mask)
                        (seq 0 (fst (fst (shape (nth mask h empty_array))))) h)
                     empty_array));
          ("voxels_added",
           np_sum (nth mask
                     (fold_left (fill_step mask)
                        (seq 0 (fst (fst (shape (nth mask h empty_array))))) h)
                     empty_array)
           - np_sum (nth mask h empty_array));
          ("slices_processed",
           fill_count mask h (seq 0 (fst (fst (shape (nth mask h empty_array))))))]),
     mkState (fold_left (fill_step mask)
                (seq 0 (fst (fst (shape (nth mask h empty_array))))) h) em).
Proof.
  unfold _fill_holes_2d.
  rewrite bind_unfold. unfold load at 1, deref at 1. cbn [heap].
  rewrite bind_unfold. rewrite fill_loop_run.
  reflexivity.
Qed.

(** *** What the slice loop leaves alone *)

Lemma fill_step_length (mask : ref) (h : list ndarray) (z : nat) :
  length (fill_step mask h z) = length h.
Proof.
  unfold fill_step. destruct (np_any _); [|reflexivity].
  destruct (shape _) as [[d hh] w]. apply update_length.
Qed.

Lemma fill_step_other (mask r : ref) (h : list ndarray) (z : nat) :
  r <> mask -> nth r (fill_step mask h z) empty_array = nth r h empty_array.
Proof.
  intro H. unfold fill_step. destruct (np_any _); [|reflexivity].
  destruct (shape _) as [[d hh] w]. apply update_nth_other. congruence.
Qed.

Lemma fill_step_firstn (mask : ref) (h : list ndarray) (z n : nat) :
  (n <= mask)%nat -> firstn n (fill_step mask h z) = firstn n h.
Proof.
  intro H. unfold fill_step. destruct (np_any _); [|reflexivity].
  destruct (shape _) as [[d hh] w]. apply update_firstn. exact H.
Qed.

Lemma fill_loop_length (mask : ref) (zs : list nat) (h : list ndarray) :
  length (fold_left (fill_step mask) zs h) = length h.
Proof.
  revert h. induction zs as [|z zs IH]; intro h; simpl; [reflexivity|].
  rewrite IH. apply fill_step_length.
Qed.

Lemma fill_loop_firstn (mask : ref) (zs : list nat) (h : list ndarray) (n : nat) :
  (n <= mask)%nat -> firstn n (fold_left (fill_step mask) zs h) = firstn n h.
Proof.
  intro H. revert h. induction zs as [|z zs IH]; intro h; simpl; [reflexivity|].
  rewrite IH. apply fill_step_firstn. exact H.
Qed.

(** Hole filling writes booleans: a mask of [0]s and [1]s stays one. *)
Lemma Forall_firstn_Z (P : Z -> Prop) (n : nat) (l : list Z) :
  Forall P l -> Forall P (firstn n l).
Proof.
  intro H. revert n. induction H; intros [|n]; simpl; constructor; auto.
Qed.

Lemma Forall_skipn_Z (P : Z -> Prop) (n : nat) (l : list Z) :
  Forall P l -> Forall P (skipn n l).
Proof.
  intro H. revert n. induction H; intros [|n]; simpl; auto.
Qed.

Lemma bits_of_bools (l : list bool) : Forall (fun v => 0 <= v <= 1) (map Z.b2z l).
Proof.
  apply Forall_forall. intros v Hv. apply in_map_iff in Hv.
  destruct Hv as [b [<- _]]. destruct b; simpl; lia.
Qed.

Lemma fill_step_bits (mask : ref) (h : list ndarray) (z : nat) :
  bits (nth mask h empty_array) -> bits (nth mask (fill_step mask h z) empty_array).
Proof.
  intro H. unfold fill_step. destruct (np_any _); [|exact H].
  destruct (shape _) as [[d hh] w].
  destruct (Nat.lt_ge_cases mask (length h)) as [Hl|Hl].
  - rewrite update_nth_same by exact Hl.
    unfold bits, set_slice. simpl data.
    apply Forall_app. split; [apply Forall_firstn_Z; exact H|].
    apply Forall_app. split; [apply bits_of_bools|apply Forall_skipn_Z; exact H].
  - rewrite nth_overflow by (rewrite update_length; exact Hl).
    constructor.
Qed.

Lemma fill_loop_bits (mask : ref) (zs : list nat) (h : list ndarray) :
  bits (nth mask h empty_array) ->
  bits (nth mask (fold_left (fill_step mask) zs h) empty_array).
Proof.
  revert h. induction zs as [|z zs IH]; intros h H; simpl; [exact H|].
  apply IH. apply fill_step_bits. exact H.
Qed.

Lemma astype_bits (a : ndarray) : bits a -> astype_uint8 a = a.
Proof.
  intro H. destruct a as [s d]. unfold astype_uint8, bits in *. simpl in *.
  f_equal. induction H as [|v l Hv Hl IH]; simpl; [reflexivity|].
  rewrite IH. rewrite Z.mod_small by lia. reflexivity.
Qed.

Lemma cleaned_bits (a : ndarray) : bits (cleaned a).
Proof.
  unfold bits, cleaned. simpl. apply Forall_forall. intros v Hv.
  apply in_map_iff in Hv. destruct Hv as [iv [<- _]].
  destruct (kept_label _ _); lia.
Qed.

Lemma empty_bits (a : ndarray) : np_any (data a) = false -> bits a.
Proof.
  unfold bits, np_any. intro H. apply Forall_forall. intros v Hv.
  destruct (Z.eq_dec v 0) as [E|E]; [lia|].
  assert (existsb (fun v => negb (v =? 0)) (data a) = true).
  { apply existsb_exists. exists v. split; [exact Hv|].
    apply negb_true_iff. apply Z.eqb_neq. exact E. }
  congruence.
Qed.

End StageRuns.

(* ================================================================= *)
(** ** [refine_mask] *)

(** One step of a monadic computation on an explicit state. *)
Ltac pyprim :=
  cbn [Runtime.load Runtime.alloc Runtime.ret Runtime.raise Runtime.store
       Runtime.emit Runtime.get Runtime.getitem Runtime.of_option
       Runtime.heap Runtime.emitted].

Ltac pystep :=
  first [rewrite improvement_run | rewrite bind_unfold; pyprim | progress pyprim].

Section RefineFacts.
Import Numpy Float64 Runtime Processing Stage3 Stage4.
Context {ops : Ndimage}.
Local Open Scope string_scope.
Local Open Scope list_scope.
Local Open Scope Z_scope.

Lemma np_sum_cleaned_le (a : ndarray) :
  Forall (fun v => 0 <= v) (data a) -> np_sum (cleaned a) <= np_sum a.
Proof.
  intro Hn. rewrite (np_sum_enumerate a). unfold np_sum, cleaned. simpl data.
  apply zsum_le. intros [i v] Hin. simpl.
  assert (0 <= v).
  { rewrite Forall_forall in Hn. apply Hn.
    rewrite <- (enumerate_snd (data a) 0). apply in_map_iff. exists (i, v). auto. }
  destruct (kept_label a (label_at a i)) eqn:Ek; [|exact H].
  assert (v <> 0); [|lia].
  apply (foreground_value a i v Hin). apply label_at_positive.
  unfold kept_label in Ek.
  apply andb_true_iff in Ek. destruct Ek as [Ek _].
  apply andb_true_iff in Ek. destruct Ek as [Ek _].
  apply Z.leb_le in Ek. lia.
Qed.

(** C4.  With [dilation_iter = 0], [closing_size = 1] and
    [fill_holes = false], on a mask of unsigned values, [refine_mask]
    returns; its [steps] hold the single entry 'Noise Removal'; and
    [final_count <= base_count].  Small-component removal is what it
    runs: the entry holds the statistics that [_remove_small_components]
    returns for the copy of the input mask, the returned mask is the
    array that call returns, as unsigned bytes, in a new array; and
    [base_count] and [final_count], the sums of the input and of the
    returned mask, are that call's [voxels_before] and [voxels_after]. *)
Theorem refine_all_disabled (st : state) (base_mask volume : ref)
        (spacing : float * float * float) (lo hi : option Q) :
  Forall (fun v => 0 <= v) (data (deref st base_mask)) ->
  let copied := mkState (heap st ++ [deref st base_mask]) (emitted st) in
  exists out stats st' mask d st1,
    refine_mask base_mask volume spacing
      (mkParams lo hi (Some 0) (Some 1) (Some false)) st
    = (Ok (out, stats), st')
    /\ map name (steps stats) = ["Noise Removal"]
    /\ final_count stats <= base_count stats
    /\ _remove_small_components (length (heap st)) copied = (Ok (mask, d), st1)
    /\ steps stats = [mkStep "Noise Removal" d]
    /\ deref st' out = astype_uint8 (deref st1 mask)
    /\ st' = mkState (heap st1 ++ [astype_uint8 (deref st1 mask)]) (emitted st1)
    /\ base_count stats = np_sum (deref st base_mask)
    /\ final_count stats = np_sum (deref st' out)
    /\ lookup "voxels_before" d = Some (base_count stats)
    /\ lookup "voxels_after" d = Some (final_count stats).
Proof.
  intros Hn copied. subst copied. destruct st as [h em].
  set (b := deref (mkState h em) base_mask) in *.
  unfold refine_mask.
  pystep. fold b. pystep. pystep. rewrite deref_alloc.
  cbn [dilation_iter closing_size fill_holes get heap emitted].
  change (0 <? 0) with false. change (1 <? 1) with false. cbv iota.
  pystep. pystep. pystep.
  rewrite !remove_small_components_run. rewrite !deref_alloc.
  destruct (num_components b =? 0) eqn:En.
  - repeat pystep. rewrite deref_alloc. repeat pystep.
    assert (Hany : np_any (data b) = false).
    { pose proof (np_any_components b) as Hc. rewrite En in Hc.
      symmetry in Hc. apply negb_true_iff in Hc. exact Hc. }
    pose proof (astype_bits b (empty_bits b Hany)) as Ha.
    assert (Hz : np_sum b = 0).
    { unfold np_sum. clear - Hany. unfold np_any in Hany.
      induction (data b) as [|v l IH]; [reflexivity|].
      cbn [existsb] in Hany. apply orb_false_iff in Hany.
      destruct Hany as [Hv Hl]. apply negb_false_iff, Z.eqb_eq in Hv.
      subst v. change (zsum (0 :: l)) with (0 + zsum l).
      rewrite (IH Hl). reflexivity. }
    do 6 eexists. split; [reflexivity|].
    cbn [steps final_count base_count map name app].
    split; [reflexivity|]. split; [lia|]. split; [reflexivity|].
    split; [reflexivity|].
    unfold deref. cbn [heap emitted]. rewrite !nth_middle.
    split; [reflexivity|]. split; [reflexivity|]. split; [reflexivity|].
    rewrite Ha. split; [reflexivity|].
    split; [reflexivity|]. rewrite Hz. reflexivity.
  - repeat pystep.
    rewrite (deref_alloc (h ++ [b]) em (cleaned b)). repeat pystep.
    pose proof (astype_bits (cleaned b) (cleaned_bits b)) as Ha.
    do 6 eexists. split; [reflexivity|].
    cbn [steps final_count base_count map name app].
    split; [reflexivity|].
    split; [apply np_sum_cleaned_le; exact Hn|]. split; [reflexivity|].
    split; [reflexivity|].
    unfold deref. cbn [heap emitted]. rewrite !nth_middle.
    split; [reflexivity|]. split; [reflexivity|]. split; [reflexivity|].
    rewrite Ha. split; [reflexivity|].
    split; reflexivity.
Qed.

End RefineFacts.

(* ================================================================= *)
(** ** The worker's inlined pipeline *)

Section WorkerFacts.
Import Numpy Runtime Processing Workers Stage3 Stage4.
Context {ops : Ndimage}.
Local Open Scope string_scope.
Local Open Scope list_scope.
Local Open Scope Z_scope.

(** The worker's loop over the components is the loop of
    [_remove_small_components] without the counter. *)
Lemma worker_fold (labeled : ndarray) (thr : Q) :
  forall (es : list (Z * Z)) (acc : ndarray) (k : Z),
    fold_left (fun mask_cleaned (isize : Z * Z) =>
                 let '(i, size) := isize in
                 if gt size thr then assign_where labeled i mask_cleaned
                 else mask_cleaned)
              es acc
    = fst (fold_left (keep_large labeled thr) es (acc, k)).
Proof.
  induction es as [|[i size] es IH]; intros acc k; [reflexivity|].
  cbn [fold_left].
  replace (keep_large labeled thr (acc, k) (i, size))
    with (if gt size thr then (assign_where labeled i acc, k + 1) else (acc, k))
    by reflexivity.
  destruct (gt size thr); apply IH.
Qed.

Lemma worker_cleaned (m : ndarray) :
  fold_left (fun mask_cleaned (isize : Z * Z) =>
               let '(i, size) := isize in
               if gt size (inject_Z
                             (np_max (ndimage_sum m
                                        (mkArray (shape m)
                                           (map (fun iv => label_at m (fst iv))
                                                (enumerate 0 (data m))))
                                        (range 1 (num_components m + 1))))
                           * (1 # 100))
               then assign_where
                      (mkArray (shape m)
                         (map (fun iv => label_at m (fst iv)) (enumerate 0 (data m))))
                      i mask_cleaned
               else mask_cleaned)
            (enumerate 1 (ndimage_sum m
                            (mkArray (shape m)
                               (map (fun iv => label_at m (fst iv))
                                    (enumerate 0 (data m))))
                            (range 1 (num_components m + 1))))
            (np_zeros_like m)
  = cleaned m.
Proof.
  rewrite (worker_fold _ _ _ _ 0).
  pose proof (ndimage_sum_eq m (range 1 (num_components m + 1))) as Hs.
  rewrite ndimage_label_eq in Hs. cbn [fst] in Hs. rewrite Hs.
  fold (component_sizes m). fold (largest m).
  unfold component_sizes at 1. rewrite enumerate_range.
  unfold np_zeros_like. rewrite <- (enumerate_length (data m) 0).
  rewrite <- (length_map (fun iv => label_at m (fst iv))).
  rewrite repeat_as_map.
  rewrite keep_large_fold. cbn [fst].
  unfold cleaned. f_equal. rewrite map_map. apply map_ext. intro iv.
  rewrite existsb_kept. reflexivity.
Qed.

Lemma num_components_pos (m : ndarray) :
  (0 <? num_components m) = negb (num_components m =? 0).
Proof. pose proof (num_components_nonneg m). zbool. Qed.

Lemma worker_fill_loop (mask : ref) (total_slices : nat) :
  forall (zs : list nat) (h : list ndarray) (em : list (Z * message)),
    for_each zs
      (fun (_ : unit) z =>
         bind (if (z mod 10 =? 0)%nat
               then emit (progress_pct z total_slices) (MsgFillHoles z total_slices)
               else ret tt)
              (fun _ =>
                 bind (load mask) (fun m =>
                   if np_any (get_slice m z) then
                     let '(_, hh, w) := shape m in
                     store mask
                       (set_slice m z
                          (map Z.b2z (binary_fill_holes hh w (get_slice m z))))
                   else ret tt)))
      tt (mkState h em)
    = (Ok tt, mkState (fold_left (fill_step mask) zs h)
                      (em ++ fill_emits total_slices zs)).
Proof.
  induction zs as [|z zs IH]; intros h em.
  - simpl. rewrite app_nil_r. reflexivity.
  - cbn [for_each fold_left].
    assert (Hs : fill_step mask h z
                 = if np_any (get_slice (nth mask h empty_array) z)
                   then let '(_, hh, w) := shape (nth mask h empty_array) in
                        update h mask
                          (set_slice (nth mask h empty_array) z
                             (map Z.b2z
                                (binary_fill_holes hh w
                                   (get_slice (nth mask h empty_array) z))))
                   else h) by reflexivity.
    rewrite Hs. clear Hs.
    assert (He : fill_emits total_slices (z :: zs)
                 = (if (z mod 10 =? 0)%nat
                    then [(progress_pct z total_slices, MsgFillHoles z total_slices)]
                    else []) ++ fill_emits total_slices zs) by reflexivity.
    rewrite He. clear He.
    rewrite bind_unfold.
    destruct (z mod 10 =? 0)%nat.
    + rewrite bind_unfold. cbn [emit heap emitted].
      rewrite bind_unfold. cbn [load heap].
      change (deref {| heap := h;
                       emitted := em ++ [(progress_pct z total_slices,
                                          MsgFillHoles z total_slices)] |} mask)
        with (nth mask h empty_array).
      destruct (np_any (get_slice (nth mask h empty_array) z)).
      * destruct (shape (nth mask h empty_array)) as [[d hh] w].
        cbn [store heap emitted]. rewrite IH. rewrite <- app_assoc. reflexivity.
      * cbn [ret]. rewrite IH. rewrite <- app_assoc. reflexivity.
    + rewrite bind_unfold. cbn [ret].
      rewrite bind_unfold. cbn [load heap].
      change (deref {| heap := h; emitted := em |} mask)
        with (nth mask h empty_array).
      destruct (np_any (get_slice (nth mask h empty_array) z)).
      * destruct (shape (nth mask h empty_array)) as [[d hh] w].
        cbn [store heap emitted]. rewrite IH. reflexivity.
      * cbn [ret]. rewrite IH. reflexivity.
Qed.

End WorkerFacts.

(* ================================================================= *)
(** ** The worker against [refine_mask] *)

Section Refinement.
Import Numpy Runtime Processing Workers Stage3 Stage4.
Context {ops : Ndimage}.
Local Open Scope string_scope.
Local Open Scope list_scope.
Local Open Scope Z_scope.

Lemma num_zero_any (a : ndarray) :
  (num_components a =? 0) = true -> np_any (data a) = false.
Proof.
  intro H. rewrite np_any_components in H. apply negb_true_iff in H. exact H.
Qed.

(** Reading the store at the array allocated last. *)
Ltac at_last := unfold deref; cbn [heap]; rewrite ?nth_middle.

(** The array that reaches the end of the pipeline holds [0]s and [1]s. *)
Ltac bits_tac :=
  try apply fill_loop_bits; rewrite ?nth_middle;
  first [apply cleaned_bits | apply empty_bits; apply num_zero_any; assumption].

(** Stages 3 and 4 and the final statistics, on both sides at once. *)
Ltac tail :=
  repeat pystep; rewrite remove_small_components_run; at_last;
  rewrite ndimage_label_eq; pyprim; rewrite num_components_pos;
  match goal with
  | |- context [num_components ?X =? 0] => destruct (num_components X =? 0) eqn:En
  end;
  cbn [negb]; try rewrite worker_cleaned; repeat pystep;
  match goal with
  | |- context [get ?f false] => destruct (get f false)
  end;
  repeat pystep;
  try (rewrite fill_holes_run; repeat pystep; at_last;
       rewrite worker_fill_loop; repeat pystep);
  at_last;
  rewrite astype_bits by bits_tac;
  repeat split; reflexivity.

(** C10.  On the same store and inputs, [_refine_with_progress] and
    [refine_mask] either both fail, with the same exception, or both
    return: then they leave the same arrays in the store, return the same
    refined mask, and agree on [base_count], [final_count],
    [improvement_percent], [volume_ml] and [params]; the worker records
    no [steps]. *)
Theorem worker_agrees_with_refine_mask (self : MaskRefinementWorker) (st : state) :
  let '(r1, st1) := _refine_with_progress self st in
  let '(r2, st2) :=
    refine_mask (base_mask self) (volume self) (spacing self) (worker_params self) st in
  heap st1 = heap st2
  /\ match r1, r2 with
     | Ok (mask1, stats1), Ok (mask2, stats2) =>
         mask1 = mask2
         /\ deref st1 mask1 = deref st2 mask2
         /\ base_count stats1 = base_count stats2
         /\ final_count stats1 = final_count stats2
         /\ improvement_percent stats1 = improvement_percent stats2
         /\ volume_ml stats1 = volume_ml stats2
         /\ params_copy stats1 = params_copy stats2
         /\ steps stats1 = []
     | Raise e1, Raise e2 => e1 = e2
     | _, _ => False
     end.
Proof.
  destruct st as [h em]. destruct self as [bm vol sp [lo hi it cs fh] ok].
  unfold _refine_with_progress, refine_mask.
  cbn [base_mask volume spacing worker_params hu_min hu_max dilation_iter
       closing_size fill_holes].
  repeat pystep. rewrite !deref_alloc.
  set (b := deref (mkState h em) bm).
  (* step 1 *)
  destruct (0 <? get it 0) eqn:Hit.
  - destruct lo as [lo|]; [|repeat pystep; split; reflexivity].
    destruct hi as [hi|]; [|repeat pystep; split; reflexivity].
    destruct it as [it|]; [|discriminate Hit].
    repeat pystep. rewrite hu_dilation_run. at_last.
    destruct (np_and _ _) as [r|]; [|repeat pystep; split; reflexivity].
    repeat pystep.
    (* step 2 *)
    destruct (1 <? get cs 1) eqn:Hcs.
    + destruct cs as [cs|]; [|discriminate Hcs].
      repeat pystep. rewrite closing_run. at_last. tail.
    + tail.
  - repeat pystep.
    destruct (1 <? get cs 1) eqn:Hcs.
    + destruct cs as [cs|]; [|discriminate Hcs].
      repeat pystep. rewrite closing_run. at_last. tail.
    + tail.
Qed.

End Refinement.

(* ================================================================= *)
(** ** [refine_mask] and the caller's arrays *)

Section Frame.
Import Numpy Float64 Runtime Processing Workers Stage3 Stage4.
Context {ops : Ndimage}.
Local Open Scope string_scope.
Local Open Scope list_scope.
Local Open Scope Z_scope.

Lemma firstn_app_le {A : Type} (n : nat) (l l' : list A) :
  (n <= length l)%nat -> firstn n (l ++ l') = firstn n l.
Proof.
  intro H. rewrite firstn_app.
  replace (n - length l)%nat with O by lia.
  simpl. apply app_nil_r.
Qed.

Lemma nth_prefix {A : Type} (h H : list A) (i : nat) (d : A) :
  firstn (length h) H = h -> (i < length h)%nat -> nth i H d = nth i h d.
Proof.
  intros E Hi.
  assert (Hn : nth i (firstn (length h) H) d = nth i H d).
  { rewrite nth_firstn. destruct (Nat.ltb_spec i (length h)); [reflexivity|lia]. }
  rewrite E in Hn. symmetry. exact Hn.
Qed.

(** [_fill_holes_2d] returns the array it was given, after writing into
    it; no other array is touched. *)
Lemma fill_holes_in_place (mask : ref) (st : state) :
  (exists d, fst (_fill_holes_2d mask st) = Ok (mask, d))
  /\ length (heap (snd (_fill_holes_2d mask st))) = length (heap st)
  /\ forall r, r <> mask ->
               deref (snd (_fill_holes_2d mask st)) r = deref st r.
Proof.
  destruct st as [h em]. rewrite fill_holes_run. cbn [fst snd heap].
  split; [eexists; reflexivity|]. split; [apply fill_loop_length|].
  intros r Hr. unfold deref. cbn [heap].
  generalize (seq 0 (fst (fst (shape (nth mask h empty_array))))). intro zs.
  revert h. induction zs as [|z zs IH]; intro h; simpl; [reflexivity|].
  rewrite IH. apply fill_step_other. exact Hr.
Qed.

Ltac len_tac :=
  repeat first [rewrite length_app | rewrite fill_loop_length]; simpl; lia.

(** The caller's part of the store is a prefix that stays as it was. *)
Ltac prefix_tac :=
  repeat first [rewrite firstn_app_le by len_tac
               | rewrite fill_loop_firstn by len_tac];
  apply firstn_all.

Ltac frame_leaf :=
  cbn [heap];
  split; [unfold deref; cbn [heap]; apply nth_prefix; [prefix_tac|assumption]|];
  split; [prefix_tac|];
  lazymatch goal with
  | |- True => exact I
  | |- _ => split; [len_tac|]; split; len_tac
  end.

Ltac frame_tail :=
  repeat pystep; rewrite remove_small_components_run;
  match goal with
  | |- context [num_components ?X =? 0] => destruct (num_components X =? 0)
  end;
  repeat pystep;
  match goal with
  | |- context [get ?f false] => destruct (get f false)
  end;
  repeat pystep;
  try (rewrite fill_holes_run; repeat pystep);
  frame_leaf.

(** C8.  Whatever the parameters, and whether it returns or raises,
    [refine_mask] leaves the caller's mask, and every other array that
    existed before the call, as it was; the refined mask it returns is a
    new array.  All writes of the hole filling go to arrays created
    during the call. *)
Theorem refine_mask_keeps_input (st : state) (base_mask volume : ref)
        (spacing : float * float * float) (p : params) :
  (base_mask < length (heap st))%nat ->
  let '(r, st') := refine_mask base_mask volume spacing p st in
  deref st' base_mask = deref st base_mask
  /\ firstn (length (heap st)) (heap st') = heap st
  /\ match r with
     | Ok (out, _) =>
         (length (heap st) <= out)%nat
         /\ (out < length (heap st'))%nat
         /\ out <> base_mask
     | Raise _ => True
     end.
Proof.
  destruct st as [h em]. destruct p as [lo hi it cs fh]. cbn [heap].
  intro Hb. unfold refine_mask.
  cbn [hu_min hu_max dilation_iter closing_size fill_holes].
  repeat pystep.
  destruct (0 <? get it 0) eqn:Hit.
  - destruct lo as [lo|]; [|repeat pystep; frame_leaf].
    destruct hi as [hi|]; [|repeat pystep; frame_leaf].
    destruct it as [it|]; [|discriminate Hit].
    repeat pystep. rewrite hu_dilation_run.
    destruct (np_and _ _) as [r|]; [|repeat pystep; frame_leaf].
    repeat pystep.
    destruct (1 <? get cs 1) eqn:Hcs.
    + destruct cs as [cs|]; [|discriminate Hcs].
      repeat pystep. rewrite closing_run. frame_tail.
    + frame_tail.
  - repeat pystep.
    destruct (1 <? get cs 1) eqn:Hcs.
    + destruct cs as [cs|]; [|discriminate Hcs].
      repeat pystep. rewrite closing_run. frame_tail.
    + frame_tail.
Qed.

End Frame.

(* ================================================================= *)
(** ** Shapes, statistics and idempotence *)

Section PipelineSpec.
Import Numpy Float64 Runtime Processing Workers Stage3 Stage4.
Context {ops : Ndimage}.
Local Open Scope string_scope.
Local Open Scope list_scope.
Local Open Scope Z_scope.

Lemma shape_eqb_false (s t : nat * nat * nat) : s <> t -> shape_eqb s t = false.
Proof.
  destruct s as [[d1 h1] w1], t as [[d2 h2] w2]. intro H. unfold shape_eqb.
  destruct (Nat.eqb_spec d1 d2); [|reflexivity].
  destruct (Nat.eqb_spec h1 h2); [|reflexivity].
  destruct (Nat.eqb_spec w1 w2); [|reflexivity].
  subst. contradiction.
Qed.

Ltac returns_tail :=
  repeat pystep; rewrite remove_small_components_run;
  match goal with
  | |- context [num_components ?X =? 0] => destruct (num_components X =? 0)
  end;
  repeat pystep;
  match goal with
  | |- context [get ?f false] => destruct (get f false)
  end;
  repeat pystep;
  try (rewrite fill_holes_run; repeat pystep);
  do 3 eexists; reflexivity.

Ltac returns_from_step2 :=
  repeat pystep;
  match goal with
  | |- context [1 <? get ?c 1] =>
      let H := fresh "Hcs" in
      destruct (1 <? get c 1) eqn:H;
      [destruct c as [?|]; [|discriminate H];
       repeat pystep; rewrite closing_run; returns_tail
      |returns_tail]
  end.

(** C2, amended.  [refine_mask] has no shape check of its own.  On a mask
    and a volume of different shapes
    - with HU dilation disabled ([dilation_iter] absent or [<= 0]) it
      never looks at the volume and returns a result;
    - with HU dilation enabled (and [hu_min], [hu_max] present) it fails,
      with numpy's [ValueError], exactly when the two shapes cannot be
      broadcast together, at [dilated & lung_tissue]; when they can, it
      returns a result. *)
Theorem refine_mask_shape_mismatch (st : state) (base_mask volume : ref)
        (spacing : float * float * float) (p : params) :
  (base_mask < length (heap st))%nat ->
  (volume < length (heap st))%nat ->
  shape (deref st base_mask) <> shape (deref st volume) ->
  (get (dilation_iter p) 0 <= 0 ->
   exists out stats st',
     refine_mask base_mask volume spacing p st = (Ok (out, stats), st'))
  /\ (0 < get (dilation_iter p) 0 -> hu_min p <> None -> hu_max p <> None ->
      (broadcast_shapes (shape (deref st base_mask)) (shape (deref st volume)) = None ->
       exists st',
         refine_mask base_mask volume spacing p st = (Raise ValueError, st'))
      /\ (broadcast_shapes (shape (deref st base_mask)) (shape (deref st volume)) <> None ->
          exists out stats st',
            refine_mask base_mask volume spacing p st = (Ok (out, stats), st'))).
Proof.
  destruct st as [h em]. destruct p as [lo hi it cs fh].
  cbn [heap hu_min hu_max dilation_iter closing_size fill_holes].
  intros Hb Hv Hs. unfold deref in Hs. cbn [heap] in Hs.
  split.
  - intro Hd. unfold refine_mask.
    cbn [hu_min hu_max dilation_iter closing_size fill_holes].
    repeat pystep.
    destruct (Z.ltb_spec 0 (get it 0)) as [Hlt|_]; [lia|].
    returns_from_step2.
  - intros Hd Hlo Hhi.
    destruct lo as [lo|]; [|contradiction].
    destruct hi as [hi|]; [|contradiction].
    destruct it as [it|]; [|simpl in Hd; lia].
    simpl in Hd.
    assert (Hrun : forall T (k1 : ndarray -> T) (k2 : T),
               match np_and
                       (of_bools (shape (nth (length h)
                                           (h ++ [nth base_mask h empty_array])
                                           empty_array))
                          (binary_dilation
                             (nth (length h) (h ++ [nth base_mask h empty_array])
                                  empty_array) it))
                       (mkArray
                          (shape (nth volume (h ++ [nth base_mask h empty_array])
                                      empty_array))
                          (map (fun x => Z.b2z (in_hu_range lo hi x))
                               (data (nth volume (h ++ [nth base_mask h empty_array])
                                          empty_array))))
               with Some r => k1 r | None => k2 end
               = match broadcast_shapes (shape (nth base_mask h empty_array))
                                        (shape (nth volume h empty_array))
                 with
                 | Some s =>
                     k1 (mkArray s
                           (map2 Z.land
                              (data (broadcast_to
                                       (of_bools (shape (nth base_mask h empty_array))
                                          (binary_dilation
                                             (nth base_mask h empty_array) it)) s))
                              (data (broadcast_to
                                       (mkArray (shape (nth volume h empty_array))
                                          (map (fun x => Z.b2z (in_hu_range lo hi x))
                                               (data (nth volume h empty_array)))) s))))
                 | None => k2
                 end).
    { intros T k1 k2. rewrite nth_middle. rewrite (app_nth1 h _ _ Hv).
      unfold np_and. cbn [shape of_bools].
      rewrite (shape_eqb_false _ _ Hs).
      destruct (broadcast_shapes _ _); reflexivity. }
    unfold deref. cbn [heap].
    split.
    + intro Hbc. unfold refine_mask.
      cbn [hu_min hu_max dilation_iter closing_size fill_holes].
      repeat pystep. unfold deref. cbn [heap].
      destruct (Z.ltb_spec 0 it) as [_|Hge]; [|lia].
      repeat pystep. rewrite hu_dilation_run. rewrite Hrun, Hbc.
      repeat pystep. eexists. reflexivity.
    + intro Hbc. unfold refine_mask.
      cbn [hu_min hu_max dilation_iter closing_size fill_holes].
      repeat pystep. unfold deref. cbn [heap].
      destruct (Z.ltb_spec 0 it) as [_|Hge]; [|lia].
      repeat pystep. rewrite hu_dilation_run. rewrite Hrun.
      destruct (broadcast_shapes _ _) as [s|]; [|contradiction].
      returns_from_step2.
Qed.

(** C5.  Applying [_remove_small_components] to its own output gives the
    same mask as applying it once: both calls return, and the array the
    second call returns equals the array the first one returned. *)
Theorem remove_small_components_idempotent (st : state) (mask : ref) :
  binary (deref st mask) ->
  exists once d1 st1 twice d2 st2,
    _remove_small_components mask st = (Ok (once, d1), st1)
    /\ _remove_small_components once st1 = (Ok (twice, d2), st2)
    /\ deref st2 twice = deref st1 once.
Proof.
  intro Hb. destruct st as [h em].
  set (m := deref (mkState h em) mask) in *.
  rewrite remove_small_components_run. fold m.
  rewrite np_any_components.
  destruct (np_any (data m)) eqn:Ha; cbn [negb].
  - exists (length h), (cleaned_stats m), (mkState (h ++ [cleaned m]) em).
    rewrite remove_small_components_run. rewrite deref_alloc.
    rewrite np_any_components.
    rewrite (cleaned_nonempty m Hb Ha). cbn [negb].
    do 3 eexists. split; [reflexivity|]. split; [reflexivity|].
    cbn [heap]. rewrite (deref_alloc (h ++ [cleaned m])).
    apply cleaned_idempotent; assumption.
  - exists mask, (empty_stats m), (mkState h em).
    rewrite remove_small_components_run. fold m.
    rewrite np_any_components, Ha. cbn [negb].
    do 3 eexists. split; [reflexivity|]. split; reflexivity.
Qed.

End PipelineSpec.

(* ################################################################# *)
(** * Part III: the properties on sample data *)

Section Samples.
Import Numpy Float64 Runtime Processing Workers Stage3 Stage4 Reference MoreSamples.
Local Open Scope string_scope.
Local Open Scope list_scope.
Local Open Scope Z_scope.

(** C2, as stated, at the ring and the short volume: the shapes differ,
    the shape of the ring is [(1, 3, 3)] and that of the volume
    [(1, 1, 2)], and [refine_mask] returns a result. *)
Lemma refine_mask_accepts_shape_mismatch :
  shape (deref ring_store 0%nat) <> shape (deref ring_store 2%nat)
  /\ exists out stats st',
       refine_mask 0%nat 2%nat unit_spacing no_stage ring_store = (Ok (out, stats), st').
Proof.
  split; [discriminate|].
  do 3 eexists. vm_compute. reflexivity.
Qed.

(** C2, amended, at the ring: against the short volume, whose shape cannot
    be broadcast to the ring's, [refine_mask] returns with dilation
    disabled and raises [ValueError] with one iteration of dilation. *)
Lemma refine_mask_shape_mismatch_witness :
  shape (deref ring_store 0%nat) <> shape (deref ring_store 2%nat)
  /\ (exists out stats st',
         refine_mask 0%nat 2%nat unit_spacing no_stage ring_store
         = (Ok (out, stats), st'))
  /\ (exists st',
         refine_mask 0%nat 2%nat unit_spacing dilate_and_fill ring_store
         = (Raise ValueError, st')).
Proof.
  assert (Hs : shape (deref ring_store 0%nat) <> shape (deref ring_store 2%nat))
    by discriminate.
  assert (H0 : (0 < length (heap ring_store))%nat) by (simpl; lia).
  assert (H2 : (2 < length (heap ring_store))%nat) by (simpl; lia).
  split; [exact Hs|]. split.
  - destruct (refine_mask_shape_mismatch ring_store 0%nat 2%nat unit_spacing
                no_stage H0 H2 Hs) as [Hoff _].
    apply Hoff. simpl. lia.
  - destruct (refine_mask_shape_mismatch ring_store 0%nat 2%nat unit_spacing
                dilate_and_fill H0 H2 Hs) as [_ Hon].
    destruct Hon as [Hraise _]; [simpl; lia | discriminate | discriminate |].
    apply Hraise. reflexivity.
Defined.

(** C3 on two masks of 6 x 11 x 20 voxels: a block of 950 voxels with a
    line of 10 voxels, and the same block with a line of 9 voxels. *)
Lemma remove_small_components_spec_witness :
  binary (block_and_line 10)
  /\ binary (block_and_line 9)
  /\ (exists d,
         fst (_remove_small_components 0%nat (mkState [block_and_line 10] []))
         = Ok (1%nat, d)
         /\ lookup "components_kept" d = Some 2
         /\ lookup "voxels_removed" d = Some 0)
  /\ (exists d,
         fst (_remove_small_components 0%nat (mkState [block_and_line 9] []))
         = Ok (1%nat, d)
         /\ lookup "voxels_removed" d = Some 9).
Proof.
  assert (Hb10 : binary (block_and_line 10))
    by (apply binary_forallb; vm_compute; reflexivity).
  assert (Hb9 : binary (block_and_line 9))
    by (apply binary_forallb; vm_compute; reflexivity).
  split; [exact Hb10|]. split; [exact Hb9|]. split.
  - destruct (remove_small_components_spec (mkState [block_and_line 10] []) 0%nat Hb10)
      as (_ & _ & _ & _ & _ & _ & _ & Hrun).
    destruct Hrun as (d & Hd & _ & _ & _ & _ & H10 & _);
      [vm_compute; reflexivity|].
    exists d. rewrite Hd. split; [reflexivity|].
    apply H10.
    assert (E : component_sizes (deref (mkState [block_and_line 10] []) 0%nat) = [950; 10])
      by (rewrite component_sizes_run; vm_compute; reflexivity).
    rewrite E. apply Permutation_refl.
  - destruct (remove_small_components_spec (mkState [block_and_line 9] []) 0%nat Hb9)
      as (_ & _ & _ & _ & _ & _ & _ & Hrun).
    destruct Hrun as (d & Hd & _ & _ & _ & _ & _ & H9);
      [vm_compute; reflexivity|].
    exists d. rewrite Hd. split; [reflexivity|].
    apply H9.
    assert (E : component_sizes (deref (mkState [block_and_line 9] []) 0%nat) = [950; 9])
      by (rewrite component_sizes_run; vm_compute; reflexivity).
    rewrite E. apply Permutation_refl.
Defined.

(** C4 on the block of 950 voxels with a line of 9 voxels beside it. *)
Lemma refine_all_disabled_witness :
  Forall (fun v => 0 <= v) (data (deref speckled_store 0%nat))
  /\ exists out stats st' mask d st1,
       refine_mask 0%nat 1%nat unit_spacing
         (mkParams None None (Some 0) (Some 1) (Some false)) speckled_store
       = (Ok (out, stats), st')
       /\ map name (steps stats) = ["Noise Removal"]
       /\ final_count stats <= base_count stats
       /\ _remove_small_components (length (heap speckled_store))
            (mkState (heap speckled_store ++ [deref speckled_store 0%nat])
                     (emitted speckled_store))
          = (Ok (mask, d), st1)
       /\ steps stats = [mkStep "Noise Removal" d]
       /\ deref st' out = astype_uint8 (deref st1 mask)
       /\ st' = mkState (heap st1 ++ [astype_uint8 (deref st1 mask)]) (emitted st1)
       /\ base_count stats = np_sum (deref speckled_store 0%nat)
       /\ final_count stats = np_sum (deref st' out)
       /\ lookup "voxels_before" d = Some (base_count stats)
       /\ lookup "voxels_after" d = Some (final_count stats).
Proof.
  assert (Hn : Forall (fun v => 0 <= v) (data (deref speckled_store 0%nat))).
  { assert (Hb : binary (block_and_line 9))
      by (apply binary_forallb; vm_compute; reflexivity).
    eapply Forall_impl; [|exact Hb]. cbv beta. intros v [->| ->]; lia. }
  split; [exact Hn|].
  apply (refine_all_disabled speckled_store 0%nat 1%nat unit_spacing None None Hn).
Defined.

(** The same run, evaluated: the line of 9 voxels is removed, and nothing
    else. *)
Example refine_speckled :
  match refine_mask 0%nat 1%nat unit_spacing all_disabled speckled_store with
  | (Ok (out, stats), st') =>
      base_count stats = 959
      /\ final_count stats = 950
      /\ steps stats
         = [mkStep "Noise Removal"
              [("voxels_before", 959); ("voxels_after", 950); ("voxels_removed", 9);
               ("components_total", 2); ("components_kept", 1);
               ("components_removed", 1)]]
      /\ deref st' out = block_and_line 0
  | (Raise _, _) => False
  end.
Proof. vm_compute. repeat split; reflexivity. Qed.

(** C5 on the ring. *)
Lemma remove_small_components_idempotent_witness :
  binary (deref ring_store 0%nat)
  /\ exists once d1 st1 twice d2 st2,
       _remove_small_components 0%nat ring_store = (Ok (once, d1), st1)
       /\ _remove_small_components once st1 = (Ok (twice, d2), st2)
       /\ deref st2 twice = deref st1 once.
Proof.
  assert (Hb : binary (deref ring_store 0%nat))
    by (apply binary_forallb; reflexivity).
  split; [exact Hb|].
  apply (remove_small_components_idempotent ring_store 0%nat Hb).
Defined.

(** Why idempotence is stated for masks: [ndimage.sum] adds up values, so
    on an array with a voxel of value [2] the first pass sees sizes 150
    and 2 and keeps both components, writing [1] for the second; the
    second pass sees sizes 150 and 1 and removes it. *)
Example remove_small_components_weighted :
  let '(r1, st1) := _remove_small_components 0%nat (mkState [weighted_line] []) in
  match r1 with
  | Ok (once, _) =>
      let '(r2, st2) := _remove_small_components once st1 in
      match r2 with
      | Ok (twice, _) =>
          data (deref st1 once) = repeat 1 150 ++ [0; 1]
          /\ data (deref st2 twice) = repeat 1 150 ++ [0; 0]
      | Raise _ => False
      end
  | Raise _ => False
  end.
Proof.
  vm_compute. split; reflexivity.
Qed.

(** C8 on the ring, with dilation and hole filling enabled. *)
Lemma refine_mask_keeps_input_witness :
  (0 < length (heap ring_store))%nat
  /\ let '(r, st') := refine_mask 0%nat 1%nat unit_spacing dilate_and_fill ring_store in
     deref st' 0%nat = deref ring_store 0%nat
     /\ firstn (length (heap ring_store)) (heap st') = heap ring_store
     /\ match r with
        | Ok (out, _) =>
            (length (heap ring_store) <= out)%nat
            /\ (out < length (heap st'))%nat
            /\ out <> 0%nat
        | Raise _ => True
        end.
Proof.
  assert (Hv : (0 < length (heap ring_store))%nat) by (simpl; lia).
  split; [exact Hv|].
  apply (refine_mask_keeps_input ring_store 0%nat 1%nat unit_spacing dilate_and_fill Hv).
Defined.

(** The pipeline on the ring, with dilation and hole filling: the hole is
    filled in the returned mask, the voxel whose intensity is outside the
    HU range is dropped, and the ring in the caller's store still has its
    hole. *)
Example refine_ring :
  let '(r, st') := refine_mask 0%nat 1%nat unit_spacing dilate_and_fill ring_store in
  (exists stats,
      r = Ok (6%nat, stats)
      /\ map name (steps stats) = ["HU Dilation"; "Noise Removal"; "Hole Filling"]
      /\ base_count stats = 8 /\ final_count stats = 8
      /\ improvement_percent stats = PyFloat (literal 0)
      /\ volume_ml stats = literal (8 # 1000))
  /\ data (deref st' 6%nat) = [1; 1; 1; 1; 1; 1; 1; 1; 0]
  /\ deref st' 0%nat = ring.
Proof.
  vm_compute. split; [|split; reflexivity].
  eexists. repeat split.
Qed.

(** The worker on the same input: the same mask at the same place in the
    store, and the progress signals it emits on the way. *)
Example worker_ring :
  let '(r, st') :=
    _refine_with_progress (mkWorker 0%nat 1%nat unit_spacing dilate_and_fill "lung")
                          ring_store in
  (exists stats, r = Ok (6%nat, stats) /\ steps stats = [] /\ final_count stats = 8)
  /\ data (deref st' 6%nat) = [1; 1; 1; 1; 1; 1; 1; 1; 0]
  /\ map fst (emitted st') = [20; 60; 80; 95].
Proof.
  vm_compute. split; [|split; reflexivity].
  eexists. repeat split.
Qed.

End Samples.

(* ################################################################# *)
(** * Part IV: further properties of the code *)

(* ================================================================= *)
(** ** The combined ROI *)

Section RoiMore.
Import RoiSelector RoiGeometry.

(** X1.  When both ROIs are set, [get_combined_roi_coords] returns a box
    whose lower ends are never negative and whose upper ends never exceed
    the last index of their axis, whatever the rectangles and the volume
    shape are. *)
Theorem combined_roi_ends_clamped (r1 r2 : roi) (depth height width : Z) :
  exists z0 z1 y0 y1 x0 x1,
    get_combined_roi_coords (mkROIManager (Some r1) (Some r2)) (depth, height, width)
    = inr (z0, z1, y0, y1, x0, x1)
    /\ 0 <= z0 /\ z1 <= depth - 1
    /\ 0 <= y0 /\ y1 <= height - 1
    /\ 0 <= x0 /\ x1 <= width - 1.
Proof.
  destruct r1 as [[[[za ya0] ya1] xa0] xa1].
  destruct r2 as [[[[zb yb0] yb1] xb0] xb1].
  do 6 eexists. split; [reflexivity|]. lia.
Qed.

(** X2.  Every voxel of the volume that lies in one of the two rectangles,
    on its slice, lies in the combined box. *)
Theorem combined_roi_covers (r1 r2 : roi) (volume_shape : Z * Z * Z) (z y x : Z) :
  in_shape volume_shape z y x ->
  in_roi r1 z y x \/ in_roi r2 z y x ->
  exists box,
    get_combined_roi_coords (mkROIManager (Some r1) (Some r2)) volume_shape = inr box
    /\ in_box box z y x.
Proof.
  destruct volume_shape as [[depth height] width].
  destruct r1 as [[[[za ya0] ya1] xa0] xa1].
  destruct r2 as [[[[zb yb0] yb1] xb0] xb1].
  unfold in_shape, in_roi. intros Hs Hr.
  eexists. split; [reflexivity|]. unfold in_box.
  destruct Hr as [(-> & Hy & Hx) | (-> & Hy & Hx)]; repeat split; lia.
Qed.

(** X3.  The combined box does not depend on which rectangle was drawn
    first: exchanging ROI 1 and ROI 2 gives the same result. *)
Theorem combined_roi_order_independent (m : ROIManager) (volume_shape : Z * Z * Z) :
  get_combined_roi_coords (mkROIManager (roi2_3d m) (roi1_3d m)) volume_shape
  = get_combined_roi_coords m volume_shape.
Proof.
  destruct m as [[r1|] [r2|]]; try reflexivity.
  destruct volume_shape as [[depth height] width].
  destruct r1 as [[[[za ya0] ya1] xa0] xa1].
  destruct r2 as [[[[zb yb0] yb1] xb0] xb1].
  cbn [get_combined_roi_coords has_both_rois roi1_3d roi2_3d negb].
  rewrite (Z.min_comm xb0 xa0), (Z.max_comm xb1 xa1),
          (Z.min_comm yb0 ya0), (Z.max_comm yb1 ya1),
          (Z.min_comm zb za), (Z.max_comm zb za).
  reflexivity.
Qed.

(** X4.  [get_combined_roi_coords] raises [ValueError] exactly when a ROI
    is missing.  After [reset] it raises whatever had been set before, and
    it returns as soon as [set_roi1] and [set_roi2] have both been called,
    in either order. *)
Theorem combined_roi_needs_both (m : ROIManager) (volume_shape : Z * Z * Z)
        (z x_min x_max y_min y_max z' x_min' x_max' y_min' y_max' : Z) :
  (get_combined_roi_coords m volume_shape = inl ValueError
   <-> roi1_3d m = None \/ roi2_3d m = None)
  /\ get_combined_roi_coords (reset m) volume_shape = inl ValueError
  /\ get_combined_roi_coords (set_roi1 (reset m) z x_min x_max y_min y_max) volume_shape
     = inl ValueError
  /\ get_combined_roi_coords (set_roi2 (reset m) z x_min x_max y_min y_max) volume_shape
     = inl ValueError
  /\ get_combined_roi_coords
       (set_roi2 (set_roi1 m z x_min x_max y_min y_max) z' x_min' x_max' y_min' y_max')
       volume_shape
     = get_combined_roi_coords
         (set_roi1 (set_roi2 m z' x_min' x_max' y_min' y_max') z x_min x_max y_min y_max)
         volume_shape
  /\ exists box,
       get_combined_roi_coords
         (set_roi2 (set_roi1 m z x_min x_max y_min y_max) z' x_min' x_max' y_min' y_max')
         volume_shape
       = inr box.
Proof.
  destruct volume_shape as [[depth height] width].
  split.
  { destruct m as [[r1|] [r2|]]; cbn.
    - destruct r1 as [[[[za ya0] ya1] xa0] xa1].
      destruct r2 as [[[[zb yb0] yb1] xb0] xb1].
      split; [discriminate|]. intros [H|H]; discriminate.
    - split; auto.
    - split; auto.
    - split; auto. }
  split; [reflexivity|]. split; [reflexivity|]. split; [reflexivity|].
  split; [reflexivity|]. eexists. reflexivity.
Qed.

End RoiMore.

(* ================================================================= *)
(** ** The widgets after a transition *)

Section WidgetFacts.
Import StateManager Widgets.
Local Open Scope string_scope.

Lemma find_set_enabled_in (ws : list (string * widget)) (n n' : string) (en : bool) :
  find_widget (set_enabled_in ws n en) n'
  = if String.eqb n n'
    then option_map (fun w => if has_setEnabled w then mkWidget true en else w)
                    (find_widget ws n')
    else find_widget ws n'.
Proof.
  induction ws as [|[k w] ws IH]; simpl.
  - destruct (String.eqb n n'); reflexivity.
  - destruct (String.eqb_spec k n) as [E|E].
    + subst k. simpl.
      destruct (String.eqb_spec n n') as [E'|E']; reflexivity.
    + simpl. destruct (String.eqb_spec k n') as [E'|E'].
      * subst k. destruct (String.eqb_spec n n') as [E2|E2]; [congruence|reflexivity].
      * exact IH.
Qed.

Lemma names_set_enabled_in (ws : list (string * widget)) (n : string) (en : bool) :
  map fst (set_enabled_in ws n en) = map fst ws.
Proof.
  induction ws as [|[k w] ws IH]; simpl; [reflexivity|].
  destruct (String.eqb k n); simpl; [reflexivity|]. rewrite IH. reflexivity.
Qed.

Lemma find_set_all (l : list (string * bool)) :
  forall (m : UIStateManager) (n : string),
    find_widget (_widgets (set_all m l)) n
    = option_map (settle (last_setting l n)) (find_widget (_widgets m) n).
Proof.
  induction l as [|[k en] l IH]; intros m n.
  - simpl. destruct (find_widget _ _); reflexivity.
  - change (set_all m ((k, en) :: l)) with (set_all (_set_widget_enabled m k en) l).
    rewrite IH. cbn [_set_widget_enabled _widgets].
    rewrite find_set_enabled_in. cbn [last_setting].
    destruct (last_setting l n) as [e|];
      destruct (String.eqb k n); destruct (find_widget (_widgets m) n) as [w|];
      simpl; try reflexivity;
      destruct (has_setEnabled w) eqn:Hh; simpl; rewrite ?Hh; reflexivity.
Qed.

Lemma names_set_all (l : list (string * bool)) :
  forall m : UIStateManager, map fst (_widgets (set_all m l)) = map fst (_widgets m).
Proof.
  induction l as [|[k en] l IH]; intro m; [reflexivity|].
  change (set_all m ((k, en) :: l)) with (set_all (_set_widget_enabled m k en) l).
  rewrite IH. apply names_set_enabled_in.
Qed.

Lemma apply_state_settings (m : UIStateManager) :
  _apply_state m = set_all m (settings (_current_state m)).
Proof. unfold _apply_state. destruct (_current_state m); reflexivity. Qed.

Lemma transition_widgets (m : UIStateManager) (s : UIState) :
  s <> _current_state m ->
  _widgets (transition_to m s)
  = _widgets (set_all (mkManager s (_widgets m) (_state_callbacks m)
                                 (trace m ++ [Printed (_current_state m) s]))
                      (settings s)).
Proof.
  intro H. unfold transition_to.
  destruct (UIState_eqb s (_current_state m)) eqn:E.
  - apply UIState_eqb_eq in E. contradiction.
  - cbn [_current_state _widgets _state_callbacks trace].
    rewrite apply_state_settings. cbn [_current_state].
    destruct (state_in s _); reflexivity.
Qed.

Lemma find_after_transition (m : UIStateManager) (s : UIState) (n : string) :
  s <> _current_state m ->
  find_widget (_widgets (transition_to m s)) n
  = option_map (settle (last_setting (settings s) n)) (find_widget (_widgets m) n).
Proof.
  intro H. rewrite transition_widgets by exact H. rewrite find_set_all. reflexivity.
Qed.

Lemma enabled_after_transition (m : UIStateManager) (s : UIState) (n : string)
      (en : bool) :
  s <> _current_state m -> registered m n ->
  last_setting (settings s) n = Some en ->
  is_enabled (transition_to m s) n = Some en.
Proof.
  intros H [w [Hw Hs]] Hl. unfold is_enabled.
  rewrite find_after_transition by exact H. rewrite Hw, Hl. simpl.
  rewrite Hs. reflexivity.
Qed.

Lemma last_setting_none (l : list (string * bool)) (n : string) :
  ~ In n (map fst l) -> last_setting l n = None.
Proof.
  induction l as [|[k en] l IH]; intro H; [reflexivity|].
  simpl in *. rewrite IH by tauto.
  destruct (String.eqb_spec k n); [tauto|reflexivity].
Qed.

Lemma settings_names (s : UIState) : incl (map fst (settings s)) (buttons ++ param_widgets)%list.
Proof.
  destruct s; intros n Hn; simpl in *; tauto.
Qed.

(** X5.  After a transition into any state but [ROI2_DEFINED], the load,
    refine and save buttons are enabled exactly when [can_load_dicom],
    [can_refine] and [can_save] hold; after a transition into any state
    but [ROI2_DEFINED] and [SAVING], the segment button is enabled exactly
    when [can_segment] holds. *)
Theorem buttons_follow_capabilities (m : UIStateManager) (s : UIState) :
  s <> _current_state m -> s <> ROI2_DEFINED ->
  let m' := transition_to m s in
  (registered m "btn_load" -> is_enabled m' "btn_load" = Some (can_load_dicom m'))
  /\ (registered m "btn_apply_refinement" ->
      is_enabled m' "btn_apply_refinement" = Some (can_refine m'))
  /\ (registered m "btn_save" -> is_enabled m' "btn_save" = Some (can_save m'))
  /\ (s <> SAVING -> registered m "btn_segment" ->
      is_enabled m' "btn_segment" = Some (can_segment m')).
Proof.
  intros Hs Hr m'.
  assert (Hc : _current_state m' = s) by apply transition_to_current.
  unfold can_load_dicom, can_refine, can_save, can_segment. rewrite Hc.
  repeat split; intros; apply enabled_after_transition; try assumption;
    destruct s; try reflexivity; contradiction.
Qed.

(** X6.  A transition never adds, removes or renames a widget; it leaves
    every widget alone that is not one of the sixteen names the state
    methods set, and every widget that has no [setEnabled] method. *)
Theorem transition_keeps_other_widgets (m : UIStateManager) (s : UIState) (n : string) :
  map fst (_widgets (transition_to m s)) = map fst (_widgets m)
  /\ (~ In n (buttons ++ param_widgets)%list ->
      find_widget (_widgets (transition_to m s)) n = find_widget (_widgets m) n)
  /\ (forall w, find_widget (_widgets m) n = Some w -> has_setEnabled w = false ->
                find_widget (_widgets (transition_to m s)) n = Some w).
Proof.
  destruct (UIState_eqb s (_current_state m)) eqn:E.
  - unfold transition_to. rewrite E. repeat split; auto.
  - assert (Hs : s <> _current_state m).
    { intro H. apply UIState_eqb_eq in H. congruence. }
    split; [|split].
    + rewrite transition_widgets by exact Hs. rewrite names_set_all. reflexivity.
    + intro Hn. rewrite find_after_transition by exact Hs.
      rewrite last_setting_none.
      * destruct (find_widget _ _); reflexivity.
      * intro Hin. apply Hn. apply (settings_names s). exact Hin.
    + intros w Hw Hse. rewrite find_after_transition by exact Hs. rewrite Hw.
      simpl. destruct (last_setting _ _); simpl; [rewrite Hse|]; reflexivity.
Qed.

(** X7.  Entering [ROI2_DEFINED] changes no widget at all, and entering
    [SAVING] changes only the load, save and refine buttons.  So a
    manager that goes from [MASK_READY] to [SAVING] keeps its segment
    button enabled although [can_segment] is false there, and one that
    goes from [MASK_READY] to [ROI2_DEFINED] keeps its save button enabled
    although [can_save] is false. *)
Theorem saving_and_roi2_keep_widgets (m : UIStateManager) :
  _widgets (transition_to m ROI2_DEFINED) = _widgets m
  /\ (forall n, n <> "btn_load" -> n <> "btn_save" -> n <> "btn_apply_refinement" ->
                find_widget (_widgets (transition_to m SAVING)) n
                = find_widget (_widgets m) n)
  /\ (_current_state m <> MASK_READY -> registered m "btn_segment" ->
      let m2 := transition_to (transition_to m MASK_READY) SAVING in
      is_enabled m2 "btn_segment" = Some true /\ can_segment m2 = false)
  /\ (_current_state m <> MASK_READY -> registered m "btn_save" ->
      let m2 := transition_to (transition_to m MASK_READY) ROI2_DEFINED in
      is_enabled m2 "btn_save" = Some true /\ can_save m2 = false).
Proof.
  split; [|split; [|split]].
  - unfold transition_to.
    destruct (UIState_eqb ROI2_DEFINED (_current_state m)); [reflexivity|].
    cbn [_current_state _widgets _state_callbacks trace _apply_state].
    match goal with |- context [if ?c then _ else _] => destruct c end; reflexivity.
  - intros n H1 H2 H3.
    destruct (UIState_eqb SAVING (_current_state m)) eqn:E.
    + unfold transition_to. rewrite E. reflexivity.
    + assert (Hs : SAVING <> _current_state m).
      { intro H. apply UIState_eqb_eq in H. congruence. }
      rewrite find_after_transition by exact Hs.
      assert (Hl : last_setting (settings SAVING) n = None).
      { apply last_setting_none. simpl. intuition congruence. }
      rewrite Hl. destruct (find_widget _ _); reflexivity.
  - intros Hs Hr m2.
    assert (H1 : is_enabled (transition_to m MASK_READY) "btn_segment" = Some true).
    { apply enabled_after_transition; auto. }
    assert (Hc : _current_state (transition_to m MASK_READY) = MASK_READY)
      by apply transition_to_current.
    split.
    + unfold m2, is_enabled in *.
      rewrite find_after_transition by (rewrite Hc; discriminate).
      destruct (find_widget (_widgets (transition_to m MASK_READY)) "btn_segment");
        [exact H1|discriminate].
    + unfold can_segment, m2. rewrite transition_to_current. reflexivity.
  - intros Hs Hr m2.
    assert (H1 : is_enabled (transition_to m MASK_READY) "btn_save" = Some true).
    { apply enabled_after_transition; auto. }
    assert (Hc : _current_state (transition_to m MASK_READY) = MASK_READY)
      by apply transition_to_current.
    split.
    + unfold m2, is_enabled in *.
      rewrite find_after_transition by (rewrite Hc; discriminate).
      destruct (find_widget (_widgets (transition_to m MASK_READY)) "btn_save");
        [exact H1|discriminate].
    + unfold can_save, m2. rewrite transition_to_current. reflexivity.
Qed.

(** X8.  While a segmentation or a refinement runs, every button and
    every refinement parameter the manager knows is disabled; only the
    slice slider stays enabled. *)
Theorem busy_states_disable_actions (m : UIStateManager) (s : UIState) (n : string) :
  s = SEGMENTING \/ s = REFINING ->
  s <> _current_state m ->
  In n (buttons ++ param_widgets)%list ->
  registered m n ->
  is_enabled (transition_to m s) n = Some (String.eqb n "slice_slider").
Proof.
  intros Hs Hc Hn Hr.
  apply enabled_after_transition; [exact Hc|exact Hr|].
  simpl in Hn.
  destruct Hs as [-> | ->];
    repeat (destruct Hn as [<- | Hn]; [reflexivity|]); contradiction.
Qed.

(** Asking twice for the same state is the same as asking once: the
    second request prints nothing, calls no callback and sets no widget;
    and a request for the current state does nothing. *)
Lemma transition_to_idempotent (m : UIStateManager) (s : UIState) :
  transition_to (transition_to m s) s = transition_to m s
  /\ transition_to m (_current_state m) = m.
Proof.
  assert (Hself : forall k, transition_to k (_current_state k) = k).
  { intro k. unfold transition_to.
    assert (E : UIState_eqb (_current_state k) (_current_state k) = true)
      by (apply UIState_eqb_eq; reflexivity).
    rewrite E. reflexivity. }
  split; [|apply Hself].
  pose proof (transition_to_current m s) as Hc.
  rewrite <- Hc at 2. apply Hself.
Qed.

End WidgetFacts.

(* ================================================================= *)
(** ** The mask metrics *)

Section MetricFacts.
Import Numpy Runtime Processing Stage4 Metrics.
Local Open Scope list_scope.
Local Open Scope Z_scope.

Lemma shape_eqb_refl (s : nat * nat * nat) : shape_eqb s s = true.
Proof.
  destruct s as [[d h] w]. unfold shape_eqb. rewrite !Nat.eqb_refl. reflexivity.
Qed.

Lemma and_same_shape (a b : ndarray) :
  shape a = shape b ->
  and_ a b = Ok (mkArray (shape a) (map2 Z.land (data a) (data b))).
Proof.
  intro H. unfold and_, np_and. rewrite H, shape_eqb_refl. reflexivity.
Qed.

Lemma map2_land_comm (l l' : list Z) : map2 Z.land l l' = map2 Z.land l' l.
Proof.
  revert l'. induction l as [|x l IH]; intros [|y l']; simpl; try reflexivity.
  rewrite Z.land_comm, IH. reflexivity.
Qed.

Lemma map2_land_diag (l : list Z) : map2 Z.land l l = l.
Proof.
  induction l as [|x l IH]; simpl; [reflexivity|].
  rewrite Z.land_diag, IH. reflexivity.
Qed.

Lemma land_bit (x y : Z) :
  0 <= x <= 1 -> 0 <= y <= 1 ->
  Z.land x y = (if (x =? 1) && (y =? 1) then 1 else 0).
Proof.
  intros Hx Hy.
  assert (Ex : x = 0 \/ x = 1) by lia. assert (Ey : y = 0 \/ y = 1) by lia.
  destruct Ex as [-> | ->], Ey as [-> | ->]; reflexivity.
Qed.

Lemma zsum_bits_nonneg (l : list Z) :
  Forall (fun v => 0 <= v <= 1) l -> 0 <= zsum l.
Proof.
  intro H. apply zsum_nonneg. rewrite Forall_forall in H.
  intros x Hx. apply H in Hx. lia.
Qed.

(** The overlap of two 0/1 lists is counted in each of them. *)
Lemma zsum_land_le (l l' : list Z) :
  Forall (fun v => 0 <= v <= 1) l -> Forall (fun v => 0 <= v <= 1) l' ->
  0 <= zsum (map2 Z.land l l') /\ zsum (map2 Z.land l l') <= zsum l
  /\ zsum (map2 Z.land l l') <= zsum l'.
Proof.
  intro H. revert l'. induction H as [|x l Hx Hl IH]; intros l' H'.
  - simpl. pose proof (zsum_bits_nonneg l' H'). lia.
  - destruct H' as [|y l' Hy Hl'].
    + simpl. pose proof (zsum_bits_nonneg l Hl). lia.
    + simpl. specialize (IH l' Hl'). rewrite (land_bit x y Hx Hy).
      destruct ((x =? 1) && (y =? 1)) eqn:E; [|lia].
      apply andb_true_iff in E. destruct E as [E1 E2].
      apply Z.eqb_eq in E1, E2. lia.
Qed.

(** The overlap fills both lists only when they are the same list. *)
Lemma zsum_land_full (l l' : list Z) :
  Forall (fun v => 0 <= v <= 1) l -> Forall (fun v => 0 <= v <= 1) l' ->
  length l = length l' ->
  2 * zsum (map2 Z.land l l') = zsum l + zsum l' -> l = l'.
Proof.
  intro H. revert l'. induction H as [|x l Hx Hl IH]; intros l' H' Hlen Hsum.
  - destruct l'; [reflexivity|discriminate].
  - destruct H' as [|y l' Hy Hl']; [discriminate|].
    cbn [map2 length] in Hlen, Hsum.
    change (zsum (Z.land x y :: map2 Z.land l l'))
      with (Z.land x y + zsum (map2 Z.land l l')) in Hsum.
    change (zsum (x :: l)) with (x + zsum l) in Hsum.
    change (zsum (y :: l')) with (y + zsum l') in Hsum.
    pose proof (zsum_land_le l l' Hl Hl') as (H0 & H1 & H2).
    rewrite (land_bit x y Hx Hy) in Hsum.
    destruct ((x =? 1) && (y =? 1)) eqn:E.
    + apply andb_true_iff in E. destruct E as [E1 E2].
      apply Z.eqb_eq in E1, E2. subst x y.
      f_equal. apply IH; [exact Hl'|lia|lia].
    + assert (x = 0 /\ y = 0) as [-> ->].
      { apply andb_false_iff in E. destruct E as [E|E]; apply Z.eqb_neq in E; lia. }
      f_equal. apply IH; [exact Hl'|lia|lia].
Qed.

Lemma zsum_bits_zero (l : list Z) :
  Forall (fun v => 0 <= v <= 1) l -> zsum l = 0 -> Forall (fun v => v = 0) l.
Proof.
  induction 1 as [|x l Hx Hl IH]; intro Hs; constructor; simpl in Hs;
    pose proof (zsum_bits_nonneg l Hl); [lia|apply IH; lia].
Qed.

Lemma zeros_equal (l l' : list Z) :
  Forall (fun v => v = 0) l -> Forall (fun v => v = 0) l' ->
  length l = length l' -> l = l'.
Proof.
  intro H. revert l'. induction H as [|x l Hx Hl IH]; intros l' H' Hlen.
  - destruct l'; [reflexivity|discriminate].
  - destruct H' as [|y l' Hy Hl']; [discriminate|].
    simpl in Hlen. subst. f_equal. apply IH; [exact Hl'|lia].
Qed.

Lemma Qdiv_one (a b : Z) :
  b <> 0 -> ((inject_Z a / inject_Z b == 1)%Q <-> a = b).
Proof.
  intro Hb.
  assert (Hq : ~ (inject_Z b == 0)%Q).
  { intro H. apply Hb. unfold Qeq, inject_Z in H. simpl in H. lia. }
  split.
  - intro H.
    assert (E : (inject_Z a == inject_Z b)%Q).
    { rewrite <- (Qmult_div_r (inject_Z a) (inject_Z b)) by exact Hq.
      rewrite H. ring. }
    unfold Qeq, inject_Z in E. simpl in E. lia.
  - intros ->. field. exact Hq.
Qed.

Lemma Qdiv_zero (a b : Z) :
  b <> 0 -> ((inject_Z a / inject_Z b == 0)%Q <-> a = 0).
Proof.
  intro Hb.
  assert (Hq : ~ (inject_Z b == 0)%Q).
  { intro H. apply Hb. unfold Qeq, inject_Z in H. simpl in H. lia. }
  split.
  - intro H.
    assert (E : (inject_Z a == 0)%Q).
    { rewrite <- (Qmult_div_r (inject_Z a) (inject_Z b)) by exact Hq.
      rewrite H. ring. }
    unfold Qeq, inject_Z in E. simpl in E. lia.
  - intros ->. field. exact Hq.
Qed.

Lemma Qdiv_unit (a b : Z) :
  0 <= a <= b -> 0 < b -> (0 <= inject_Z a / inject_Z b <= 1)%Q.
Proof.
  intros Ha Hb.
  assert (Hq : (0 < inject_Z b)%Q).
  { unfold Qlt, inject_Z. simpl. lia. }
  split.
  - apply Qle_shift_div_l; [exact Hq|]. rewrite Qmult_0_l.
    unfold Qle, inject_Z. simpl. lia.
  - apply Qle_shift_div_r; [exact Hq|]. rewrite Qmult_1_l.
    unfold Qle, inject_Z. simpl. lia.
Qed.

Lemma bits_of_bools_map (f : Z -> bool) (l : list Z) :
  Forall (fun v => 0 <= v <= 1) (map (fun v => Z.b2z (f v)) l).
Proof.
  apply Forall_forall. intros v Hv. apply in_map_iff in Hv.
  destruct Hv as [x [<- _]]. destruct (f x); simpl; lia.
Qed.

Lemma dice_value (a b : ndarray) :
  shape a = shape b ->
  calculate_dice_coefficient a b
  = Ok (if np_sum a + np_sum b =? 0 then 1%Q
        else (2 * inject_Z (zsum (map2 Z.land (data a) (data b)))
              / inject_Z (np_sum a + np_sum b))%Q).
Proof.
  intro H. unfold calculate_dice_coefficient. rewrite (and_same_shape a b H).
  cbn [rbind]. destruct (np_sum a + np_sum b =? 0); reflexivity.
Qed.

Lemma two_inject (i : Z) : (2 * inject_Z i == inject_Z (2 * i))%Q.
Proof. rewrite inject_Z_mult. reflexivity. Qed.

(** X9.  The Dice coefficient of an array of unsigned bytes with itself
    is 1, whatever bytes it holds, the empty mask included (the sums are
    unsigned 64-bit integers: the doubled sum is taken to fit). *)
Theorem dice_of_itself (a : ndarray) :
  Forall (fun v => 0 <= v <= 255) (data a) -> 2 * np_sum a < 2 ^ 64 ->
  exists q, calculate_dice_coefficient a a = Ok q /\ (q == 1)%Q.
Proof.
  intros _ _.
  rewrite (dice_value a a eq_refl). eexists. split; [reflexivity|].
  rewrite map2_land_diag. fold (np_sum a).
  destruct (Z.eqb_spec (np_sum a + np_sum a) 0) as [E|E]; [reflexivity|].
  rewrite two_inject. apply Qdiv_one; [exact E|lia].
Qed.

(** X10.  On two masks of one shape the Dice coefficient is returned, lies
    between 0 and 1, and is the same in both argument orders. *)
Theorem dice_bounds_symmetric (a b : ndarray) :
  bits a -> bits b -> shape a = shape b ->
  exists q,
    calculate_dice_coefficient a b = Ok q
    /\ calculate_dice_coefficient b a = Ok q
    /\ (0 <= q <= 1)%Q.
Proof.
  intros Ha Hb Hs.
  rewrite (dice_value a b Hs), (dice_value b a (eq_sym Hs)).
  rewrite (map2_land_comm (data b) (data a)), (Z.add_comm (np_sum b) (np_sum a)).
  eexists. split; [reflexivity|]. split; [reflexivity|].
  pose proof (zsum_land_le (data a) (data b) Ha Hb) as (H0 & H1 & H2).
  pose proof (zsum_bits_nonneg (data a) Ha) as Hna.
  pose proof (zsum_bits_nonneg (data b) Hb) as Hnb.
  unfold np_sum in *.
  destruct (Z.eqb_spec (zsum (data a) + zsum (data b)) 0) as [E|E].
  - split; [discriminate|]. unfold Qle. simpl. lia.
  - rewrite two_inject. apply Qdiv_unit; lia.
Qed.

Lemma zsum_land_zero (l l' : list Z) :
  Forall (fun v => 0 <= v <= 1) l -> Forall (fun v => 0 <= v <= 1) l' ->
  (zsum (map2 Z.land l l') = 0 <-> ~ exists i, nth i l 0 = 1 /\ nth i l' 0 = 1).
Proof.
  intro H. revert l'. induction H as [|x l Hx Hl IH]; intros l' H'.
  - simpl. split; [|reflexivity]. intros _ [i [Hi _]]. destruct i; discriminate.
  - destruct H' as [|y l' Hy Hl'].
    + simpl. split; [|reflexivity]. intros _ [i [_ Hi]]. destruct i; discriminate.
    + simpl. pose proof (zsum_land_le l l' Hl Hl') as (H0 & _ & _).
      rewrite (land_bit x y Hx Hy). specialize (IH l' Hl').
      destruct ((x =? 1) && (y =? 1)) eqn:E.
      * apply andb_true_iff in E. destruct E as [E1 E2]. apply Z.eqb_eq in E1, E2.
        split; [lia|]. intro Hno. exfalso. apply Hno. exists O. simpl. auto.
      * rewrite Z.add_0_l, IH. split.
        -- intros Hno [[|i] [Hi Hi']]; simpl in *.
           ++ subst. discriminate E.
           ++ apply Hno. exists i. auto.
        -- intros Hno [i Hi]. apply Hno. exists (S i). exact Hi.
Qed.

(** X11.  On two masks of one shape and size the Dice coefficient is 1
    exactly when the masks are equal, and 0 exactly when they share no
    voxel and are not both empty. *)
Theorem dice_extremes (a b : ndarray) :
  bits a -> bits b -> same_grid a b ->
  exists q,
    calculate_dice_coefficient a b = Ok q
    /\ ((q == 1)%Q <-> data a = data b)
    /\ ((q == 0)%Q <-> ~ overlap a b /\ np_sum a + np_sum b <> 0).
Proof.
  intros Ha Hb [Hs Hlen].
  rewrite (dice_value a b Hs). eexists. split; [reflexivity|].
  pose proof (zsum_land_le (data a) (data b) Ha Hb) as (H0 & H1 & H2).
  pose proof (zsum_bits_nonneg (data a) Ha) as Hna.
  pose proof (zsum_bits_nonneg (data b) Hb) as Hnb.
  unfold overlap. rewrite <- (zsum_land_zero (data a) (data b) Ha Hb).
  unfold np_sum in *.
  destruct (Z.eqb_spec (zsum (data a) + zsum (data b)) 0) as [E|E].
  - split.
    + split; [|reflexivity]. intros _.
      apply zeros_equal; [| |exact Hlen];
        apply zsum_bits_zero; try assumption; lia.
    + split; [discriminate|]. intros [_ Hne]. contradiction.
  - rewrite two_inject. rewrite (Qdiv_one _ _ E), (Qdiv_zero _ _ E). split.
    + split.
      * intro H. apply zsum_land_full; assumption.
      * intro H. rewrite H, map2_land_diag. lia.
    + split; [intro H; split; [lia|exact E]|intros [H _]; lia].
Qed.

Lemma astype_bool_bits (a : ndarray) : bits (astype_bool a).
Proof. unfold bits, astype_bool. cbn [data]. apply bits_of_bools_map. Qed.

Lemma zsum_split (p q : list Z) :
  Forall (fun v => 0 <= v <= 1) p -> Forall (fun v => 0 <= v <= 1) q ->
  length p = length q ->
  zsum p
  = zsum (map2 Z.land p (map (fun v => Z.b2z (v =? 0)) q)) + zsum (map2 Z.land p q).
Proof.
  intro H. revert q. induction H as [|x p Hx Hp IH]; intros q Hq Hlen.
  - reflexivity.
  - destruct Hq as [|y q Hy Hq]; [discriminate|].
    cbn [map map2 length] in *.
    change (zsum (x :: p)) with (x + zsum p).
    change (zsum (Z.land x (Z.b2z (y =? 0))
                    :: map2 Z.land p (map (fun v => Z.b2z (v =? 0)) q)))
      with (Z.land x (Z.b2z (y =? 0))
            + zsum (map2 Z.land p (map (fun v => Z.b2z (v =? 0)) q))).
    change (zsum (Z.land x y :: map2 Z.land p q))
      with (Z.land x y + zsum (map2 Z.land p q)).
    rewrite (IH q Hq) by lia.
    assert (Ex : x = 0 \/ x = 1) by lia. assert (Ey : y = 0 \/ y = 1) by lia.
    destruct Ex as [-> | ->], Ey as [-> | ->]; simpl Z.land; lia.
Qed.

Lemma foreground_count (a : ndarray) :
  np_sum (astype_bool a) = Z.of_nat (length (foreground a)).
Proof.
  unfold np_sum, astype_bool, foreground. cbn [data].
  rewrite length_map.
  assert (G : forall (l : list Z) (s : Z),
             zsum (map (fun v => Z.b2z (negb (v =? 0))) l)
             = Z.of_nat (length (filter (fun iv : Z * Z => negb (snd iv =? 0))
                                        (enumerate s l))));
    [|apply G].
  induction l as [|v l IH]; intro s; [reflexivity|].
  cbn [map enumerate filter snd].
  change (zsum (Z.b2z (negb (v =? 0)) :: map (fun v => Z.b2z (negb (v =? 0))) l))
    with (Z.b2z (negb (v =? 0)) + zsum (map (fun v => Z.b2z (negb (v =? 0))) l)).
  rewrite (IH (s + 1)).
  destruct (v =? 0); cbn [negb Z.b2z length]; lia.
Qed.

Lemma mask_difference_value (a b : ndarray) :
  shape a = shape b ->
  calculate_mask_difference a b
  = Ok (mkDifference
          (np_sum (astype_bool a)) (np_sum (astype_bool b))
          (zsum (map2 Z.land (data (astype_bool b)) (data (np_invert (astype_bool a)))))
          (zsum (map2 Z.land (data (astype_bool a)) (data (np_invert (astype_bool b)))))
          (zsum (map2 Z.land (data (astype_bool a)) (data (astype_bool b))))
          (if np_sum (astype_bool a) + np_sum (astype_bool b) =? 0 then 1%Q
           else (2 * inject_Z (zsum (map2 Z.land (data (astype_bool a))
                                          (data (astype_bool b))))
                 / inject_Z (np_sum (astype_bool a) + np_sum (astype_bool b)))%Q)).
Proof.
  intro Hs.
  assert (Hs' : shape (astype_bool a) = shape (astype_bool b)) by exact Hs.
  unfold calculate_mask_difference.
  rewrite (and_same_shape (astype_bool b) (np_invert (astype_bool a)))
    by (symmetry; exact Hs).
  rewrite (and_same_shape (astype_bool a) (np_invert (astype_bool b))) by exact Hs.
  rewrite (and_same_shape (astype_bool a) (astype_bool b)) by exact Hs.
  rewrite (dice_value (astype_bool a) (astype_bool b) Hs').
  reflexivity.
Qed.

(** X12.  On two arrays of one shape and size, whatever values they hold,
    [calculate_mask_difference] returns counts that add up: the voxels of
    the first mask are the removed and the unchanged ones, the voxels of
    the second are the added and the unchanged ones, and each mask's count
    is the number of its non-zero voxels.  Exchanging the arguments
    exchanges added and removed. *)
Theorem mask_difference_accounting (a b : ndarray) :
  same_grid a b ->
  exists d d',
    calculate_mask_difference a b = Ok d
    /\ calculate_mask_difference b a = Ok d'
    /\ mask1_count d = Z.of_nat (length (foreground a))
    /\ mask2_count d = Z.of_nat (length (foreground b))
    /\ mask1_count d = removed_voxels d + unchanged_voxels d
    /\ mask2_count d = added_voxels d + unchanged_voxels d
    /\ 0 <= added_voxels d /\ 0 <= removed_voxels d /\ 0 <= unchanged_voxels d
    /\ added_voxels d' = removed_voxels d
    /\ removed_voxels d' = added_voxels d
    /\ unchanged_voxels d' = unchanged_voxels d
    /\ dice_coefficient d' = dice_coefficient d.
Proof.
  intros [Hs Hlen].
  assert (Hs' : shape (astype_bool a) = shape (astype_bool b)) by exact Hs.
  assert (Hl' : length (data (astype_bool a)) = length (data (astype_bool b))).
  { unfold astype_bool. cbn [data]. rewrite !length_map. exact Hlen. }
  pose proof (astype_bool_bits a) as Ba. pose proof (astype_bool_bits b) as Bb.
  unfold calculate_mask_difference.
  rewrite (and_same_shape (astype_bool b) (np_invert (astype_bool a)))
    by (symmetry; exact Hs).
  rewrite (and_same_shape (astype_bool a) (np_invert (astype_bool b))) by exact Hs.
  rewrite (and_same_shape (astype_bool a) (astype_bool b)) by exact Hs.
  rewrite (and_same_shape (astype_bool b) (astype_bool a)) by (symmetry; exact Hs).
  rewrite (dice_value (astype_bool a) (astype_bool b) Hs').
  rewrite (dice_value (astype_bool b) (astype_bool a) (eq_sym Hs')).
  cbn [rbind]. do 2 eexists. split; [reflexivity|]. split; [reflexivity|].
  cbn [mask1_count mask2_count added_voxels removed_voxels unchanged_voxels
       dice_coefficient].
  rewrite !foreground_count.
  pose proof (foreground_count a) as Fa. pose proof (foreground_count b) as Fb.
  pose proof (zsum_split (data (astype_bool a)) (data (astype_bool b)) Ba Bb Hl') as Sa.
  pose proof (zsum_split (data (astype_bool b)) (data (astype_bool a)) Bb Ba
                         (eq_sym Hl')) as Sb.
  rewrite (map2_land_comm (data (astype_bool b)) (data (astype_bool a))) in Sb.
  assert (Ia : Forall (fun v => 0 <= v <= 1) (data (np_invert (astype_bool a))))
    by (unfold np_invert; cbn [data]; apply bits_of_bools_map).
  assert (Ib : Forall (fun v => 0 <= v <= 1) (data (np_invert (astype_bool b))))
    by (unfold np_invert; cbn [data]; apply bits_of_bools_map).
  pose proof (zsum_land_le _ _ Ba Ib) as (R0 & _ & _).
  pose proof (zsum_land_le _ _ Bb Ia) as (A0 & _ & _).
  pose proof (zsum_land_le _ _ Ba Bb) as (U0 & _ & _).
  unfold np_sum in *. cbn [data] in *.
  unfold np_invert in *. cbn [data] in *.
  repeat split; try lia; try reflexivity.
  - rewrite (map2_land_comm (data (astype_bool b)) (data (astype_bool a))).
    reflexivity.
  - rewrite (map2_land_comm (data (astype_bool b)) (data (astype_bool a))).
    rewrite (Z.add_comm (Z.of_nat (length (foreground b)))). reflexivity.
Qed.

(** X13.  When the shapes of the two arrays cannot be broadcast together,
    both metrics fail with numpy's [ValueError]. *)
Theorem metrics_shape_error (a b : ndarray) :
  broadcast_shapes (shape a) (shape b) = None ->
  calculate_dice_coefficient a b = Raise ValueError
  /\ calculate_mask_difference a b = Raise ValueError.
Proof.
  intro H.
  assert (Hne : shape_eqb (shape a) (shape b) = false).
  { destruct (shape a) as [[d1 h1] w1], (shape b) as [[d2 h2] w2].
    unfold shape_eqb. unfold broadcast_shapes, bdim in H.
    destruct (Nat.eqb d1 d2); [|reflexivity].
    destruct (Nat.eqb h1 h2); [|reflexivity].
    destruct (Nat.eqb w1 w2); [discriminate H|reflexivity]. }
  assert (Hb : broadcast_shapes (shape b) (shape a) = None).
  { destruct (shape a) as [[d1 h1] w1], (shape b) as [[d2 h2] w2].
    unfold broadcast_shapes, bdim in *.
    rewrite (Nat.eqb_sym d2 d1), (Nat.eqb_sym h2 h1), (Nat.eqb_sym w2 w1).
    destruct (Nat.eqb d1 d2); destruct (Nat.eqb h1 h2); destruct (Nat.eqb w1 w2);
      try discriminate H;
      destruct (Nat.eqb d1 1); destruct (Nat.eqb d2 1);
      destruct (Nat.eqb h1 1); destruct (Nat.eqb h2 1);
      destruct (Nat.eqb w1 1); destruct (Nat.eqb w2 1);
      try discriminate H; reflexivity. }
  assert (Hne' : shape_eqb (shape b) (shape a) = false).
  { destruct (shape a) as [[d1 h1] w1], (shape b) as [[d2 h2] w2].
    unfold shape_eqb in *.
    rewrite (Nat.eqb_sym d2 d1), (Nat.eqb_sym h2 h1), (Nat.eqb_sym w2 w1).
    exact Hne. }
  split.
  - unfold calculate_dice_coefficient, and_, np_and. rewrite Hne, H. reflexivity.
  - unfold calculate_mask_difference, and_, np_and.
    cbn [shape astype_bool np_invert]. rewrite Hne', Hb. reflexivity.
Qed.

End MetricFacts.

(* ================================================================= *)
(** ** More on small-component removal *)

Section Stage3More.
Import Numpy Runtime Processing Stage3 Stage4.
Context {ops : Ndimage}.
Local Open Scope string_scope.
Local Open Scope list_scope.
Local Open Scope Z_scope.

Lemma nth_enumerate {A : Type} (l : list A) (d : A) :
  forall (s : Z) (i : nat),
    (i < length l)%nat ->
    nth i (enumerate s l) (0, d) = (s + Z.of_nat i, nth i l d).
Proof.
  induction l as [|x l IH]; intros s i Hi; simpl in Hi; [lia|].
  destruct i as [|i]; simpl.
  - f_equal. lia.
  - rewrite IH by lia. f_equal. lia.
Qed.

Lemma In_enumerate_nth {A : Type} (l : list A) (d : A) (i : nat) :
  (i < length l)%nat -> In (Z.of_nat i, nth i l d) (enumerate 0 l).
Proof.
  intro Hi. rewrite <- (Z.add_0_l (Z.of_nat i)).
  rewrite <- (nth_enumerate l d 0 i Hi).
  apply nth_In. rewrite enumerate_length. exact Hi.
Qed.

Lemma nth_map_lt {A B : Type} (f : A -> B) (l : list A) (d : A) (d' : B) :
  forall i : nat, (i < length l)%nat -> nth i (map f l) d' = f (nth i l d).
Proof.
  induction l as [|x l IH]; intros i Hi; simpl in Hi; [lia|].
  destruct i as [|i]; simpl; [reflexivity|]. apply IH. lia.
Qed.

(** The value of the cleaned mask at a position. *)
Lemma cleaned_nth (a : ndarray) (i : nat) :
  nth i (data (cleaned a)) 0
  = if (i <? length (data a))%nat && kept_label a (label_at a (Z.of_nat i))
    then 1 else 0.
Proof.
  unfold cleaned. cbn [data].
  destruct (Nat.ltb_spec i (length (data a))) as [Hi|Hi]; cbn [andb].
  - rewrite (nth_map_lt _ _ (0, 0)) by (rewrite enumerate_length; exact Hi).
    rewrite nth_enumerate by exact Hi. reflexivity.
  - apply nth_overflow. rewrite length_map, enumerate_length. exact Hi.
Qed.

Lemma kept_label_foreground (a : ndarray) (i : Z) :
  kept_label a (label_at a i) = true -> In i (foreground a).
Proof.
  intro H. apply label_at_positive. unfold kept_label in H.
  apply andb_true_iff in H. destruct H as [H _].
  apply andb_true_iff in H. destruct H as [H _].
  apply Z.leb_le in H. lia.
Qed.

(** Small-component removal only removes. *)
Lemma cleaned_subset (a : ndarray) (i : nat) :
  nth i (data (cleaned a)) 0 <> 0 -> nth i (data a) 0 <> 0.
Proof.
  rewrite cleaned_nth.
  destruct (Nat.ltb_spec i (length (data a))) as [Hi|Hi]; cbn [andb]; [|congruence].
  destruct (kept_label a (label_at a (Z.of_nat i))) eqn:E; [|congruence].
  intros _. apply kept_label_foreground in E.
  apply (foreground_value a (Z.of_nat i) (nth i (data a) 0)); [|exact E].
  apply In_enumerate_nth. exact Hi.
Qed.

Lemma cleaned_length (a : ndarray) : length (data (cleaned a)) = length (data a).
Proof. unfold cleaned. cbn [data]. rewrite length_map. apply enumerate_length. Qed.

Lemma bits_binary (a : ndarray) : bits a <-> binary a.
Proof.
  unfold bits, binary. rewrite !Forall_forall.
  split; intros H v Hv; specialize (H v Hv); lia.
Qed.

Lemma np_any_sum (a : ndarray) : bits a -> np_any (data a) = true -> 1 <= np_sum a.
Proof.
  unfold bits, np_any, np_sum. intros Hb Ha.
  apply existsb_exists in Ha. destruct Ha as [v [Hv Hnz]].
  apply negb_true_iff in Hnz. apply Z.eqb_neq in Hnz.
  assert (Hle : v <= zsum (data a)).
  { apply zsum_member_le; [|exact Hv].
    rewrite Forall_forall in Hb. intros x Hx. apply Hb in Hx. lia. }
  rewrite Forall_forall in Hb. apply Hb in Hv. lia.
Qed.

Lemma kept_count_bounds (a : ndarray) :
  binary a -> np_any (data a) = true -> 1 <= kept_count a <= num_components a.
Proof.
  intros Hb Ha. unfold kept_count. split.
  - destruct (largest_kept a Hb Ha) as [i [Hi Hsz]].
    apply cleaned_foreground in Hi. destruct Hi as [Hi _].
    assert (Hin : In (label_at a i)
                     (filter (fun l => negb (small a l))
                             (range 1 (num_components a + 1)))).
    { apply filter_In. split.
      - apply In_range. pose proof (label_at_range a i).
        apply label_at_positive in Hi. lia.
      - unfold small. rewrite Hsz. rewrite small_size_self; [reflexivity|].
        rewrite <- Hsz. apply component_size_positive; assumption. }
    destruct (filter _ _); [destruct Hin|]. simpl. lia.
  - pose proof (filter_length_le (fun l => negb (small a l))
                                 (range 1 (num_components a + 1))) as Hle.
    rewrite range_length in Hle. pose proof (num_components_nonneg a). lia.
Qed.

(** X14.  On a non-empty mask, small-component removal returns a new,
    non-empty mask of the same shape and size that is a part of the input:
    at least one component is kept, and the statistics are consistent with
    each other ([components_kept + components_removed = components_total],
    [voxels_after + voxels_removed = voxels_before],
    [1 <= voxels_after <= voxels_before]). *)
Theorem remove_small_components_never_empties (st : state) (mask : ref) :
  binary (deref st mask) -> np_any (data (deref st mask)) = true ->
  exists out d st',
    _remove_small_components mask st = (Ok (out, d), st')
    /\ out = length (heap st)
    /\ shape (deref st' out) = shape (deref st mask)
    /\ length (data (deref st' out)) = length (data (deref st mask))
    /\ binary (deref st' out)
    /\ np_any (data (deref st' out)) = true
    /\ (forall i, nth i (data (deref st' out)) 0 = 1 -> nth i (data (deref st mask)) 0 = 1)
    /\ exists kept total before after,
         lookup "components_kept" d = Some kept
         /\ lookup "components_total" d = Some total
         /\ lookup "components_removed" d = Some (total - kept)
         /\ lookup "voxels_before" d = Some before
         /\ lookup "voxels_after" d = Some after
         /\ lookup "voxels_removed" d = Some (before - after)
         /\ 1 <= kept <= total
         /\ 1 <= after <= before
         /\ before = np_sum (deref st mask)
         /\ after = np_sum (deref st' out).
Proof.
  intros Hb Ha. destruct st as [h em].
  set (m := deref (mkState h em) mask) in *.
  rewrite remove_small_components_run. fold m.
  rewrite np_any_components, Ha. cbn [negb].
  do 3 eexists. split; [reflexivity|]. cbn [heap]. rewrite deref_alloc.
  split; [reflexivity|]. split; [reflexivity|]. split; [apply cleaned_length|].
  assert (Hcb : binary (cleaned m)) by (apply bits_binary; apply cleaned_bits).
  split; [exact Hcb|].
  split; [apply cleaned_nonempty; assumption|].
  split.
  { intros i Hi.
    assert (Hnz : nth i (data m) 0 <> 0) by (apply cleaned_subset; lia).
    destruct (Nat.lt_ge_cases i (length (data m))) as [Hlt|Hge].
    - unfold binary in Hb. rewrite Forall_forall in Hb.
      destruct (Hb (nth i (data m) 0)) as [E|E]; [apply nth_In; exact Hlt|lia|exact E].
    - rewrite nth_overflow in Hnz by exact Hge. contradiction. }
  exists (kept_count m), (num_components m), (np_sum m), (np_sum (cleaned m)).
  repeat (split; [reflexivity|]).
  split; [apply kept_count_bounds; assumption|].
  split; [|split; reflexivity].
  split.
  - apply np_any_sum; [apply cleaned_bits|apply cleaned_nonempty; assumption].
  - apply np_sum_cleaned_le. unfold binary in Hb.
    rewrite Forall_forall in *. intros v Hv. apply Hb in Hv. lia.
Qed.

End Stage3More.

(* ================================================================= *)
(** ** [refine_mask] and the worker as compositions of the stages *)

Section PipelineRuns.
Import Numpy Float64 Runtime Processing Workers Stage3 Stage4 Pipeline.
Context {ops : Ndimage}.
Local Open Scope string_scope.
Local Open Scope list_scope.
Local Open Scope Z_scope.

Ltac last_array := unfold deref; cbn [heap]; rewrite ?nth_middle.

Ltac run_tail :=
  repeat pystep; rewrite remove_small_components_run; last_array;
  unfold stage3; rewrite ?nth_middle;
  match goal with
  | |- context [num_components ?X =? 0] => destruct (num_components X =? 0)
  end;
  repeat pystep; unfold stage4; cbn [fill_holes];
  match goal with
  | |- context [get ?f false] => destruct (get f false)
  end;
  repeat pystep;
  try (rewrite fill_holes_run; repeat pystep);
  last_array; reflexivity.

Lemma refine_mask_run (base_mask volume : ref) (spacing : float * float * float)
      (p : params) (h : list ndarray) (em : list (Z * message)) :
  refine_mask base_mask volume spacing p (mkState h em)
  = match pipeline p volume h base_mask with
    | Raise e => (Raise e, mkState (h ++ [nth base_mask h empty_array]) em)
    | Ok (h4, mask, steps) =>
        let m := nth mask h4 empty_array in
        let base_count := np_sum (nth base_mask h empty_array) in
        (Ok (length h4,
             mkStatistics base_count steps (np_sum m)
                          (improvement base_count (np_sum m))
                          (millilitres (np_sum m) spacing) p),
         mkState (h4 ++ [astype_uint8 m]) em)
    end.
Proof.
  destruct p as [lo hi it cs fh].
  unfold refine_mask, pipeline, stage1, stage2, closed, improvement, millilitres.
  cbn [hu_min hu_max dilation_iter closing_size fill_holes].
  repeat pystep. last_array.
  destruct (0 <? get it 0) eqn:Hit.
  - destruct lo as [lo|]; [|repeat pystep; reflexivity].
    destruct hi as [hi|]; [|repeat pystep; reflexivity].
    destruct it as [it|]; [|discriminate Hit].
    repeat pystep. rewrite hu_dilation_run. last_array.
    unfold dilated, lung_tissue.
    destruct (np_and _ _) as [r|]; [|repeat pystep; reflexivity].
    repeat pystep.
    destruct (1 <? get cs 1) eqn:Hcs.
    + destruct cs as [cs|]; [|discriminate Hcs].
      repeat pystep. rewrite closing_run. last_array. run_tail.
    + run_tail.
  - repeat pystep.
    destruct (1 <? get cs 1) eqn:Hcs.
    + destruct cs as [cs|]; [|discriminate Hcs].
      repeat pystep. rewrite closing_run. last_array. run_tail.
    + run_tail.
Qed.

Lemma fill_step_shape (mask : ref) (h : list ndarray) (z : nat) :
  shape (nth mask (fill_step mask h z) empty_array) = shape (nth mask h empty_array).
Proof.
  unfold fill_step. destruct (np_any _); [|reflexivity].
  destruct (shape (nth mask h empty_array)) as [[d hh] w] eqn:Es.
  destruct (Nat.lt_ge_cases mask (length h)) as [Hl|Hl].
  - rewrite update_nth_same by exact Hl. cbn [set_slice shape]. exact Es.
  - rewrite !nth_overflow in * by (rewrite ?update_length; exact Hl). exact Es.
Qed.

Lemma fill_loop_shape (mask : ref) (zs : list nat) (h : list ndarray) :
  shape (nth mask (fold_left (fill_step mask) zs h) empty_array)
  = shape (nth mask h empty_array).
Proof.
  revert h. induction zs as [|z zs IH]; intro h; simpl; [reflexivity|].
  rewrite IH. apply fill_step_shape.
Qed.

(** The array at the end of the pipeline holds [0]s and [1]s. *)
Lemma stage3_bits (h : list ndarray) (mask : ref) :
  let '(h3, m3, _) := stage3 h mask in bits (nth m3 h3 empty_array).
Proof.
  unfold stage3. destruct (num_components _ =? 0) eqn:En.
  - apply empty_bits. rewrite np_any_components in En.
    apply negb_true_iff in En. exact En.
  - rewrite nth_middle. apply cleaned_bits.
Qed.

Lemma pipeline_bits (p : params) (volume : ref) (h : list ndarray) (base_mask : ref) :
  match pipeline p volume h base_mask with
  | Ok (h4, mask, _) => bits (nth mask h4 empty_array)
  | Raise _ => True
  end.
Proof.
  unfold pipeline. destruct (stage1 _ _ _ _) as [[[h1 m1] s1]|e]; [|exact I].
  destruct (stage2 p h1 m1) as [[h2 m2] s2].
  pose proof (stage3_bits h2 m2) as Hb.
  destruct (stage3 h2 m2) as [[h3 m3] s3].
  unfold stage4. destruct (get (fill_holes p) false); [|exact Hb].
  apply fill_loop_bits. exact Hb.
Qed.

Ltac worker_tail :=
  repeat pystep; last_array;
  rewrite ndimage_label_eq; pyprim; rewrite num_components_pos;
  unfold stage3; rewrite ?nth_middle;
  match goal with
  | |- context [num_components ?X =? 0] => destruct (num_components X =? 0) eqn:En
  end;
  cbn [negb]; try rewrite worker_cleaned; repeat pystep;
  unfold stage4, signals4; cbn [fill_holes];
  match goal with
  | |- context [get ?f false] => destruct (get f false)
  end;
  repeat pystep; last_array;
  try (rewrite worker_fill_loop; repeat pystep; rewrite fill_loop_shape);
  last_array;
  rewrite astype_bits
    by (try apply fill_loop_bits; rewrite ?nth_middle;
        first [apply cleaned_bits
              | apply empty_bits; apply num_zero_any; assumption]);
  rewrite <- ?app_assoc; reflexivity.

Lemma worker_run (self : MaskRefinementWorker) (h : list ndarray)
      (em : list (Z * message)) :
  _refine_with_progress self (mkState h em)
  = let p := worker_params self in
    match pipeline p (volume self) h (base_mask self) with
    | Raise e =>
        (Raise e, mkState (h ++ [nth (base_mask self) h empty_array])
                          (em ++ signals1 p))
    | Ok (h4, mask, _) =>
        let m := nth mask h4 empty_array in
        let base_count := np_sum (nth (base_mask self) h empty_array) in
        (Ok (length h4,
             mkStatistics base_count [] (np_sum m)
                          (improvement base_count (np_sum m))
                          (millilitres (np_sum m) (spacing self)) p),
         mkState (h4 ++ [astype_uint8 m])
                 (em ++ signals1 p ++ signals2 p ++ [(60, MsgNoiseRemoval)]
                     ++ signals4 p m ++ [(95, MsgFinalizing)]))
    end.
Proof.
  destruct self as [bm vol sp [lo hi it cs fh] ok].
  unfold _refine_with_progress, pipeline, stage1, stage2, closed, dilated, lung_tissue,
    signals1, signals2, improvement, millilitres.
  cbn [base_mask volume spacing worker_params hu_min hu_max dilation_iter
       closing_size fill_holes].
  repeat pystep. last_array.
  destruct (0 <? get it 0) eqn:Hit.
  - destruct lo as [lo|]; [|repeat pystep; rewrite app_nil_r; reflexivity].
    destruct hi as [hi|]; [|repeat pystep; rewrite app_nil_r; reflexivity].
    destruct it as [it|]; [|discriminate Hit].
    repeat pystep. last_array.
    destruct (np_and _ _) as [r|]; [|repeat pystep; reflexivity].
    repeat pystep.
    destruct (1 <? get cs 1) eqn:Hcs.
    + destruct cs as [cs|]; [|discriminate Hcs].
      worker_tail.
    + worker_tail.
  - repeat pystep.
    destruct (1 <? get cs 1) eqn:Hcs.
    + destruct cs as [cs|]; [|discriminate Hcs].
      worker_tail.
    + worker_tail.
Qed.

End PipelineRuns.

(* ================================================================= *)
(** ** What [refine_mask] returns, records and raises *)

Section PipelineMore.
Import Numpy Float64 Runtime Processing Workers Stage3 Stage4 Pipeline.
Context {ops : Ndimage}.
Local Open Scope string_scope.
Local Open Scope list_scope.
Local Open Scope Z_scope.

Lemma chained_app (a b c : Z) (s1 s2 : list step) :
  chained a s1 b -> chained b s2 c -> chained a (s1 ++ s2) c.
Proof.
  revert a. induction s1 as [|s s1 IH]; intros a H1 H2; simpl in *.
  - subst. exact H2.
  - destruct H1 as [Hb [mid [Ha Hc]]]. split; [exact Hb|].
    exists mid. split; [exact Ha|]. apply IH; assumption.
Qed.

Lemma np_sum_empty (a : ndarray) : np_any (data a) = false -> np_sum a = 0.
Proof.
  unfold np_any, np_sum. induction (data a) as [|v l IH]; intro H; [reflexivity|].
  simpl in H. apply orb_false_iff in H. destruct H as [Hv Hl].
  apply negb_false_iff in Hv. apply Z.eqb_eq in Hv. subst v.
  change (zsum (0 :: l)) with (0 + zsum l). rewrite IH by exact Hl. reflexivity.
Qed.

Lemma stage1_steps (p : params) (volume : ref) (h : list ndarray) (mask : ref) :
  match stage1 p volume h mask with
  | Ok (h1, m1, s1) =>
      map name s1 = (if 0 <? get (dilation_iter p) 0 then ["HU Dilation"] else [])
      /\ chained (np_sum (nth mask h empty_array)) s1 (np_sum (nth m1 h1 empty_array))
  | Raise _ => True
  end.
Proof.
  unfold stage1. destruct (0 <? get (dilation_iter p) 0); [|split; reflexivity].
  destruct (hu_min p) as [lo|]; [|exact I].
  destruct (hu_max p) as [hi|]; [|exact I].
  destruct (dilation_iter p) as [it|]; [|exact I].
  destruct (np_and _ _) as [r|]; [|exact I].
  split; [reflexivity|]. rewrite nth_middle. simpl.
  split; [reflexivity|]. eexists. split; reflexivity.
Qed.

Lemma stage2_steps (p : params) (h : list ndarray) (mask : ref) :
  let '(h2, m2, s2) := stage2 p h mask in
  map name s2
  = (if 1 <? get (closing_size p) 1 then ["Morphological Closing"] else [])
  /\ chained (np_sum (nth mask h empty_array)) s2 (np_sum (nth m2 h2 empty_array)).
Proof.
  unfold stage2. destruct (1 <? get (closing_size p) 1); [|split; reflexivity].
  split; [reflexivity|]. rewrite nth_middle. simpl.
  split; [reflexivity|]. eexists. split; reflexivity.
Qed.

Lemma stage3_steps (h : list ndarray) (mask : ref) :
  let '(h3, m3, s3) := stage3 h mask in
  name s3 = "Noise Removal"
  /\ chained (np_sum (nth mask h empty_array)) [s3] (np_sum (nth m3 h3 empty_array)).
Proof.
  unfold stage3. destruct (num_components _ =? 0) eqn:En.
  - split; [reflexivity|]. simpl. split; [reflexivity|].
    exists 0. split; [reflexivity|].
    symmetry. apply np_sum_empty. apply num_zero_any. exact En.
  - split; [reflexivity|]. rewrite nth_middle. simpl.
    split; [reflexivity|]. eexists. split; reflexivity.
Qed.

Lemma stage4_steps (p : params) (h : list ndarray) (mask : ref) :
  let '(h4, s4) := stage4 p h mask in
  map name s4 = (if get (fill_holes p) false then ["Hole Filling"] else [])
  /\ chained (np_sum (nth mask h empty_array)) s4 (np_sum (nth mask h4 empty_array)).
Proof.
  unfold stage4. destruct (get (fill_holes p) false); [|split; reflexivity].
  split; [reflexivity|]. simpl.
  split; [reflexivity|]. eexists. split; reflexivity.
Qed.

Lemma pipeline_steps (p : params) (volume : ref) (h : list ndarray) (base_mask : ref) :
  match pipeline p volume h base_mask with
  | Ok (h4, mask, steps) =>
      map name steps = stage_names p
      /\ chained (np_sum (nth base_mask h empty_array)) steps
                 (np_sum (nth mask h4 empty_array))
  | Raise _ => True
  end.
Proof.
  unfold pipeline, stage_names.
  pose proof (stage1_steps p volume (h ++ [nth base_mask h empty_array]) (length h)) as H1.
  destruct (stage1 _ _ _ _) as [[[h1 m1] s1]|e]; [|exact I].
  rewrite nth_middle in H1. destruct H1 as [N1 C1].
  pose proof (stage2_steps p h1 m1) as H2.
  destruct (stage2 p h1 m1) as [[h2 m2] s2]. destruct H2 as [N2 C2].
  pose proof (stage3_steps h2 m2) as H3.
  destruct (stage3 h2 m2) as [[h3 m3] s3]. destruct H3 as [N3 C3].
  pose proof (stage4_steps p h3 m3) as H4.
  destruct (stage4 p h3 m3) as [h4 s4]. destruct H4 as [N4 C4].
  split.
  - rewrite !map_app. rewrite N1, N2, N4. simpl map. rewrite N3. reflexivity.
  - apply chained_app with (np_sum (nth m1 h1 empty_array)); [exact C1|].
    apply chained_app with (np_sum (nth m2 h2 empty_array)); [exact C2|].
    apply chained_app with (np_sum (nth m3 h3 empty_array)); [exact C3|exact C4].
Qed.

(** X15.  Whenever [refine_mask] returns, [stats['steps']] names the
    stages the parameters enable, in pipeline order, 'Noise Removal'
    always among them; and the steps chain: the first one starts at
    [base_count], each one starts at the voxel count the one before ended
    with, and the last one ends at [final_count]. *)
Theorem refine_mask_steps (st : state) (base_mask volume : ref)
        (spacing : float * float * float) (p : params) :
  match fst (refine_mask base_mask volume spacing p st) with
  | Ok (_, stats) =>
      map name (steps stats) = stage_names p
      /\ In "Noise Removal" (map name (steps stats))
      /\ chained (base_count stats) (steps stats) (final_count stats)
  | Raise _ => True
  end.
Proof.
  destruct st as [h em]. rewrite refine_mask_run.
  pose proof (pipeline_steps p volume h base_mask) as H.
  destruct (pipeline p volume h base_mask) as [[[h4 mask] ss]|e]; [|exact I].
  cbn [fst steps base_count final_count]. destruct H as [Hn Hc].
  split; [exact Hn|]. split; [|exact Hc].
  rewrite Hn. unfold stage_names. apply in_or_app. right.
  apply in_or_app. right. left. reflexivity.
Qed.

Lemma bits_count (a : ndarray) :
  bits a -> np_sum a = Z.of_nat (length (foreground a)).
Proof.
  unfold bits, np_sum, foreground. rewrite length_map.
  assert (G : forall (l : list Z) (s : Z),
             Forall (fun v => 0 <= v <= 1) l ->
             zsum l = Z.of_nat (length (filter (fun iv : Z * Z => negb (snd iv =? 0))
                                               (enumerate s l))));
    [|apply G].
  induction l as [|v l IH]; intros s H; [reflexivity|].
  inversion H as [|? ? Hv Hl]; subst.
  cbn [enumerate filter snd]. change (zsum (v :: l)) with (v + zsum l).
  rewrite (IH (s + 1) Hl).
  destruct (Z.eqb_spec v 0); cbn [negb length]; lia.
Qed.

Lemma stage1_disabled (p : params) (volume : ref) (h : list ndarray) (mask : ref) :
  get (dilation_iter p) 0 <= 0 -> stage1 p volume h mask = Ok (h, mask, []).
Proof.
  intro H. unfold stage1.
  destruct (Z.ltb_spec 0 (get (dilation_iter p) 0)); [lia|reflexivity].
Qed.

Lemma stage2_shape (p : params) (h : list ndarray) (mask : ref) :
  let '(h2, m2, _) := stage2 p h mask in
  shape (nth m2 h2 empty_array) = shape (nth mask h empty_array).
Proof.
  unfold stage2. destruct (1 <? get (closing_size p) 1); [|reflexivity].
  rewrite nth_middle. reflexivity.
Qed.

Lemma stage3_shape (h : list ndarray) (mask : ref) :
  let '(h3, m3, _) := stage3 h mask in
  shape (nth m3 h3 empty_array) = shape (nth mask h empty_array).
Proof.
  unfold stage3. destruct (num_components _ =? 0); [reflexivity|].
  rewrite nth_middle. reflexivity.
Qed.

Lemma stage4_shape (p : params) (h : list ndarray) (mask : ref) :
  shape (nth mask (fst (stage4 p h mask)) empty_array) = shape (nth mask h empty_array).
Proof.
  unfold stage4. destruct (get (fill_holes p) false); [|reflexivity].
  cbn [fst]. apply fill_loop_shape.
Qed.

(** X16.  Whenever [refine_mask] returns, the returned array holds only
    [0] and [1], whatever values the input mask held; [final_count] is the
    number of its voxels that are set; and with HU dilation disabled it
    has the shape of the input mask. *)
Theorem refine_mask_returns_mask (st : state) (base_mask volume : ref)
        (spacing : float * float * float) (p : params) :
  match refine_mask base_mask volume spacing p st with
  | (Ok (out, stats), st') =>
      bits (deref st' out)
      /\ final_count stats = np_sum (deref st' out)
      /\ final_count stats = Z.of_nat (length (foreground (deref st' out)))
      /\ (get (dilation_iter p) 0 <= 0 ->
          shape (deref st' out) = shape (deref st base_mask))
  | (Raise _, _) => True
  end.
Proof.
  destruct st as [h em]. rewrite refine_mask_run.
  pose proof (pipeline_bits p volume h base_mask) as Hb.
  unfold pipeline in *.
  destruct (stage1 _ _ _ _) as [[[h1 m1] s1]|e] eqn:E1; [|exact I].
  pose proof (stage2_shape p h1 m1) as S2.
  destruct (stage2 p h1 m1) as [[h2 m2] s2].
  pose proof (stage3_shape h2 m2) as S3.
  destruct (stage3 h2 m2) as [[h3 m3] s3].
  pose proof (stage4_shape p h3 m3) as S4.
  destruct (stage4 p h3 m3) as [h4 s4]. cbn [fst] in S4.
  cbn [final_count]. unfold deref. cbn [heap]. rewrite nth_middle.
  rewrite (astype_bits _ Hb).
  split; [exact Hb|]. split; [reflexivity|]. split; [apply bits_count; exact Hb|].
  intro Hd. rewrite stage1_disabled in E1 by exact Hd.
  injection E1 as <- <- <-.
  rewrite S4, S3, S2. rewrite nth_middle. reflexivity.
Qed.

(** Stage 1 raises for a missing key or for shapes that cannot be
    broadcast, and the pipeline raises only there. *)
Lemma pipeline_raises (p : params) (volume : ref) (h : list ndarray)
      (base_mask : ref) (e : exn) :
  pipeline p volume h base_mask = Raise e -> e <> ZeroDivisionError.
Proof.
  unfold pipeline, stage1.
  destruct (0 <? get (dilation_iter p) 0).
  - destruct (hu_min p); [|intro H; injection H as <-; discriminate].
    destruct (hu_max p); [|intro H; injection H as <-; discriminate].
    destruct (dilation_iter p); [|intro H; injection H as <-; discriminate].
    destruct (np_and _ _); [|intro H; injection H as <-; discriminate].
    destruct (stage2 _ _ _) as [[h2 m2] s2].
    destruct (stage3 h2 m2) as [[h3 m3] s3].
    destruct (stage4 _ h3 m3) as [h4 s4]. discriminate.
  - destruct (stage2 _ _ _) as [[h2 m2] s2].
    destruct (stage3 h2 m2) as [[h3 m3] s3].
    destruct (stage4 _ h3 m3) as [h4 s4]. discriminate.
Qed.

(** C9.  Whenever [refine_mask] returns, [base_count] is the sum of the
    input mask and [final_count] the sum of the returned mask;
    [improvement_percent] is the double
    [(final_count - base_count) / base_count * 100] when [base_count > 0]
    and the integer [0] otherwise; [volume_ml] is the double
    [final_count * np.prod(spacing) / 1000.0], with the product of the
    spacing taken first; with the spacing [(1.0, 1.0, 1.0)] and
    [final_count = 2000] that is [2.0].  Whatever it is given,
    [refine_mask] does not fail with a division by zero. *)
Theorem refine_mask_statistics (st : state) (base_mask volume : ref)
        (sx sy sz : float) (p : params) :
  match refine_mask base_mask volume (sx, sy, sz) p st with
  | (Ok (out, stats), st') =>
      base_count stats = np_sum (deref st base_mask)
      /\ final_count stats = np_sum (deref st' out)
      /\ (0 < base_count stats ->
          improvement_percent stats
          = PyFloat (mul (int_div (final_count stats - base_count stats)
                                  (base_count stats))
                         (of_int 100)))
      /\ (base_count stats <= 0 -> improvement_percent stats = PyInt 0)
      /\ volume_ml stats
         = div (mul (of_int (final_count stats)) (mul (mul sx sy) sz)) (of_int 1000)
      /\ (sx = literal 1 -> sy = literal 1 -> sz = literal 1 ->
          final_count stats = 2000 -> volume_ml stats = literal 2)
      /\ params_copy stats = p
  | (Raise e, _) => e <> ZeroDivisionError
  end.
Proof.
  destruct st as [h em]. rewrite refine_mask_run.
  pose proof (pipeline_bits p volume h base_mask) as Hb.
  pose proof (pipeline_raises p volume h base_mask) as Hr.
  destruct (pipeline p volume h base_mask) as [[[h4 mask] steps']|e];
    [|apply Hr; reflexivity].
  cbv zeta.
  cbn [base_count final_count improvement_percent volume_ml params_copy].
  unfold deref. cbn [heap]. rewrite nth_middle. rewrite (astype_bits _ Hb).
  unfold improvement, millilitres, np_prod.
  split; [reflexivity|]. split; [reflexivity|].
  split.
  { intro Hpos.
    destruct (Z.ltb_spec 0 (np_sum (nth base_mask h empty_array)));
      [reflexivity|lia]. }
  split.
  { intro Hle.
    destruct (Z.ltb_spec 0 (np_sum (nth base_mask h empty_array)));
      [lia|reflexivity]. }
  split; [reflexivity|]. split; [|reflexivity].
  intros -> -> -> ->. vm_compute. reflexivity.
Qed.

(** X17.  [refine_mask] fails only when HU dilation is enabled: with
    [KeyError] for 'hu_min' when that key is absent, with [KeyError] for
    'hu_max' when only that key is absent, and otherwise only with
    numpy's broadcasting [ValueError].  When it fails, no stage has run:
    the copy of the input mask is the only array it has created. *)
Theorem refine_mask_failures (st : state) (base_mask volume : ref)
        (spacing : float * float * float) (p : params) :
  (0 < get (dilation_iter p) 0 -> hu_min p = None ->
   fst (refine_mask base_mask volume spacing p st) = Raise (KeyError "hu_min"))
  /\ (0 < get (dilation_iter p) 0 -> hu_min p <> None -> hu_max p = None ->
      fst (refine_mask base_mask volume spacing p st) = Raise (KeyError "hu_max"))
  /\ (forall e,
        fst (refine_mask base_mask volume spacing p st) = Raise e ->
        0 < get (dilation_iter p) 0
        /\ (e = KeyError "hu_min" /\ hu_min p = None
            \/ e = KeyError "hu_max" /\ hu_min p <> None /\ hu_max p = None
            \/ e = ValueError /\ hu_min p <> None /\ hu_max p <> None)
        /\ heap (snd (refine_mask base_mask volume spacing p st))
           = heap st ++ [deref st base_mask]).
Proof.
  destruct st as [h em]. rewrite refine_mask_run. unfold pipeline, stage1.
  destruct p as [lo hi it cs fh]. cbn [hu_min hu_max dilation_iter].
  split; [|split].
  - intros Hd ->. destruct (Z.ltb_spec 0 (get it 0)); [reflexivity|lia].
  - intros Hd Hlo ->. destruct (Z.ltb_spec 0 (get it 0)); [|lia].
    destruct lo; [reflexivity|contradiction].
  - intros e.
    destruct (Z.ltb_spec 0 (get it 0)) as [Hd|Hd].
    + destruct lo as [lo|].
      * destruct hi as [hi|].
        -- destruct it as [it|]; [|simpl in Hd; lia].
           destruct (np_and _ _) as [r|].
           ++ destruct (stage2 _ _ _) as [[h2 m2] s2].
              destruct (stage3 h2 m2) as [[h3 m3] s3].
              destruct (stage4 _ h3 m3) as [h4 s4]. discriminate.
           ++ cbn [fst snd heap]. intro H. injection H as <-.
              split; [exact Hd|]. split; [|reflexivity].
              right. right. split; [reflexivity|]. split; discriminate.
        -- cbn [fst snd heap]. intro H. injection H as <-.
           split; [exact Hd|]. split; [|reflexivity].
           right. left. split; [reflexivity|]. split; [discriminate|reflexivity].
      * cbn [fst snd heap]. intro H. injection H as <-.
        split; [exact Hd|]. split; [|reflexivity].
        left. split; reflexivity.
    + destruct (stage2 _ _ _) as [[h2 m2] s2].
      destruct (stage3 h2 m2) as [[h3 m3] s3].
      destruct (stage4 _ h3 m3) as [h4 s4]. discriminate.
Qed.

Lemma pipeline_disabled (p p' : params) (volume volume' : ref) (h : list ndarray)
      (base_mask : ref) :
  get (dilation_iter p) 0 <= 0 ->
  dilation_iter p' = dilation_iter p ->
  closing_size p' = closing_size p ->
  fill_holes p' = fill_holes p ->
  pipeline p' volume' h base_mask = pipeline p volume h base_mask.
Proof.
  intros Hd E1 E2 E3. unfold pipeline.
  rewrite !stage1_disabled by (rewrite ?E1; exact Hd).
  unfold stage2, stage4. rewrite E2, E3. reflexivity.
Qed.

(** X18.  With HU dilation disabled, the volume and the HU bounds play no
    part: two calls that differ only in the volume and in [hu_min] and
    [hu_max] leave the same store and return the same mask, steps, counts,
    improvement and volume. *)
Theorem refine_mask_ignores_volume (st : state) (base_mask volume volume' : ref)
        (spacing : float * float * float) (p p' : params) :
  get (dilation_iter p) 0 <= 0 ->
  dilation_iter p' = dilation_iter p ->
  closing_size p' = closing_size p ->
  fill_holes p' = fill_holes p ->
  exists out stats stats' st',
    refine_mask base_mask volume spacing p st = (Ok (out, stats), st')
    /\ refine_mask base_mask volume' spacing p' st = (Ok (out, stats'), st')
    /\ base_count stats' = base_count stats
    /\ steps stats' = steps stats
    /\ final_count stats' = final_count stats
    /\ improvement_percent stats' = improvement_percent stats
    /\ volume_ml stats' = volume_ml stats.
Proof.
  intros Hd E1 E2 E3. destruct st as [h em]. rewrite !refine_mask_run.
  rewrite (pipeline_disabled p p' volume volume' h base_mask Hd E1 E2 E3).
  unfold pipeline. rewrite stage1_disabled by exact Hd.
  destruct (stage2 _ _ _) as [[h2 m2] s2].
  destruct (stage3 h2 m2) as [[h3 m3] s3].
  destruct (stage4 _ h3 m3) as [h4 s4].
  do 4 eexists. repeat split; reflexivity.
Qed.

End PipelineMore.

(* ================================================================= *)
(** ** HU-gated dilation *)

Section HuWindow.
Import Numpy Float64 Runtime Processing Workers Stage3 Stage4 Pipeline.
Context {ops : Ndimage}.
Local Open Scope string_scope.
Local Open Scope list_scope.
Local Open Scope Z_scope.

Lemma nth_land_bools (f : Z -> bool) :
  forall (l : list bool) (l' : list Z) (i : nat),
    nth i (map2 Z.land (map Z.b2z l) (map (fun x => Z.b2z (f x)) l')) 0 = 1 ->
    nth i l false = true /\ f (nth i l' 0) = true.
Proof.
  induction l as [|b l IH]; intros l' i H.
  - destruct i; discriminate H.
  - destruct l' as [|x l'].
    + destruct i; discriminate H.
    + destruct i as [|i].
      * cbn [map map2 nth] in *. destruct b, (f x); try discriminate H. auto.
      * cbn [map map2 nth] in *. apply IH. exact H.
Qed.

Lemma land_bools_bits (f : Z -> bool) (l : list bool) (l' : list Z) :
  Forall (fun v => 0 <= v <= 1)
         (map2 Z.land (map Z.b2z l) (map (fun x => Z.b2z (f x)) l')).
Proof.
  revert l'. induction l as [|b l IH]; intros [|x l']; cbn [map map2];
    try constructor; [|apply IH].
  destruct b, (f x); simpl; lia.
Qed.

Lemma hu_dilation_value (m v : ndarray) (lo hi : Q) (it : Z) :
  shape m = shape v ->
  np_and (dilated m it) (lung_tissue v lo hi)
  = Some (mkArray (shape m)
            (map2 Z.land (map Z.b2z (binary_dilation m it))
                  (map (fun x => Z.b2z (in_hu_range lo hi x)) (data v)))).
Proof.
  intro Hs. unfold np_and, dilated, lung_tissue, of_bools. cbn [shape data].
  rewrite <- Hs, shape_eqb_refl. reflexivity.
Qed.

(** X19.  On a mask and a volume of one shape, [_apply_hu_dilation]
    returns a new 0/1 array of that shape in which every voxel that is set
    is a voxel of the dilated mask whose intensity lies in
    [[hu_min, hu_max]]; the input mask is left as it was, and
    [voxels_added] is the difference of the two counts. *)
Theorem hu_dilation_within_window (st : state) (mask volume : ref)
        (lo hi : Q) (it : Z) :
  shape (deref st mask) = shape (deref st volume) ->
  exists out d st',
    _apply_hu_dilation mask volume lo hi it st = (Ok (out, d), st')
    /\ heap st' = heap st ++ [deref st' out]
    /\ shape (deref st' out) = shape (deref st mask)
    /\ bits (deref st' out)
    /\ (forall i, nth i (data (deref st' out)) 0 = 1 ->
                  nth i (binary_dilation (deref st mask) it) false = true
                  /\ in_hu_range lo hi (nth i (data (deref st volume)) 0) = true)
    /\ lookup "voxels_before" d = Some (np_sum (deref st mask))
    /\ lookup "voxels_after" d = Some (np_sum (deref st' out))
    /\ lookup "voxels_added" d
       = Some (np_sum (deref st' out) - np_sum (deref st mask)).
Proof.
  destruct st as [h em]. unfold deref. cbn [heap]. intro Hs.
  rewrite hu_dilation_run.
  pose proof (hu_dilation_value (nth mask h empty_array) (nth volume h empty_array)
                                lo hi it Hs) as Hv.
  unfold dilated, lung_tissue in Hv. rewrite Hv.
  do 3 eexists. split; [reflexivity|]. cbn [heap]. rewrite nth_middle.
  split; [reflexivity|]. split; [reflexivity|].
  split; [apply land_bools_bits|].
  split; [intros i Hi; apply (nth_land_bools _ _ _ _ Hi)|].
  repeat split; reflexivity.
Qed.

Lemma stage3_subset (h : list ndarray) (mask : ref) (i : nat) :
  let '(h3, m3, _) := stage3 h mask in
  nth i (data (nth m3 h3 empty_array)) 0 <> 0 ->
  nth i (data (nth mask h empty_array)) 0 <> 0.
Proof.
  unfold stage3. destruct (num_components _ =? 0); [auto|].
  rewrite nth_middle. apply cleaned_subset.
Qed.

(** X20.  With HU dilation as the only optional stage (closing and hole
    filling disabled), on a mask and a volume of one shape, every voxel of
    the refined mask has an intensity in [[hu_min, hu_max]]: voxels of the
    input mask outside that range are dropped. *)
Theorem refine_mask_within_window (st : state) (base_mask volume : ref)
        (spacing : float * float * float) (lo hi : Q) (it : Z) (cs : option Z) (fh : option bool) :
  0 < it -> get cs 1 <= 1 -> get fh false = false ->
  (volume < length (heap st))%nat ->
  shape (deref st base_mask) = shape (deref st volume) ->
  exists out stats st',
    refine_mask base_mask volume spacing
      (mkParams (Some lo) (Some hi) (Some it) cs fh) st
    = (Ok (out, stats), st')
    /\ forall i, nth i (data (deref st' out)) 0 = 1 ->
                 in_hu_range lo hi (nth i (data (deref st volume)) 0) = true.
Proof.
  destruct st as [h em]. unfold deref. cbn [heap]. intros Hit Hcs Hfh Hv Hs.
  rewrite refine_mask_run.
  pose proof (pipeline_bits (mkParams (Some lo) (Some hi) (Some it) cs fh)
                            volume h base_mask) as Hb.
  unfold pipeline, stage1, stage2, stage4 in *.
  cbn [hu_min hu_max dilation_iter closing_size fill_holes get] in *.
  destruct (Z.ltb_spec 0 it) as [_|]; [|lia].
  destruct (Z.ltb_spec 1 (get cs 1)) as [|_]; [lia|].
  rewrite Hfh in *. rewrite nth_middle in *.
  rewrite (app_nth1 h _ _ Hv) in *.
  rewrite (hu_dilation_value _ _ lo hi it Hs) in *.
  match goal with
  | |- context [stage3 ?H ?M] =>
      pose proof (fun i => stage3_subset H M i) as Hsub;
      destruct (stage3 H M) as [[h3 m3] s3]
  end.
  do 3 eexists. split; [reflexivity|]. cbn [heap]. rewrite nth_middle.
  rewrite (astype_bits _ Hb). intros i Hi.
  assert (Hnz : nth i (data (nth m3 h3 empty_array)) 0 <> 0) by lia.
  apply Hsub in Hnz. rewrite nth_middle in Hnz. cbn [data] in Hnz.
  assert (H1 : nth i (map2 Z.land (map Z.b2z (binary_dilation (nth base_mask h empty_array) it))
                        (map (fun x => Z.b2z (in_hu_range lo hi x))
                             (data (nth volume h empty_array)))) 0 = 1).
  { pose proof (land_bools_bits (in_hu_range lo hi)
                  (binary_dilation (nth base_mask h empty_array) it)
                  (data (nth volume h empty_array))) as Hbits.
    rewrite Forall_forall in Hbits.
    destruct (Nat.lt_ge_cases i
                (length (map2 Z.land
                           (map Z.b2z (binary_dilation (nth base_mask h empty_array) it))
                           (map (fun x => Z.b2z (in_hu_range lo hi x))
                                (data (nth volume h empty_array)))))) as [Hl|Hl].
    - specialize (Hbits _ (nth_In _ 0 Hl)). lia.
    - rewrite nth_overflow in Hnz by exact Hl. contradiction. }
  apply (nth_land_bools _ _ _ _ H1).
Qed.

End HuWindow.

(* ================================================================= *)
(** ** The progress signals of the worker *)

Section WorkerProgress.
Import Numpy Runtime Processing Workers Stage3 Stage4 Pipeline.
Context {ops : Ndimage}.
Local Open Scope string_scope.
Local Open Scope list_scope.
Local Open Scope Z_scope.

(** [80 + int((z / total_slices) * 15)] in integer arithmetic. *)
Lemma progress_pct_div (z total_slices : nat) :
  (0 < total_slices)%nat ->
  progress_pct z total_slices = 80 + 15 * Z.of_nat z / Z.of_nat total_slices.
Proof.
  intro Ht. unfold progress_pct. f_equal.
  destruct (Z.of_nat total_slices) as [|t|t] eqn:Et; try lia.
  unfold Qdiv, Qinv, Qmult, inject_Z, Qfloor. cbn [Qnum Qden].
  rewrite Pos.mul_1_l, Pos.mul_1_r, Z.mul_1_r. f_equal. lia.
Qed.

Lemma progress_pct_bounds (z total_slices : nat) :
  (z < total_slices)%nat -> 80 <= progress_pct z total_slices <= 94.
Proof.
  intro H. rewrite progress_pct_div by lia.
  assert (0 <= 15 * Z.of_nat z / Z.of_nat total_slices < 15); [|lia].
  split.
  - apply Z.div_pos; lia.
  - apply Z.div_lt_upper_bound; lia.
Qed.

Lemma progress_pct_mono (z z' total_slices : nat) :
  (0 < total_slices)%nat -> (z <= z')%nat ->
  progress_pct z total_slices <= progress_pct z' total_slices.
Proof.
  intros Ht H. rewrite !progress_pct_div by exact Ht.
  assert (15 * Z.of_nat z / Z.of_nat total_slices
          <= 15 * Z.of_nat z' / Z.of_nat total_slices); [|lia].
  apply Z.div_le_mono; lia.
Qed.

Lemma fill_emits_cons (total_slices z : nat) (zs : list nat) :
  fill_emits total_slices (z :: zs)
  = (if (z mod 10 =? 0)%nat
     then [(progress_pct z total_slices, MsgFillHoles z total_slices)]
     else []) ++ fill_emits total_slices zs.
Proof. reflexivity. Qed.

Lemma fill_emits_from (total_slices : nat) (x : Z) :
  forall (n a : nat),
    In x (map fst (fill_emits total_slices (seq a n))) ->
    exists z, (a <= z < a + n)%nat /\ x = progress_pct z total_slices.
Proof.
  induction n as [|n IH]; intros a H; [destruct H|].
  cbn [seq] in H. rewrite fill_emits_cons, map_app in H.
  apply in_app_or in H. destruct H as [H|H].
  - destruct (a mod 10 =? 0)%nat; [|destruct H].
    destruct H as [H|[]]. exists a. split; [lia|]. symmetry. exact H.
  - apply IH in H. destruct H as [z [Hz E]]. exists z. split; [lia|exact E].
Qed.

Lemma fill_emits_sorted (total_slices : nat) :
  forall (n a : nat),
    (a + n <= total_slices)%nat ->
    StronglySorted Z.le (map fst (fill_emits total_slices (seq a n))).
Proof.
  induction n as [|n IH]; intros a H; [constructor|].
  cbn [seq]. rewrite fill_emits_cons, map_app.
  destruct (a mod 10 =? 0)%nat; [|apply IH; lia].
  cbn [map fst app]. constructor; [apply IH; lia|].
  apply Forall_forall. intros x Hx. apply fill_emits_from in Hx.
  destruct Hx as [z [Hz ->]]. apply progress_pct_mono; lia.
Qed.

Lemma sorted_app (l l' : list Z) :
  StronglySorted Z.le l -> StronglySorted Z.le l' ->
  (forall x y, In x l -> In y l' -> x <= y) ->
  StronglySorted Z.le (l ++ l').
Proof.
  intros Hl Hl' H. induction Hl as [|x l Hs IH Hx]; [exact Hl'|].
  simpl. constructor.
  - apply IH. intros u v Hu Hv. apply H; [right; exact Hu|exact Hv].
  - apply Forall_app. split; [exact Hx|].
    apply Forall_forall. intros y Hy. apply H; [left; reflexivity|exact Hy].
Qed.

Lemma signals1_values (p : params) (x : Z) : In x (map fst (signals1 p)) -> x = 20.
Proof.
  unfold signals1. destruct (0 <? _); [|intros []].
  destruct (hu_min p); [|intros []]. destruct (hu_max p); [|intros []].
  intros [H|[]]. symmetry. exact H.
Qed.

Lemma signals2_values (p : params) (x : Z) : In x (map fst (signals2 p)) -> x = 40.
Proof.
  unfold signals2. destruct (1 <? _); [|intros []].
  intros [H|[]]. symmetry. exact H.
Qed.

Lemma signals4_values (p : params) (m : ndarray) (x : Z) :
  In x (map fst (signals4 p m)) -> 80 <= x <= 94.
Proof.
  unfold signals4. destruct (get (fill_holes p) false); [|intros []].
  intro H. apply fill_emits_from in H. destruct H as [z [Hz ->]].
  apply progress_pct_bounds. lia.
Qed.

Lemma signals1_sorted (p : params) : StronglySorted Z.le (map fst (signals1 p)).
Proof.
  unfold signals1. destruct (0 <? _); [|constructor].
  destruct (hu_min p); [|constructor]. destruct (hu_max p); [|constructor].
  repeat constructor.
Qed.

Lemma signals2_sorted (p : params) : StronglySorted Z.le (map fst (signals2 p)).
Proof. unfold signals2. destruct (1 <? _); repeat constructor. Qed.

Lemma signals4_sorted (p : params) (m : ndarray) :
  StronglySorted Z.le (map fst (signals4 p m)).
Proof.
  unfold signals4. destruct (get (fill_holes p) false); [|constructor].
  apply fill_emits_sorted. lia.
Qed.

Ltac band :=
  repeat match goal with
         | H : In _ (_ ++ _) |- _ => apply in_app_or in H; destruct H as [H|H]
         | H : In _ (map fst (signals1 _)) |- _ => apply signals1_values in H
         | H : In _ (map fst (signals2 _)) |- _ => apply signals2_values in H
         | H : In _ (map fst (signals4 _ _)) |- _ => apply signals4_values in H
         | H : In _ [] |- _ => destruct H
         | H : In _ (_ :: _) |- _ => destruct H as [<-|H]
         end;
  lia.

(** X21.  The progress percentages [_refine_with_progress] emits never go
    backwards and stay between 20 and 95.  When it returns, 60 (noise
    removal) is among them and 95 is the last one; when it fails, it has
    emitted at most the 20 of the dilation stage. *)
Theorem worker_progress_monotone (self : MaskRefinementWorker) (st : state) :
  exists new,
    emitted (snd (_refine_with_progress self st)) = emitted st ++ new
    /\ StronglySorted Z.le (map fst new)
    /\ Forall (fun pct => 20 <= pct <= 95) (map fst new)
    /\ match fst (_refine_with_progress self st) with
       | Ok _ => In 60 (map fst new) /\ last (map fst new) 0 = 95
       | Raise _ => Forall (fun pct => pct = 20) (map fst new)
       end.
Proof.
  destruct st as [h em]. rewrite worker_run. cbv zeta.
  set (p := worker_params self).
  destruct (pipeline p (volume self) h (base_mask self)) as [[[h4 mask] ss]|e].
  - set (m := nth mask h4 empty_array).
    exists (signals1 p ++ signals2 p ++ [(60, MsgNoiseRemoval)]
              ++ signals4 p m ++ [(95, MsgFinalizing)]).
    cbn [fst snd emitted]. split; [reflexivity|].
    rewrite !map_app. cbn [map fst].
    split; [|split; [|split]].
    + apply sorted_app; [apply signals1_sorted| |intros x y Hx Hy; band].
      apply sorted_app; [apply signals2_sorted| |intros x y Hx Hy; band].
      apply (sorted_app [60]); [repeat constructor| |intros x y Hx Hy; band].
      apply sorted_app; [apply signals4_sorted|repeat constructor|].
      intros x y Hx Hy; band.
    + apply Forall_forall. intros x Hx. band.
    + apply in_or_app. right. apply in_or_app. right. left. reflexivity.
    + rewrite !app_assoc. apply last_last.
  - exists (signals1 p). cbn [fst snd emitted]. split; [reflexivity|].
    split; [apply signals1_sorted|].
    split; apply Forall_forall; intros x Hx; apply signals1_values in Hx; lia.
Qed.

End WorkerProgress.

(* ================================================================= *)
(** ** The metrics of a refined mask *)

Section RefinedMetrics.
Import Numpy Float64 Runtime Processing Workers Stage3 Stage4 Pipeline Metrics.
Context {ops : Ndimage}.
Local Open Scope string_scope.
Local Open Scope list_scope.
Local Open Scope Z_scope.

Lemma zsum_land_subset :
  forall o b : list Z,
    (forall i, nth i o 0 <> 0 -> nth i b 0 <> 0) ->
    zsum (map2 Z.land (map (fun v => Z.b2z (negb (v =? 0))) o)
               (map (fun v => Z.b2z (v =? 0))
                    (map (fun v => Z.b2z (negb (v =? 0))) b)))
    = 0.
Proof.
  induction o as [|x o IH]; intros b H; [reflexivity|].
  destruct b as [|y b]; [reflexivity|].
  cbn [map map2].
  change (zsum (?u :: ?l)) with (u + zsum l).
  rewrite (IH b) by (intros i Hi; apply (H (S i)); exact Hi).
  specialize (H O). cbn [nth] in H.
  destruct (Z.eqb_spec x 0) as [Ex|Ex]; [reflexivity|].
  destruct (Z.eqb_spec y 0) as [Ey|Ey]; [exfalso; apply (H Ex); exact Ey|reflexivity].
Qed.

Lemma binary_astype_bool (a : ndarray) : binary a -> astype_bool a = a.
Proof.
  destruct a as [s d]. unfold binary, astype_bool. cbn [shape data]. intro H.
  f_equal. induction H as [|v l Hv Hl IH]; [reflexivity|].
  cbn [map]. rewrite IH. destruct Hv as [-> | ->]; reflexivity.
Qed.

(** X22.  With the three optional stages disabled, comparing the input
    mask with the refined one by [calculate_mask_difference] reports no
    added voxel; the unchanged voxels are [final_count] and the removed
    ones [base_count - final_count]. *)
Theorem difference_after_noise_removal (st : state) (base_mask volume : ref)
        (spacing : float * float * float) (p : params) :
  binary (deref st base_mask) ->
  get (dilation_iter p) 0 <= 0 -> get (closing_size p) 1 <= 1 ->
  get (fill_holes p) false = false ->
  exists out stats st' d,
    refine_mask base_mask volume spacing p st = (Ok (out, stats), st')
    /\ calculate_mask_difference (deref st base_mask) (deref st' out) = Ok d
    /\ added_voxels d = 0
    /\ unchanged_voxels d = final_count stats
    /\ removed_voxels d = base_count stats - final_count stats
    /\ mask1_count d = base_count stats
    /\ mask2_count d = final_count stats.
Proof.
  destruct st as [h em]. unfold deref. cbn [heap].
  intros Hb Hd Hc Hf.
  rewrite refine_mask_run.
  pose proof (pipeline_bits p volume h base_mask) as Hbits.
  unfold pipeline in *. rewrite stage1_disabled in * by exact Hd.
  unfold stage2, stage4 in *. rewrite Hf in *.
  destruct (Z.ltb_spec 1 (get (closing_size p) 1)) as [|_]; [lia|].
  set (b := nth base_mask h empty_array) in *.
  pose proof (fun i => stage3_subset (h ++ [b]) (length h) i) as Hsub.
  pose proof (stage3_shape (h ++ [b]) (length h)) as Hshape.
  assert (Hlen : let '(h3, m3, _) := stage3 (h ++ [b]) (length h) in
                 length (data (nth m3 h3 empty_array)) = length (data b)).
  { unfold stage3. rewrite nth_middle. destruct (num_components b =? 0).
    - rewrite nth_middle. reflexivity.
    - rewrite nth_middle. apply cleaned_length. }
  destruct (stage3 (h ++ [b]) (length h)) as [[h3 m3] s3].
  rewrite nth_middle in Hsub, Hshape. fold b in Hsub, Hshape.
  set (o := nth m3 h3 empty_array) in *.
  do 4 eexists. split; [reflexivity|]. cbn [heap]. rewrite nth_middle.
  rewrite (astype_bits o Hbits).
  rewrite (mask_difference_value b o (eq_sym Hshape)).
  split; [reflexivity|].
  cbn [added_voxels unchanged_voxels removed_voxels mask1_count mask2_count
       base_count final_count].
  assert (Ho : astype_bool o = o).
  { apply binary_astype_bool. apply bits_binary. exact Hbits. }
  assert (Ba : bits (astype_bool b)) by apply astype_bool_bits.
  assert (Bo : bits (astype_bool o)) by apply astype_bool_bits.
  assert (Hl' : length (data (astype_bool b)) = length (data (astype_bool o))).
  { unfold astype_bool. cbn [data]. rewrite !length_map. symmetry. exact Hlen. }
  pose proof (zsum_split _ _ Bo Ba (eq_sym Hl')) as So.
  pose proof (zsum_split _ _ Ba Bo Hl') as Sb.
  rewrite (map2_land_comm (data (astype_bool o)) (data (astype_bool b))) in So.
  assert (Hadd : zsum (map2 Z.land (data (astype_bool o))
                            (data (np_invert (astype_bool b)))) = 0).
  { unfold np_invert, astype_bool. cbn [data]. apply zsum_land_subset. exact Hsub. }
  unfold np_invert in *. cbn [data] in *. rewrite Hadd in *.
  rewrite (binary_astype_bool b Hb) in *. rewrite Ho in *.
  unfold np_sum in *. repeat split; lia.
Qed.

End RefinedMetrics.

(* ================================================================= *)
(** ** Slices of a well-formed array *)

Section SliceFacts.
Import Numpy Runtime Processing Stage4 Shapes.
Local Open Scope list_scope.

Lemma set_slice_size (a : ndarray) (z : nat) (new : list Z) :
  slice_size (set_slice a z new) = slice_size a.
Proof. reflexivity. Qed.

Lemma get_slice_length (a : ndarray) (z : nat) :
  well_formed a -> (z < fst (fst (shape a)))%nat ->
  length (get_slice a z) = slice_size a.
Proof.
  unfold well_formed, get_slice. intros Hw Hz.
  rewrite length_firstn, length_skipn, Hw. nia.
Qed.

Lemma nth_get_slice (a : ndarray) (z i : nat) :
  nth i (get_slice a z) 0%Z
  = if (i <? slice_size a)%nat then nth (z * slice_size a + i) (data a) 0%Z else 0%Z.
Proof.
  unfold get_slice. rewrite nth_firstn.
  destruct (i <? slice_size a)%nat; [|reflexivity].
  apply nth_skipn.
Qed.

Lemma nth_set_slice (a : ndarray) (z j : nat) (new : list Z) :
  well_formed a -> (z < fst (fst (shape a)))%nat -> length new = slice_size a ->
  nth j (data (set_slice a z new)) 0%Z
  = if (j <? z * slice_size a)%nat then nth j (data a) 0%Z
    else if (j <? z * slice_size a + slice_size a)%nat
         then nth (j - z * slice_size a) new 0%Z
         else nth j (data a) 0%Z.
Proof.
  unfold well_formed. intros Hw Hz Hn. unfold set_slice. cbn [data].
  set (S := slice_size a) in *.
  assert (Hl : length (firstn (z * S) (data a)) = (z * S)%nat).
  { rewrite length_firstn, Hw. nia. }
  destruct (Nat.ltb_spec j (z * S)) as [H1|H1].
  - rewrite app_nth1 by lia. rewrite nth_firstn.
    destruct (Nat.ltb_spec j (z * S)); [reflexivity|lia].
  - rewrite app_nth2 by lia. rewrite Hl.
    destruct (Nat.ltb_spec j (z * S + S)) as [H2|H2].
    + rewrite app_nth1 by lia. reflexivity.
    + rewrite app_nth2 by lia. rewrite nth_skipn. f_equal. lia.
Qed.

Lemma set_slice_well_formed (a : ndarray) (z : nat) (new : list Z) :
  well_formed a -> (z < fst (fst (shape a)))%nat -> length new = slice_size a ->
  well_formed (set_slice a z new).
Proof.
  unfold well_formed. intros Hw Hz Hn. rewrite set_slice_size.
  unfold set_slice. cbn [data shape].
  rewrite !length_app, length_firstn, length_skipn, Hn, Hw. nia.
Qed.

Lemma get_set_slice_same (a : ndarray) (z : nat) (new : list Z) :
  well_formed a -> (z < fst (fst (shape a)))%nat -> length new = slice_size a ->
  get_slice (set_slice a z new) z = new.
Proof.
  intros Hw Hz Hn.
  apply (nth_ext _ _ 0%Z 0%Z).
  - rewrite get_slice_length;
      [rewrite set_slice_size; symmetry; exact Hn
      |apply set_slice_well_formed; assumption|exact Hz].
  - intros i Hi.
    rewrite get_slice_length in Hi;
      [|apply set_slice_well_formed; assumption|exact Hz].
    rewrite set_slice_size in Hi.
    rewrite nth_get_slice, set_slice_size.
    destruct (Nat.ltb_spec i (slice_size a)); [|lia].
    rewrite nth_set_slice by assumption.
    destruct (Nat.ltb_spec (z * slice_size a + i) (z * slice_size a)); [lia|].
    destruct (Nat.ltb_spec (z * slice_size a + i) (z * slice_size a + slice_size a));
      [|lia].
    f_equal. lia.
Qed.

Lemma get_set_slice_other (a : ndarray) (z z' : nat) (new : list Z) :
  well_formed a -> (z < fst (fst (shape a)))%nat -> length new = slice_size a ->
  z' <> z ->
  get_slice (set_slice a z new) z' = get_slice a z'.
Proof.
  intros Hw Hz Hn Hne.
  apply (nth_ext _ _ 0%Z 0%Z).
  - unfold get_slice. rewrite !length_firstn, !length_skipn, set_slice_size.
    pose proof (set_slice_well_formed a z new Hw Hz Hn) as Hw'.
    unfold well_formed in *. rewrite Hw', Hw. reflexivity.
  - intros i _. rewrite !nth_get_slice, set_slice_size.
    destruct (Nat.ltb_spec i (slice_size a)) as [Hi|Hi]; [|reflexivity].
    rewrite nth_set_slice by assumption.
    destruct (Nat.ltb_spec (z' * slice_size a + i) (z * slice_size a)) as [H1|H1];
      [reflexivity|].
    destruct (Nat.ltb_spec (z' * slice_size a + i) (z * slice_size a + slice_size a))
      as [H2|H2]; [|reflexivity].
    exfalso. nia.
Qed.

(** The data of a well-formed array are its slices, one after the
    other. *)
Lemma zsum_app (l l' : list Z) : zsum (l ++ l') = (zsum l + zsum l')%Z.
Proof.
  induction l as [|x l IH]; [reflexivity|].
  change (zsum ((x :: l) ++ l')) with (x + zsum (l ++ l'))%Z.
  change (zsum (x :: l)) with (x + zsum l)%Z. rewrite IH. lia.
Qed.

Lemma zsum_slices (S : nat) :
  forall (d : nat) (l : list Z),
    length l = (d * S)%nat ->
    zsum l = zsum (map (fun z => zsum (firstn S (skipn (z * S) l))) (seq 0 d)).
Proof.
  induction d as [|d IH]; intros l Hl.
  - destruct l; [reflexivity|discriminate].
  - rewrite seq_S, map_app, zsum_app. cbn [map].
    change (zsum [?x]) with (x + 0)%Z. rewrite Z.add_0_r. cbn [Nat.add].
    rewrite <- (firstn_skipn (d * S) l) at 1. rewrite zsum_app.
    assert (Hf : length (firstn (d * S) l) = (d * S)%nat)
      by (rewrite length_firstn; lia).
    rewrite (IH (firstn (d * S) l) Hf).
    f_equal.
    + f_equal. apply map_ext_in. intros z Hz. apply in_seq in Hz.
      f_equal. apply (nth_ext _ _ 0%Z 0%Z).
      * rewrite !length_firstn, !length_skipn, length_firstn. nia.
      * intros i _. rewrite !nth_firstn.
        destruct (Nat.ltb_spec i S); [|reflexivity].
        rewrite !nth_skipn, nth_firstn.
        destruct (Nat.ltb_spec (z * S + i) (d * S)); [reflexivity|nia].
    + f_equal. symmetry. apply firstn_all2. rewrite length_skipn. nia.
Qed.

Lemma np_sum_slices (a : ndarray) :
  well_formed a -> np_sum a = zsum (DataIO.slice_sums a).
Proof.
  intro Hw. unfold np_sum, DataIO.slice_sums, get_slice.
  apply zsum_slices. exact Hw.
Qed.

End SliceFacts.

(* ================================================================= *)
(** ** [get_mask_statistics] *)

Section MaskStatistics.
Import Numpy Float64 Runtime Processing Stage4 Shapes Pipeline DataIO.
Context {ops : Ndimage}.
Local Open Scope list_scope.
Local Open Scope Z_scope.

Lemma count_positive_bounds (l : list Z) :
  0 <= zsum (map (fun s => Z.b2z (0 <? s)) l) <= Z.of_nat (length l).
Proof.
  induction l as [|x l IH]; [simpl; lia|].
  cbn [map length]. change (zsum (?u :: ?t)) with (u + zsum t).
  destruct (0 <? x); simpl Z.b2z; lia.
Qed.

Lemma count_positive_zero (l : list Z) :
  Forall (fun s => 0 <= s) l ->
  (zsum (map (fun s => Z.b2z (0 <? s)) l) = 0 <-> zsum l = 0).
Proof.
  induction 1 as [|x l Hx Hl IH]; [simpl; tauto|].
  cbn [map]. change (zsum (?u :: ?t)) with (u + zsum t).
  pose proof (count_positive_bounds l) as [Hc _].
  pose proof (zsum_nonneg l (proj1 (Forall_forall _ _) Hl)) as Hs.
  destruct (Z.ltb_spec 0 x); simpl Z.b2z; lia.
Qed.

Lemma slice_sums_nonneg (m : ndarray) :
  Forall (fun v => 0 <= v) (data m) -> Forall (fun s => 0 <= s) (slice_sums m).
Proof.
  intro H. unfold slice_sums. apply Forall_forall. intros s Hs.
  apply in_map_iff in Hs. destruct Hs as [z [<- _]].
  apply zsum_nonneg. apply Forall_forall. unfold get_slice.
  apply Forall_firstn_Z, Forall_skipn_Z. exact H.
Qed.

(** On unsigned values the sum is positive exactly when some value is
    not zero. *)
Lemma positive_sum_any (l : list Z) :
  Forall (fun v => 0 <= v) l -> (0 <? zsum l) = np_any l.
Proof.
  unfold np_any. induction 1 as [|v l Hv Hl IH]; [reflexivity|].
  change (zsum (v :: l)) with (v + zsum l). cbn [existsb]. rewrite <- IH.
  pose proof (zsum_nonneg l (proj1 (Forall_forall _ _) Hl)) as Hs.
  destruct (Z.eqb_spec v 0) as [->|Hnz]; cbn [negb orb]; [reflexivity|].
  apply Z.ltb_lt. lia.
Qed.

(** X23.  For a mask of unsigned values whose data fit its shape,
    [get_mask_statistics] reports as [z_coverage] the number of slices
    that hold a voxel: it lies between 0 and [z_total], the number of
    slices, and is 0 exactly when the mask has no voxel; [volume_cm3]
    repeats [volume_ml]. *)
Theorem mask_statistics_coverage (mask : ndarray) (spacing : float * float * float) :
  Forall (fun v => 0 <= v) (data mask) -> well_formed mask ->
  let s := get_mask_statistics mask spacing in
  0 <= z_coverage s <= z_total s
  /\ (z_coverage s = 0 <-> voxel_count s = 0)
  /\ z_coverage s
     = Z.of_nat (length (filter (fun z => np_any (get_slice mask z))
                                (seq 0 (fst (fst (shape mask))))))
  /\ z_total s = Z.of_nat (fst (fst (shape mask)))
  /\ volume_cm3 s = DataIO.volume_ml s.
Proof.
  intros Hn Hw s. unfold s, get_mask_statistics.
  cbn [z_coverage z_total voxel_count volume_cm3 DataIO.volume_ml].
  split; [|split; [|split; [|split; reflexivity]]].
  - pose proof (count_positive_bounds (slice_sums mask)) as H.
    unfold slice_sums in H at 3. rewrite length_map, length_seq in H. exact H.
  - rewrite (np_sum_slices mask Hw).
    apply count_positive_zero. apply slice_sums_nonneg. exact Hn.
  - rewrite <- zsum_indicator_length. unfold slice_sums. rewrite map_map.
    f_equal. apply map_ext. intro z. rewrite positive_sum_any.
    + destruct (np_any (get_slice mask z)); reflexivity.
    + unfold get_slice. apply Forall_firstn_Z, Forall_skipn_Z. exact Hn.
Qed.

(** X24.  [get_mask_statistics] on the mask [refine_mask] returns, with
    the same spacing, reports the [final_count] and the [volume_ml] of
    [refine_mask]'s own statistics. *)
Theorem mask_statistics_agree (st : state) (base_mask volume : ref)
        (spacing : float * float * float) (p : params) :
  match refine_mask base_mask volume spacing p st with
  | (Ok (out, stats), st') =>
      voxel_count (get_mask_statistics (deref st' out) spacing) = final_count stats
      /\ DataIO.volume_ml (get_mask_statistics (deref st' out) spacing)
         = Processing.volume_ml stats
  | (Raise _, _) => True
  end.
Proof.
  destruct st as [h em]. rewrite refine_mask_run.
  pose proof (pipeline_bits p volume h base_mask) as Hb.
  destruct (pipeline p volume h base_mask) as [[[h4 mask] ss]|e]; [|exact I].
  cbv zeta. unfold deref. cbn [heap final_count Processing.volume_ml].
  rewrite nth_middle. rewrite (astype_bits _ Hb).
  split; reflexivity.
Qed.

End MaskStatistics.

(* ================================================================= *)
(** ** Hole filling, slice by slice *)

Section FillHoles.
Import Numpy Runtime Processing Stage4 Shapes Pipeline.
Context {ops : Ndimage}.
Hypothesis fill_shape : fill_keeps_shape ops.
Local Open Scope string_scope.
Local Open Scope list_scope.

Lemma fill_step_array (mask : ref) (h : list ndarray) (z : nat) :
  (mask < length h)%nat ->
  nth mask (fill_step mask h z) empty_array
  = if np_any (get_slice (nth mask h empty_array) z)
    then set_slice (nth mask h empty_array) z (filled_slice (nth mask h empty_array) z)
    else nth mask h empty_array.
Proof.
  intro Hm. unfold fill_step, filled_slice.
  destruct (np_any (get_slice (nth mask h empty_array) z)) eqn:E; [|reflexivity].
  destruct (shape (nth mask h empty_array)) as [[d hh] w] eqn:Es.
  rewrite update_nth_same by exact Hm. reflexivity.
Qed.

Lemma filled_slice_length (a : ndarray) (z : nat) :
  well_formed a -> (z < fst (fst (shape a)))%nat ->
  length (filled_slice a z) = slice_size a.
Proof.
  intros Hw Hz. unfold filled_slice.
  destruct (np_any _); [rewrite length_map, fill_shape|];
    apply get_slice_length; assumption.
Qed.

Lemma fill_loop_spec (mask : ref) :
  forall (zs : list nat) (h : list ndarray),
    (mask < length h)%nat ->
    well_formed (nth mask h empty_array) ->
    NoDup zs ->
    (forall z, In z zs -> (z < fst (fst (shape (nth mask h empty_array))))%nat) ->
    let a := nth mask h empty_array in
    let a' := nth mask (fold_left (fill_step mask) zs h) empty_array in
    well_formed a' /\ shape a' = shape a
    /\ (forall z, (z < fst (fst (shape a)))%nat ->
                  get_slice a' z = if in_dec Nat.eq_dec z zs
                                   then filled_slice a z else get_slice a z)
    /\ fill_count mask h zs
       = Z.of_nat (length (filter (fun z => np_any (get_slice a z)) zs)).
Proof.
  induction zs as [|z zs IH]; intros h Hm Hw Hnd Hz a a'.
  - subst a a'. simpl. repeat split; auto.
  - inversion Hnd as [|? ? Hnotin Hnd']; subst.
    assert (Hzd : (z < fst (fst (shape a)))%nat) by (apply Hz; left; reflexivity).
    set (h1 := fill_step mask h z).
    set (a1 := nth mask h1 empty_array).
    assert (Ea1 : a1 = if np_any (get_slice a z)
                       then set_slice a z (filled_slice a z) else a)
      by (apply fill_step_array; exact Hm).
    assert (Hfl : length (filled_slice a z) = slice_size a)
      by (apply filled_slice_length; assumption).
    assert (Hw1 : well_formed a1).
    { rewrite Ea1. destruct (np_any _); [|exact Hw].
      apply set_slice_well_formed; assumption. }
    assert (Hs1 : shape a1 = shape a).
    { rewrite Ea1. destruct (np_any _); reflexivity. }
    assert (Hsame : get_slice a1 z = filled_slice a z).
    { rewrite Ea1. destruct (np_any (get_slice a z)) eqn:E.
      - apply get_set_slice_same; assumption.
      - unfold filled_slice. rewrite E. reflexivity. }
    assert (Hother : forall z', z' <> z -> get_slice a1 z' = get_slice a z').
    { intros z' Hne. rewrite Ea1. destruct (np_any (get_slice a z)); [|reflexivity].
      apply get_set_slice_other; assumption. }
    assert (Hm1 : (mask < length h1)%nat)
      by (unfold h1; rewrite fill_step_length; exact Hm).
    assert (Hz1 : forall u, In u zs ->
                            (u < fst (fst (shape (nth mask h1 empty_array))))%nat).
    { intros u Hu. fold a1. rewrite Hs1. apply Hz. right. exact Hu. }
    destruct (IH h1 Hm1 Hw1 Hnd' Hz1) as (W & Sh & Sl & Cn).
    fold a1 in W, Sh, Sl, Cn.
    change (fold_left (fill_step mask) (z :: zs) h)
      with (fold_left (fill_step mask) zs h1) in a'.
    fold a' in W, Sh, Sl.
    split; [exact W|]. split; [rewrite Sh; exact Hs1|]. split.
    + intros u Hu. rewrite Sl by (rewrite Hs1; exact Hu).
      destruct (in_dec Nat.eq_dec u zs) as [Hin|Hin];
        destruct (in_dec Nat.eq_dec u (z :: zs)) as [Hin'|Hin'].
      * assert (u <> z) by (intro; subst; contradiction).
        unfold filled_slice. rewrite Hs1, (Hother u) by assumption. reflexivity.
      * exfalso. apply Hin'. right. exact Hin.
      * destruct Hin' as [<-|Hin']; [exact Hsame|contradiction].
      * apply Hother. intro; subst. apply Hin'. left. reflexivity.
    + cbn [fill_count filter]. fold a. fold h1. rewrite Cn.
      assert (Ef : filter (fun u => np_any (get_slice a1 u)) zs
                   = filter (fun u => np_any (get_slice a u)) zs).
      { apply filter_ext_in. intros u Hu. rewrite Hother; [reflexivity|].
        intro; subst; contradiction. }
      rewrite Ef. destruct (np_any (get_slice a z)); cbn [length]; lia.
Qed.

Lemma fill_loop_other (mask r : ref) (zs : list nat) (h : list ndarray) :
  r <> mask ->
  nth r (fold_left (fill_step mask) zs h) empty_array = nth r h empty_array.
Proof.
  intro Hr. revert h. induction zs as [|z zs IH]; intro h; simpl; [reflexivity|].
  rewrite IH. apply fill_step_other. exact Hr.
Qed.

(** X25.  On a mask whose data fit its shape, [_fill_holes_2d] works in
    place and slice by slice: it returns the array it was given; every
    slice that was empty stays as it was, every other slice becomes what
    [binary_fill_holes] makes of that slice; [slices_processed] is the
    number of slices that were not empty; no other array changes. *)
Theorem fill_holes_slicewise (st : state) (mask : ref) :
  (mask < length (heap st))%nat ->
  well_formed (deref st mask) ->
  exists d st',
    _fill_holes_2d mask st = (Ok (mask, d), st')
    /\ shape (deref st' mask) = shape (deref st mask)
    /\ (forall z, (z < fst (fst (shape (deref st mask))))%nat ->
                  get_slice (deref st' mask) z
                  = if np_any (get_slice (deref st mask) z)
                    then map Z.b2z
                           (binary_fill_holes (snd (fst (shape (deref st mask))))
                                              (snd (shape (deref st mask)))
                                              (get_slice (deref st mask) z))
                    else get_slice (deref st mask) z)
    /\ lookup "slices_processed" d
       = Some (Z.of_nat (length (filter (fun z => np_any (get_slice (deref st mask) z))
                                        (seq 0 (fst (fst (shape (deref st mask))))))))
    /\ lookup "voxels_added" d
       = Some (np_sum (deref st' mask) - np_sum (deref st mask))
    /\ (forall r, r <> mask -> deref st' r = deref st r).
Proof.
  destruct st as [h em]. unfold deref. cbn [heap]. intros Hm Hw.
  rewrite fill_holes_run.
  set (a := nth mask h empty_array) in *.
  set (zs := seq 0 (fst (fst (shape a)))).
  destruct (fill_loop_spec mask zs h Hm Hw (seq_NoDup _ _)) as (W & Sh & Sl & Cn).
  { intros z Hz. apply in_seq in Hz. fold a. lia. }
  fold a in Sh, Sl, Cn.
  do 2 eexists. split; [reflexivity|]. cbn [heap].
  split; [exact Sh|]. split.
  - intros z Hz. rewrite (Sl z Hz).
    destruct (in_dec Nat.eq_dec z zs) as [_|Hn]; [reflexivity|].
    exfalso. apply Hn. apply in_seq. lia.
  - split; [cbn; rewrite Cn; reflexivity|].
    split; [reflexivity|].
    intros r Hr. apply fill_loop_other. exact Hr.
Qed.

End FillHoles.

(* ================================================================= *)
(** ** Segmentation in batches *)

Section Batching.
Import Numpy Shapes Builtins Segmenter.
Context {inferer : LMInferer}.
Local Open Scope list_scope.
Local Open Scope Z_scope.

Lemma applied_app (l l' : list event) : applied (l ++ l') = applied l ++ applied l'.
Proof. unfold applied. apply flat_map_app. Qed.

Lemma percentages_app (l l' : list event) :
  percentages (l ++ l') = percentages l ++ percentages l'.
Proof. unfold percentages. apply flat_map_app. Qed.

(** [30 + int((batch_idx / n_batches) * 60)] in integer arithmetic. *)
Lemma batch_progress_div (j k : Z) :
  0 <= j -> 0 < k -> batch_progress j k = 30 + 60 * j / k.
Proof.
  intros Hj Hk. unfold batch_progress. f_equal.
  destruct k as [|t|t]; try lia.
  unfold int_of.
  assert (H : Qle_bool 0 (inject_Z j / inject_Z (Z.pos t) * 60) = true).
  { apply Qle_bool_iff. unfold Qle, Qdiv, Qinv, Qmult, inject_Z.
    cbn [Qnum Qden]. lia. }
  rewrite H.
  unfold Qdiv, Qinv, Qmult, inject_Z, Qfloor. cbn [Qnum Qden].
  rewrite Pos.mul_1_l, Pos.mul_1_r, Z.mul_1_r. f_equal. lia.
Qed.

Lemma batch_progress_bounds (j k : Z) :
  0 <= j < k -> 30 <= batch_progress j k <= 89.
Proof.
  intro H. rewrite batch_progress_div by lia.
  assert (0 <= 60 * j / k < 60); [|lia].
  split.
  - apply Z.div_pos; lia.
  - apply Z.div_lt_upper_bound; lia.
Qed.

Lemma batch_progress_mono (j j' k : Z) :
  0 <= j <= j' -> 0 < k -> batch_progress j k <= batch_progress j' k.
Proof.
  intros H Hk. rewrite !batch_progress_div by lia.
  assert (60 * j / k <= 60 * j' / k); [|lia].
  apply Z.div_le_mono; lia.
Qed.

(** The percentages of the batches [j, j + m) are in order. *)
Lemma batch_progress_sorted (k : Z) :
  forall (m j : nat),
    0 < k ->
    StronglySorted Z.le (map (fun t => batch_progress (Z.of_nat t) k) (seq j m)).
Proof.
  induction m as [|m IH]; intros j Hk; [constructor|].
  cbn [seq map]. constructor; [apply IH; exact Hk|].
  apply Forall_forall. intros x Hx. apply in_map_iff in Hx.
  destruct Hx as [t [<- Ht]]. apply in_seq in Ht.
  apply batch_progress_mono; lia.
Qed.

(** Reporting progress changes neither the result nor the images the
    model is applied to. *)
Lemma batch_loop_callback (self : LungMaskSegmenter) (roi_sitk : image)
      (n_slices n_batches : Z) :
  forall (idxs : list Z) (result : ndarray) (log quiet : list event),
    applied log = applied quiet -> percentages quiet = [] ->
    match batch_loop self roi_sitk true n_slices n_batches idxs result log,
          batch_loop self roi_sitk false n_slices n_batches idxs result quiet with
    | inr (r, l), inr (r', l') =>
        r = r' /\ applied l = applied l' /\ percentages l' = []
    | inl e, inl e' => e = e'
    | _, _ => False
    end.
Proof.
  induction idxs as [|j idxs IH]; intros result log quiet Ha Hq.
  - cbn [batch_loop]. auto.
  - cbn [batch_loop].
    destruct (apply (batch_image roi_sitk (j * batch_size self)
                       (Z.min (j * batch_size self + batch_size self) n_slices)))
      as [e|seg]; [reflexivity|].
    destruct (setitem_slice result _ _ seg) as [e|result1]; [reflexivity|].
    apply IH.
    + rewrite !applied_app, Ha. cbn [applied flat_map app].
      rewrite app_nil_r. reflexivity.
    + rewrite percentages_app, Hq. reflexivity.
Qed.

(** The batches before the last are full, and the last one is not
    empty. *)
Lemma batch_bounds (n b j : Z) :
  0 < b -> 0 <= j < (n + b - 1) / b -> 0 <= j * b < n.
Proof.
  intros Hb [Hj0 Hj]. split; [nia|].
  assert (H : b * ((n + b - 1) / b) <= n + b - 1)
    by (apply Z.mul_div_le; lia).
  nia.
Qed.

Lemma slice_range_inside (n i e : Z) :
  0 <= i <= e -> e <= n ->
  slice_range n i e = (Z.to_nat i, Z.to_nat (e - i)).
Proof.
  intros Hi He. unfold slice_range, slice_bound.
  destruct (Z.ltb_spec i 0); [lia|]. destruct (Z.ltb_spec e 0); [lia|].
  rewrite !Z.min_l by lia. reflexivity.
Qed.

Section Loop.
Variable self : LungMaskSegmenter.
Variable roi_sitk : image.
Variable progress_callback : bool.
Hypothesis Hkeeps : keeps_shape.
Hypothesis Hb : 0 < batch_size self.
Hypothesis Hw : well_formed (pixels roi_sitk).

Let roi := pixels roi_sitk.
Let n := fst (fst (shape roi)).
Let S := slice_size roi.
Let b := Z.to_nat (batch_size self).
Let k := (Z.of_nat n + batch_size self - 1) / batch_size self.

(** The slices of batch [j]: first index and count. *)
Let lo (j : nat) : nat := (j * b)%nat.
Let cnt (j : nat) : nat := Nat.min b (n - j * b).

Lemma batch_index (j : nat) :
  Z.of_nat j < k ->
  let i := Z.of_nat j * batch_size self in
  let end_i := Z.min (i + batch_size self) (Z.of_nat n) in
  slice_range (Z.of_nat n) i end_i = (lo j, cnt j)
  /\ (lo j < n)%nat /\ (1 <= cnt j <= b)%nat /\ (lo j + cnt j <= n)%nat.
Proof.
  intros Hj i end_i.
  pose proof (batch_bounds (Z.of_nat n) (batch_size self) (Z.of_nat j) Hb
                           (conj (Nat2Z.is_nonneg j) Hj)) as [H0 H1].
  unfold lo, cnt, b. subst i end_i.
  rewrite slice_range_inside by lia.
  split; [f_equal; lia|]. lia.
Qed.

Lemma roi_length : length (data roi) = (n * S)%nat.
Proof. exact Hw. Qed.

Lemma roi_shape : shape roi = (n, snd (fst (shape roi)), snd (shape roi)).
Proof. unfold n. destruct (shape roi) as [[d h] w]. reflexivity. Qed.

Lemma batch_pixels (j : nat) :
  Z.of_nat j < k ->
  let i := Z.of_nat j * batch_size self in
  let end_i := Z.min (i + batch_size self) (Z.of_nat n) in
  pixels (batch_image roi_sitk i end_i)
  = mkArray (cnt j, snd (fst (shape roi)), snd (shape roi))
            (firstn (cnt j * S) (skipn (lo j * S) (data roi))).
Proof.
  intros Hj i end_i. destruct (batch_index j Hj) as (Hr & _).
  unfold batch_image.
  destruct (origin roi_sitk) as [[ox oy] oz].
  destruct (spacing roi_sitk) as [[sx sy] sz] eqn:Es.
  cbn [pixels]. unfold getitem_slice. fold roi.
  unfold S, slice_size. rewrite roi_shape at 1.
  destruct (shape roi) as [[d h] w] eqn:Esh. cbn [fst snd].
  subst i end_i. rewrite Hr. reflexivity.
Qed.

Lemma batch_pixels_length (j : nat) :
  Z.of_nat j < k ->
  length (firstn (cnt j * S) (skipn (lo j * S) (data roi))) = (cnt j * S)%nat.
Proof.
  intro Hj. destruct (batch_index j Hj) as (_ & H1 & H2 & H3).
  rewrite length_firstn, length_skipn, roi_length. nia.
Qed.

(** One turn of the loop on a result of the shape of the image. *)
Lemma batch_turn (j : nat) (result : ndarray) :
  Z.of_nat j < k ->
  shape result = shape roi -> length (data result) = (n * S)%nat ->
  let i := Z.of_nat j * batch_size self in
  let end_i := Z.min (i + batch_size self) (Z.of_nat n) in
  let img := batch_image roi_sitk i end_i in
  exists seg,
    apply img = inr seg
    /\ length (segmented img) = (cnt j * S)%nat
    /\ setitem_slice result i end_i seg
       = inr (mkArray (shape result)
                (firstn (lo j * S) (data result) ++ segmented img
                   ++ skipn ((lo j + cnt j) * S) (data result))).
Proof.
  intros Hj Hs Hl i end_i img.
  destruct (Hkeeps img) as (seg & Ha & Hshape & Hlen).
  exists seg. split; [exact Ha|].
  pose proof (batch_pixels j Hj) as Hp. cbv zeta in Hp. fold i end_i img in Hp.
  rewrite Hp in Hshape, Hlen. cbn [shape data] in Hshape, Hlen.
  rewrite (batch_pixels_length j Hj) in Hlen.
  destruct (batch_index j Hj) as (Hr & _). fold i end_i in Hr.
  split.
  - unfold segmented. rewrite Ha, length_map. exact Hlen.
  - unfold setitem_slice. rewrite Hs, roi_shape. fold n. rewrite Hr.
    rewrite Hshape. unfold broadcastable, shape_eqb.
    rewrite !Nat.eqb_refl. cbn [orb andb].
    unfold segmented. rewrite Ha.
    replace (snd (fst (shape roi)) * snd (shape roi))%nat with S
      by (unfold S, slice_size; destruct (shape roi) as [[d h] w]; reflexivity).
    rewrite <- roi_shape, <- Hs. reflexivity.
Qed.

Lemma batch_loop_run :
  forall (m j : nat) (result : ndarray) (log : list event),
    Z.of_nat (j + m) = k ->
    shape result = shape roi -> length (data result) = (n * S)%nat ->
    exists result' log',
      batch_loop self roi_sitk progress_callback (Z.of_nat n) k
                 (map Z.of_nat (seq j m)) result log
      = inr (result', log ++ log')
      /\ shape result' = shape roi
      /\ data result'
         = firstn (lo j * S) (data result) ++ flat_map segmented (applied log')
      /\ flat_map (fun img => data (pixels img)) (applied log')
         = skipn (lo j * S) (data roi)
      /\ Forall (fun img => 1 <= depth img <= batch_size self) (applied log')
      /\ length (applied log') = m
      /\ percentages log'
         = if progress_callback
           then map (fun t => batch_progress (Z.of_nat t) k) (seq j m)
           else [].
Proof.
  induction m as [|m IH]; intros j result log Hk Hs Hl.
  - exists result, []. cbn [seq map batch_loop flat_map applied].
    rewrite !app_nil_r.
    assert (Hfull : (n * S <= lo j * S)%nat).
    { unfold lo, b. apply Nat.mul_le_mono_r.
      assert (Hc : Z.of_nat n <= batch_size self * k).
      { unfold k.
        pose proof (Z.mul_succ_div_gt (Z.of_nat n + batch_size self - 1)
                                      (batch_size self) Hb). lia. }
      rewrite Nat.add_0_r in Hk. nia. }
    split; [reflexivity|]. split; [exact Hs|].
    split; [symmetry; apply firstn_all2; lia|].
    split; [symmetry; apply skipn_all2; rewrite roi_length; exact Hfull|].
    split; [constructor|]. split; [reflexivity|].
    destruct progress_callback; reflexivity.
  - assert (Hj : Z.of_nat j < k) by lia.
    cbn [seq map batch_loop].
    destruct (batch_turn j result Hj Hs Hl) as (seg & Ha & Hsl & Hset).
    cbv zeta in Ha, Hsl, Hset.
    set (i := Z.of_nat j * batch_size self) in *.
    set (end_i := Z.min (i + batch_size self) (Z.of_nat n)) in *.
    set (img := batch_image roi_sitk i end_i) in *.
    rewrite Ha, Hset.
    set (log1 := if progress_callback
                 then log ++ [Progress (batch_progress (Z.of_nat j) k)
                                       (Z.of_nat j + 1) k i end_i]
                 else log).
    destruct (batch_index j Hj) as (_ & H1 & H2 & H3).
    set (result1 := mkArray (shape result)
                      (firstn (lo j * S) (data result) ++ segmented img
                         ++ skipn ((lo j + cnt j) * S) (data result))).
    assert (Hl1 : length (data result1) = (n * S)%nat).
    { unfold result1. cbn [data].
      rewrite !length_app, length_firstn, length_skipn, Hsl, Hl. nia. }
    destruct (IH (Datatypes.S j) result1 (log1 ++ [Applied img])) as
        (result' & log' & Hrun & Hs' & Hd' & Hin' & Hdep' & Hlen' & Hpct');
      [lia|exact Hs|exact Hl1|].
    exists result',
      ((if progress_callback
        then [Progress (batch_progress (Z.of_nat j) k) (Z.of_nat j + 1) k i end_i]
        else []) ++ [Applied img] ++ log').
    assert (Elog : log ++ (if progress_callback
                           then [Progress (batch_progress (Z.of_nat j) k)
                                          (Z.of_nat j + 1) k i end_i]
                           else []) ++ [Applied img] ++ log'
                   = (log1 ++ [Applied img]) ++ log').
    { unfold log1. destruct progress_callback; rewrite <- ?app_assoc; reflexivity. }
    rewrite Elog. split; [exact Hrun|]. split; [exact Hs'|].
    assert (Eapp : applied ((if progress_callback
                             then [Progress (batch_progress (Z.of_nat j) k)
                                            (Z.of_nat j + 1) k i end_i]
                             else []) ++ [Applied img] ++ log')
                   = img :: applied log').
    { rewrite !applied_app. destruct progress_callback; reflexivity. }
    rewrite Eapp. cbn [flat_map length].
    assert (Enext : (lo (Datatypes.S j) * S = lo j * S + b * S)%nat)
      by (unfold lo; lia).
    pose proof (batch_pixels j Hj) as Hp. cbv zeta in Hp. fold i end_i img in Hp.
    assert (Epct : percentages ((if progress_callback
                                 then [Progress (batch_progress (Z.of_nat j) k)
                                                (Z.of_nat j + 1) k i end_i]
                                 else []) ++ [Applied img] ++ log')
                   = if progress_callback
                     then map (fun t => batch_progress (Z.of_nat t) k)
                              (seq j (Datatypes.S m))
                     else []).
    { rewrite !percentages_app, Hpct'. destruct progress_callback; reflexivity. }
    split; [|split; [|split; [|split]]]; [| | | |exact Epct].
    + rewrite Hd'. unfold result1. cbn [data].
      rewrite (app_assoc (firstn (lo j * S) (data result)) (segmented img)
                         (flat_map segmented (applied log'))).
      f_equal.
      assert (Hab : length (firstn (lo j * S) (data result) ++ segmented img)
                    = (lo j * S + cnt j * S)%nat).
      { rewrite length_app, length_firstn, Hsl, Hl. unfold lo in *. nia. }
      destruct (Nat.le_gt_cases b (n - j * b)) as [Hfull|Hlast].
      * assert (Ec : cnt j = b) by (unfold cnt in *; lia).
        rewrite Enext, <- Ec, <- Hab. rewrite app_assoc.
        rewrite firstn_app, Nat.sub_diag, firstn_all. cbn [firstn].
        apply app_nil_r.
      * assert (Ec : (lo j + cnt j = n)%nat) by (unfold lo, cnt in *; lia).
        rewrite Ec. rewrite (skipn_all2 (data result)) by lia.
        rewrite app_nil_r. apply firstn_all2.
        rewrite Hab. unfold lo in *. nia.
    + rewrite Hin'. rewrite Hp. cbn [data].
      destruct (Nat.le_gt_cases b (n - j * b)) as [Hfull|Hlast].
      * assert (Ec : cnt j = b) by (unfold cnt in *; lia).
        rewrite Enext, Ec. rewrite Nat.add_comm, <- skipn_skipn.
        apply firstn_skipn.
      * assert (Ec : (lo j + cnt j = n)%nat) by (unfold lo, cnt in *; lia).
        rewrite (@skipn_all2 _ (lo (Datatypes.S j) * S) (data roi))
          by (rewrite roi_length; unfold lo in *; nia).
        rewrite app_nil_r. apply firstn_all2.
        rewrite length_skipn, roi_length. nia.
    + constructor; [|exact Hdep'].
      unfold depth. rewrite Hp. cbn [shape fst]. unfold b in H2. lia.
    + rewrite Hlen'. reflexivity.
Qed.

End Loop.

(** [_batch_segment] on a well-formed image with a model that keeps
    shapes. *)
Lemma batch_segment_run (self : LungMaskSegmenter) (roi_sitk : image)
      (progress_callback : bool) :
  keeps_shape -> 0 < batch_size self -> well_formed (pixels roi_sitk) ->
  let n_batches := (depth roi_sitk + batch_size self - 1) / batch_size self in
  exists result log,
    _batch_segment self roi_sitk progress_callback = inr (result, log)
    /\ shape result = shape (pixels roi_sitk)
    /\ flat_map (fun img => data (pixels img)) (applied log) = data (pixels roi_sitk)
    /\ data result = flat_map segmented (applied log)
    /\ Forall (fun img => 1 <= depth img <= batch_size self) (applied log)
    /\ Z.of_nat (length (applied log)) = n_batches
    /\ percentages log
       = if progress_callback
         then map (fun j => batch_progress j n_batches) (range 0 n_batches)
         else [].
Proof.
  intros Hk Hb Hw. unfold _batch_segment, depth.
  destruct (Z.eqb_spec (batch_size self) 0) as [E|_]; [lia|].
  set (n := fst (fst (shape (pixels roi_sitk)))).
  set (k := (Z.of_nat n + batch_size self - 1) / batch_size self).
  assert (Hk0 : 0 <= k) by (apply Z.div_pos; lia).
  cbv zeta. unfold range. rewrite Z.sub_0_r.
  assert (Emap : map (fun t => 0 + Z.of_nat t) (seq 0 (Z.to_nat k))
                 = map Z.of_nat (seq 0 (Z.to_nat k)))
    by (apply map_ext; intro; lia).
  rewrite Emap.
  destruct (batch_loop_run self roi_sitk progress_callback Hk Hb Hw
              (Z.to_nat k) O (np_zeros_like (pixels roi_sitk)) [])
    as (result & log & Hrun & Hs & Hd & Hin & Hdep & Hlen & Hpct).
  - fold n k. lia.
  - reflexivity.
  - unfold np_zeros_like. cbn [data]. rewrite repeat_length. exact Hw.
  - exists result, log. fold n k in Hrun, Hpct. cbn [app] in Hrun.
    split; [exact Hrun|]. split; [exact Hs|].
    split; [rewrite Hin; reflexivity|].
    split; [rewrite Hd; reflexivity|].
    split; [exact Hdep|]. split; [rewrite Hlen; lia|].
    rewrite Hpct. destruct progress_callback; [|reflexivity].
    rewrite map_map. reflexivity.
Qed.

(** X26.  With a positive batch size, on an image whose data fit its
    shape and a model that returns an array of the shape of its input,
    [_batch_segment] returns; the model is applied to
    [ceil(n_slices / batch_size)] batches of between 1 and [batch_size]
    slices which, one after the other, are exactly the slices of the
    image; and the result has the shape of the image and holds, one after
    the other, what the model returned for each batch. *)
Theorem batch_segment_tiles (self : LungMaskSegmenter) (roi_sitk : image)
        (progress_callback : bool) :
  keeps_shape -> 0 < batch_size self -> well_formed (pixels roi_sitk) ->
  exists result log,
    _batch_segment self roi_sitk progress_callback = inr (result, log)
    /\ shape result = shape (pixels roi_sitk)
    /\ flat_map (fun img => data (pixels img)) (applied log) = data (pixels roi_sitk)
    /\ data result = flat_map segmented (applied log)
    /\ Forall (fun img => 1 <= depth img <= batch_size self) (applied log)
    /\ Z.of_nat (length (applied log))
       = (depth roi_sitk + batch_size self - 1) / batch_size self.
Proof.
  intros Hk Hb Hw.
  destruct (batch_segment_run self roi_sitk progress_callback Hk Hb Hw)
    as (result & log & Hrun & Hs & Hin & Hd & Hdep & Hlen & _).
  exists result, log. repeat split; assumption.
Qed.

(** X27.  With a positive batch size, on an image whose data fit its shape
    and a model that returns an array of the shape of its input,
    [_run_segmentation] returns; asking for progress changes neither the
    result nor the images the model is applied to; the percentages
    reported are 25 and then, only for more than 100 slices, one for each
    batch; they never decrease and lie between 25 and 89. *)
Theorem run_segmentation_progress (self : LungMaskSegmenter) (sitk_image : image)
        (n_slices : Z) :
  keeps_shape -> 0 < batch_size self -> well_formed (pixels sitk_image) ->
  let n_batches := (depth sitk_image + batch_size self - 1) / batch_size self in
  exists result log quiet,
    _run_segmentation self sitk_image n_slices true = inr (result, log)
    /\ _run_segmentation self sitk_image n_slices false = inr (result, quiet)
    /\ applied quiet = applied log
    /\ percentages quiet = []
    /\ percentages log
       = 25 :: (if 100 <? n_slices
                then map (fun j => batch_progress j n_batches) (range 0 n_batches)
                else [])
    /\ StronglySorted Z.le (percentages log)
    /\ Forall (fun pct => 25 <= pct <= 89) (percentages log).
Proof.
  intros Hk Hb Hw n_batches.
  assert (Hseq : map (fun j => batch_progress j n_batches) (range 0 n_batches)
                 = map (fun t => batch_progress (Z.of_nat t) n_batches)
                       (seq 0 (Z.to_nat n_batches))).
  { unfold range. rewrite Z.sub_0_r, map_map. reflexivity. }
  assert (Hall : Forall (fun pct => 30 <= pct <= 89)
                        (map (fun j => batch_progress j n_batches)
                             (range 0 n_batches))).
  { apply Forall_forall. intros x Hx. apply in_map_iff in Hx.
    destruct Hx as [j [<- Hj]]. apply In_range in Hj.
    apply batch_progress_bounds. lia. }
  assert (Hsorted : StronglySorted Z.le
                      (map (fun j => batch_progress j n_batches)
                           (range 0 n_batches))).
  { rewrite Hseq. destruct (Z_lt_le_dec 0 n_batches) as [Hpos|Hno].
    - apply batch_progress_sorted. exact Hpos.
    - replace (Z.to_nat n_batches) with O by lia. constructor. }
  unfold _run_segmentation.
  destruct (100 <? n_slices).
  - destruct (batch_segment_run self sitk_image true Hk Hb Hw)
      as (result & log & Hrun & _ & _ & _ & _ & _ & Hpct).
    pose proof (batch_loop_callback self sitk_image
                  (Z.of_nat (fst (fst (shape (pixels sitk_image))))) n_batches
                  (range 0 n_batches) (np_zeros_like (pixels sitk_image)) [] []
                  eq_refl eq_refl) as Hcb.
    unfold _batch_segment in Hrun |- *.
    destruct (batch_size self =? 0); [discriminate|].
    change ((Z.of_nat (fst (fst (shape (pixels sitk_image)))) + batch_size self - 1)
            / batch_size self) with n_batches in Hrun |- *.
    rewrite Hrun in Hcb. rewrite Hrun.
    destruct (batch_loop self sitk_image false _ n_batches _ _ [])
      as [e|[result' quiet]]; [destruct Hcb|].
    destruct Hcb as (<- & Ha & Hq).
    exists result, (Started 25 n_slices true :: log), quiet.
    cbn [app percentages flat_map]. fold (percentages log).
    fold n_batches in Hpct. rewrite Hpct.
    split; [reflexivity|]. split; [reflexivity|].
    split; [symmetry; exact Ha|]. split; [exact Hq|].
    split; [reflexivity|]. split.
    + constructor; [exact Hsorted|].
      eapply Forall_impl; [|exact Hall]. cbv beta. intros; lia.
    + constructor; [lia|].
      eapply Forall_impl; [|exact Hall]. cbv beta. intros; lia.
  - destruct (Hk sitk_image) as (seg & Ha & _).
    rewrite Ha.
    exists seg, [Started 25 n_slices false; Applied sitk_image],
      [Applied sitk_image].
    cbn [app percentages applied flat_map].
    repeat split; try reflexivity.
    + repeat constructor.
    + repeat constructor; lia.
Qed.

(** X28.  With a batch size of 0, [_batch_segment] fails with
    [ZeroDivisionError] before the model is applied.  With a negative
    batch size, on an image with more slices than the size's magnitude,
    it raises nothing and never applies the model: it returns an array of
    zeros. *)
Theorem batch_segment_bad_batch_size (self : LungMaskSegmenter) (roi_sitk : image)
        (progress_callback : bool) :
  (batch_size self = 0 ->
   _batch_segment self roi_sitk progress_callback = inl ZeroDivisionError)
  /\ (batch_size self < 0 -> - batch_size self < depth roi_sitk ->
      _batch_segment self roi_sitk progress_callback
      = inr (np_zeros_like (pixels roi_sitk), [])).
Proof.
  unfold _batch_segment, depth. split.
  - intros ->. reflexivity.
  - intros Hneg Hn.
    destruct (Z.eqb_spec (batch_size self) 0) as [E|_]; [lia|].
    set (n := Z.of_nat (fst (fst (shape (pixels roi_sitk))))) in *.
    assert (Hk : (n + batch_size self - 1) / batch_size self <= 0).
    { pose proof (Z.div_mod (n + batch_size self - 1) (batch_size self)) as Hdm.
      pose proof (Z.mod_neg_bound (n + batch_size self - 1) (batch_size self) Hneg).
      specialize (Hdm ltac:(lia)). nia. }
    unfold range. replace (Z.to_nat _) with O by lia. reflexivity.
Qed.

End Batching.

(* ================================================================= *)
(** ** [save_mask_nifti] *)

Section SavingFacts.
Import Numpy Saving.
Context {storage : Storage}.
Local Open Scope string_scope.
Local Open Scope list_scope.

Lemma endswith_refl (s : string) : endswith s s = true.
Proof. destruct s; simpl; rewrite ?Ascii.eqb_refl, ?String.eqb_refl; reflexivity. Qed.

Lemma endswith_append (s suffix : string) : endswith (s ++ suffix)%string suffix = true.
Proof.
  induction s as [|c s IH]; [apply endswith_refl|].
  change ((String c s ++ suffix)%string) with (String c (s ++ suffix)%string).
  cbn [endswith]. rewrite IH. destruct (String.eqb _ _); reflexivity.
Qed.

(** [".nii.gz"] does not end with [".nii"]: the two tests of the source
    are both needed. *)
Lemma extension_ok (filepath : string) (use_compression : bool) :
  let f := if negb (endswith filepath ".nii" || endswith filepath ".nii.gz")
           then (filepath ++ (if use_compression then ".nii.gz" else ".nii"))%string
           else filepath in
  endswith f ".nii" || endswith f ".nii.gz" = true.
Proof.
  cbv zeta. destruct (endswith filepath ".nii" || endswith filepath ".nii.gz") eqn:E.
  - exact E.
  - cbn [negb]. destruct use_compression; rewrite endswith_append;
      [apply orb_true_r|reflexivity].
Qed.

Ltac saved :=
  repeat split;
  first [assumption | reflexivity | discriminate
        | eexists; reflexivity | repeat constructor].

(** X29.  Whatever the two libraries do, [save_mask_nifti] calls its
    helpers [_save_with_sitk] and [_save_with_nibabel] once or twice, all
    with the same file name, which ends in '.nii' or '.nii.gz': the given
    name if it already does, else the given name with '.nii.gz'
    (compression) or '.nii' appended.  The first call goes to the helper
    of the preferred library; a second call is made exactly when the
    first one raised, and goes to [_save_with_nibabel], also when that
    was the one that raised.  The function returns whether the last call
    returned. *)
Theorem save_mask_nifti_calls (mask : ndarray) (filepath : string)
        (spacing origin : Q * Q * Q) (direction : list Q)
        (use_compression prefer_sitk : bool) (world : World) :
  let '(returned, calls, _) :=
    save_mask_nifti mask filepath spacing origin direction use_compression
                    prefer_sitk world in
  exists name first rest,
    calls = first :: rest
    /\ Forall (fun c => call_path c = name) calls
    /\ endswith name ".nii" || endswith name ".nii.gz" = true
    /\ (endswith filepath ".nii" || endswith filepath ".nii.gz" = true ->
        name = filepath)
    /\ (endswith filepath ".nii" || endswith filepath ".nii.gz" = false ->
        name = (filepath ++ (if use_compression then ".nii.gz" else ".nii"))%string)
    /\ (if prefer_sitk then exists r, first = BySitk name r
        else exists r, first = ByNibabel name r)
    /\ (call_returned first = true -> rest = [])
    /\ (call_returned first = false -> exists r, rest = [ByNibabel name r])
    /\ returned = call_returned (last calls first).
Proof.
  unfold save_mask_nifti.
  pose proof (extension_ok filepath use_compression) as Hext. cbv zeta in Hext.
  set (name := if negb (endswith filepath ".nii" || endswith filepath ".nii.gz")
               then (filepath ++ (if use_compression then ".nii.gz" else ".nii"))%string
               else filepath) in *.
  assert (Hkeep : endswith filepath ".nii" || endswith filepath ".nii.gz" = true ->
                  name = filepath).
  { intro H. unfold name. rewrite H. reflexivity. }
  assert (Hadd : endswith filepath ".nii" || endswith filepath ".nii.gz" = false ->
                 name = (filepath ++ (if use_compression then ".nii.gz" else ".nii"))%string).
  { intro H. unfold name. rewrite H. reflexivity. }
  destruct prefer_sitk.
  - destruct (_save_with_sitk mask name spacing origin direction use_compression world)
      as [r w].
    destruct r.
    + exists name, (BySitk name true), []. saved.
    + destruct (_save_with_nibabel mask name spacing origin direction w) as [r' w'].
      exists name, (BySitk name false), [ByNibabel name r']. saved.
  - destruct (_save_with_nibabel mask name spacing origin direction world) as [r w].
    destruct r.
    + exists name, (ByNibabel name true), []. saved.
    + destruct (_save_with_nibabel mask name spacing origin direction w) as [r' w'].
      exists name, (ByNibabel name false), [ByNibabel name r']. saved.
Qed.

End SavingFacts.

(* ================================================================= *)
(** ** Drawing a ROI *)

Section RoiDrawingFacts.
Import Builtins RoiDrawing.
Local Open Scope list_scope.
Local Open Scope Z_scope.

Lemma reported_app (es es' : list effect) :
  reported (es ++ es') = reported es ++ reported es'.
Proof. unfold reported. apply flat_map_app. Qed.

Lemma reported_disconnect (self : ROISelector) : reported (disconnect self) = [].
Proof.
  unfold disconnect.
  destruct (cidpress self), (cidrelease self), (cidmotion self); reflexivity.
Qed.

Ltac quiet :=
  cbn; split; [lia|]; split; [intros ? ? ? ? []|];
  first [discriminate | intros _; split; reflexivity].

(** Once a press has set the first corner, motion events change the
    rectangle only. *)
Lemma moved_keeps (a b : Q) (p : option Q * option Q) (moves : list MouseEvent) :
  forall s : ROISelector,
    press s = Some p -> x0 s = Some a -> y0 s = Some b ->
    press (moved s moves) = Some p
    /\ x0 (moved s moves) = Some a /\ y0 (moved s moves) = Some b
    /\ disconnect (moved s moves) = disconnect s.
Proof.
  assert (Hstep : forall (s : ROISelector) (event : MouseEvent),
            press s = Some p -> x0 s = Some a -> y0 s = Some b ->
            let '(result, s', _) := on_motion s event in
            result = Returned /\ press s' = Some p /\ x0 s' = Some a
            /\ y0 s' = Some b /\ disconnect s' = disconnect s).
  { intros s event Hp Ha Hb. unfold on_motion. rewrite Hp, Ha, Hb.
    destruct (inaxes event); cbn [negb]; [|repeat split; assumption].
    destruct (xdata event); [|repeat split; assumption].
    destruct (ydata event); [|repeat split; assumption].
    cbn [set_rect press x0 y0]. repeat split; assumption. }
  induction moves as [|event moves IH]; intros s Hp Ha Hb.
  - cbn [moved fold_left]. repeat split; assumption.
  - pose proof (Hstep s event Hp Ha Hb) as H.
    unfold moved. cbn [fold_left].
    destruct (on_motion s event) as [[r s'] es]. cbn [fst snd].
    destruct H as (_ & Hp' & Ha' & Hb' & Hd').
    destruct (IH s' Hp' Ha' Hb') as (Hp2 & Ha2 & Hb2 & Hd2).
    fold (moved s' moves).
    repeat split; try assumption.
    rewrite Hd2. exact Hd'.
Qed.

(** X30.  A drag in the axes from [(a, b)] over any positions to [(c, d)]
    reports to the client the ROI of the two corners truncated to
    integers, [(x_min, x_max, y_min, y_max)], once, and then disconnects
    the selector, when the ROI is at least 5 wide and 5 high; it reports
    nothing, leaves no rectangle and stays connected when it is smaller.
    In no state does [on_release] report more than one ROI, or one that
    is less than 5 wide or high; and without a press pending it does
    nothing. *)
Theorem drag_reports_roi (self : ROISelector) (a b c d : Q)
        (moves : list MouseEvent) (released_inside : bool) :
  let pressed := fst (on_press self (mkEvent true (Some a) (Some b))) in
  let dragged := moved pressed moves in
  let roi := (int_of (fmin a c), int_of (fmax a c),
              int_of (fmin b d), int_of (fmax b d)) in
  let small := (int_of (fmax a c) - int_of (fmin a c) <? 5)
               || (int_of (fmax b d) - int_of (fmin b d) <? 5) in
  (let '(result, self', effects) :=
     on_release dragged (mkEvent released_inside (Some c) (Some d)) in
   result = Returned
   /\ press self' = None
   /\ reported effects = (if small then [] else [roi])
   /\ (small = true ->
       rect self' = None /\ forall cid, ~ In (Disconnected cid) effects)
   /\ (small = false ->
       exists styled, effects = styled ++ [Called roi] ++ disconnect self))
  /\ (forall (s : ROISelector) (event : MouseEvent),
        let '(_, s', effects) := on_release s event in
        (length (reported effects) <= 1)%nat
        /\ (forall x_min x_max y_min y_max,
              In (x_min, x_max, y_min, y_max) (reported effects) ->
              5 <= x_max - x_min /\ 5 <= y_max - y_min)
        /\ (press s = None -> s' = s /\ effects = [])).
Proof.
  cbv zeta. split.
  - assert (Hpressed :
              let pressed := fst (on_press self (mkEvent true (Some a) (Some b))) in
              press pressed = Some (Some a, Some b)
              /\ x0 pressed = Some a /\ y0 pressed = Some b
              /\ disconnect pressed = disconnect self).
    { unfold on_press. cbn [inaxes negb xdata ydata rect].
      destruct (rect self); cbn; repeat split; reflexivity. }
    cbv zeta in Hpressed. destruct Hpressed as (Hp & Ha & Hb & Hd).
    destruct (moved_keeps a b (Some a, Some b) moves _ Hp Ha Hb)
      as (Hp' & Ha' & Hb' & Hd').
    rewrite Hd in Hd'.
    set (dragged := moved (fst (on_press self (mkEvent true (Some a) (Some b)))) moves)
      in *.
    unfold on_release. rewrite Hp'. cbn [xdata ydata].
    cbn [set_press x0 y0 rect]. rewrite Ha', Hb'.
    destruct ((int_of (fmax a c) - int_of (fmin a c) <? 5)
              || (int_of (fmax b d) - int_of (fmin b d) <? 5)) eqn:Es.
    + destruct (rect dragged) as [r|] eqn:Er; cbn [press rect set_rect];
        (split; [reflexivity|]); (split; [reflexivity|]);
        (split; [reflexivity|]); (split; [|discriminate]);
        intros _; (split; [first [reflexivity|cbn [rect set_press]; exact Er]|]);
        intros cid H; cbn in H;
        repeat (destruct H as [H|H]; [discriminate|]); exact H.
    + destruct (rect dragged) as [r|]; cbn [press rect set_rect];
        (split; [reflexivity|]); (split; [reflexivity|]);
        (split; [|split; [discriminate|]]).
      * rewrite !reported_app.
        match goal with
        | |- context [reported (disconnect ?t)] => rewrite (reported_disconnect t)
        end. reflexivity.
      * intros _. exists [DrawIdle]. do 2 f_equal.
        unfold disconnect in Hd' |- *. exact Hd'.
      * rewrite !reported_app.
        match goal with
        | |- context [reported (disconnect ?t)] => rewrite (reported_disconnect t)
        end. reflexivity.
      * intros _. exists []. cbn [app]. f_equal.
        unfold disconnect in Hd' |- *. exact Hd'.
  - intros s event. unfold on_release.
    destruct (press s) as [p|]; [|quiet].
    destruct (xdata event) as [x1|]; [|quiet].
    destruct (ydata event) as [y1|]; [|quiet].
    cbn [set_press x0 y0 rect].
    destruct (x0 s) as [xa|]; [|quiet].
    destruct (y0 s) as [ya|]; [|quiet].
    destruct ((int_of (fmax xa x1) - int_of (fmin xa x1) <? 5)
              || (int_of (fmax ya y1) - int_of (fmin ya y1) <? 5)) eqn:Es.
    + destruct (rect s); quiet.
    + apply orb_false_iff in Es. destruct Es as [Ex Ey].
      apply Z.ltb_ge in Ex, Ey.
      destruct (rect s) as [r|]; rewrite !reported_app;
        match goal with
        | |- context [reported (disconnect ?t)] => rewrite (reported_disconnect t)
        end;
        cbn; (split; [lia|]); (split; [|discriminate]);
        intros x_min x_max y_min y_max [E|[]]; injection E as <- <- <- <-; lia.
Qed.

End RoiDrawingFacts.

(* ################################################################# *)
(** * Part V: the further properties on sample data *)

Section MoreSamplesFacts.
Import RoiSelector RoiGeometry StateManager Widgets.
Import Numpy Float64 Runtime Processing Workers Stage3 Stage4 Reference.
Import Metrics Pipeline DataIO Shapes MoreSamples.
Local Open Scope string_scope.
Local Open Scope list_scope.
Local Open Scope Z_scope.

(** X2 on a 50 x 100 x 100 volume: a voxel of the first rectangle. *)
Lemma combined_roi_covers_witness :
  in_shape (50, 100, 100) 10 35 25
  /\ (in_roi (10, 30, 60, 20, 40) 10 35 25 \/ in_roi (20, 30, 60, 50, 70) 10 35 25)
  /\ exists box,
       get_combined_roi_coords
         (mkROIManager (Some (10, 30, 60, 20, 40)) (Some (20, 30, 60, 50, 70)))
         (50, 100, 100)
       = inr box
       /\ in_box box 10 35 25.
Proof.
  assert (Hs : in_shape (50, 100, 100) 10 35 25) by (simpl; lia).
  assert (Hr : in_roi (10, 30, 60, 20, 40) 10 35 25
               \/ in_roi (20, 30, 60, 50, 70) 10 35 25) by (left; simpl; lia).
  split; [exact Hs|]. split; [exact Hr|].
  apply (combined_roi_covers (10, 30, 60, 20, 40) (20, 30, 60, 50, 70)
                             (50, 100, 100) 10 35 25 Hs Hr).
Defined.

Lemma four_buttons_registered (n : string) :
  In n ["btn_load"; "btn_segment"; "btn_apply_refinement"; "btn_save"] ->
  registered four_buttons n.
Proof.
  intro H. simpl in H.
  repeat (destruct H as [<-|H]; [eexists; split; reflexivity|]). contradiction.
Qed.

(** X5 on a manager with the four buttons, entering [MASK_READY]. *)
Lemma buttons_follow_capabilities_witness :
  MASK_READY <> _current_state four_buttons
  /\ MASK_READY <> ROI2_DEFINED
  /\ is_enabled (transition_to four_buttons MASK_READY) "btn_load" = Some true
  /\ is_enabled (transition_to four_buttons MASK_READY) "btn_apply_refinement" = Some true
  /\ is_enabled (transition_to four_buttons MASK_READY) "btn_save" = Some true
  /\ is_enabled (transition_to four_buttons MASK_READY) "btn_segment" = Some true.
Proof.
  assert (H1 : MASK_READY <> _current_state four_buttons) by discriminate.
  assert (H2 : MASK_READY <> ROI2_DEFINED) by discriminate.
  split; [exact H1|]. split; [exact H2|].
  destruct (buttons_follow_capabilities four_buttons MASK_READY H1 H2)
    as (Hl & Hr & Hs & Hg).
  split; [apply Hl; apply four_buttons_registered; simpl; auto|].
  split; [apply Hr; apply four_buttons_registered; simpl; auto|].
  split; [apply Hs; apply four_buttons_registered; simpl; auto|].
  apply Hg; [discriminate|apply four_buttons_registered; simpl; auto].
Defined.

(** X8 on the same manager, entering [SEGMENTING]. *)
Lemma busy_states_disable_actions_witness :
  (SEGMENTING = SEGMENTING \/ SEGMENTING = REFINING)
  /\ SEGMENTING <> _current_state four_buttons
  /\ In "btn_segment" (buttons ++ param_widgets)
  /\ registered four_buttons "btn_segment"
  /\ is_enabled (transition_to four_buttons SEGMENTING) "btn_segment" = Some false.
Proof.
  assert (H1 : SEGMENTING = SEGMENTING \/ SEGMENTING = REFINING) by (left; reflexivity).
  assert (H2 : SEGMENTING <> _current_state four_buttons) by discriminate.
  assert (H3 : In "btn_segment" (buttons ++ param_widgets)) by (simpl; tauto).
  assert (H4 : registered four_buttons "btn_segment")
    by (apply four_buttons_registered; simpl; tauto).
  split; [exact H1|]. split; [exact H2|]. split; [exact H3|]. split; [exact H4|].
  apply (busy_states_disable_actions four_buttons SEGMENTING "btn_segment" H1 H2 H3 H4).
Defined.

Lemma ring_bits : bits ring.
Proof. unfold bits. simpl. repeat constructor; lia. Qed.

Lemma cross_bits : bits cross.
Proof. unfold bits. simpl. repeat constructor; lia. Qed.

(** X9 on an array of bytes that is not a mask. *)
Lemma dice_of_itself_witness :
  Forall (fun v => 0 <= v <= 255) (data labels) /\ 2 * np_sum labels < 2 ^ 64
  /\ exists q, calculate_dice_coefficient labels labels = Ok q /\ (q == 1)%Q.
Proof.
  assert (Hb : Forall (fun v => 0 <= v <= 255) (data labels))
    by (simpl; repeat constructor; lia).
  assert (Hs : 2 * np_sum labels < 2 ^ 64) by reflexivity.
  split; [exact Hb|]. split; [exact Hs|].
  apply (dice_of_itself labels Hb Hs).
Defined.

(** X10 on the ring and the cross. *)
Lemma dice_bounds_symmetric_witness :
  bits ring /\ bits cross /\ shape ring = shape cross
  /\ exists q,
       calculate_dice_coefficient ring cross = Ok q
       /\ calculate_dice_coefficient cross ring = Ok q
       /\ (0 <= q <= 1)%Q.
Proof.
  split; [exact ring_bits|]. split; [exact cross_bits|]. split; [reflexivity|].
  apply (dice_bounds_symmetric ring cross ring_bits cross_bits eq_refl).
Defined.

(** X11 on the ring and the cross. *)
Lemma dice_extremes_witness :
  bits ring /\ bits cross /\ same_grid ring cross
  /\ exists q,
       calculate_dice_coefficient ring cross = Ok q
       /\ ((q == 1)%Q <-> data ring = data cross)
       /\ ((q == 0)%Q <-> ~ overlap ring cross /\ np_sum ring + np_sum cross <> 0).
Proof.
  assert (Hg : same_grid ring cross) by (split; reflexivity).
  split; [exact ring_bits|]. split; [exact cross_bits|]. split; [exact Hg|].
  apply (dice_extremes ring cross ring_bits cross_bits Hg).
Defined.

(** X12 on the ring and the cross. *)
Lemma mask_difference_accounting_witness :
  same_grid ring cross
  /\ exists d d',
       calculate_mask_difference ring cross = Ok d
       /\ calculate_mask_difference cross ring = Ok d'
       /\ mask1_count d = Z.of_nat (length (foreground ring))
       /\ mask2_count d = Z.of_nat (length (foreground cross))
       /\ mask1_count d = removed_voxels d + unchanged_voxels d
       /\ mask2_count d = added_voxels d + unchanged_voxels d
       /\ 0 <= added_voxels d /\ 0 <= removed_voxels d /\ 0 <= unchanged_voxels d
       /\ added_voxels d' = removed_voxels d
       /\ removed_voxels d' = added_voxels d
       /\ unchanged_voxels d' = unchanged_voxels d
       /\ dice_coefficient d' = dice_coefficient d.
Proof.
  assert (Hg : same_grid ring cross) by (split; reflexivity).
  split; [exact Hg|].
  apply (mask_difference_accounting ring cross Hg).
Defined.

(** X13 on the ring and the short volume. *)
Lemma metrics_shape_error_witness :
  broadcast_shapes (shape ring) (shape short_volume) = None
  /\ calculate_dice_coefficient ring short_volume = Raise ValueError
  /\ calculate_mask_difference ring short_volume = Raise ValueError.
Proof.
  assert (H : broadcast_shapes (shape ring) (shape short_volume) = None) by reflexivity.
  split; [exact H|].
  apply (metrics_shape_error ring short_volume H).
Defined.

Lemma ring_binary : binary (deref ring_store 0%nat).
Proof. apply binary_forallb. reflexivity. Qed.

(** X14 on the ring. *)
Lemma remove_small_components_never_empties_witness :
  binary (deref ring_store 0%nat)
  /\ np_any (data (deref ring_store 0%nat)) = true
  /\ exists out d st',
       _remove_small_components 0%nat ring_store = (Ok (out, d), st')
       /\ out = length (heap ring_store)
       /\ shape (deref st' out) = shape (deref ring_store 0%nat)
       /\ length (data (deref st' out)) = length (data (deref ring_store 0%nat))
       /\ binary (deref st' out)
       /\ np_any (data (deref st' out)) = true
       /\ (forall i, nth i (data (deref st' out)) 0 = 1 ->
                     nth i (data (deref ring_store 0%nat)) 0 = 1)
       /\ exists kept total before after,
            lookup "components_kept" d = Some kept
            /\ lookup "components_total" d = Some total
            /\ lookup "components_removed" d = Some (total - kept)
            /\ lookup "voxels_before" d = Some before
            /\ lookup "voxels_after" d = Some after
            /\ lookup "voxels_removed" d = Some (before - after)
            /\ 1 <= kept <= total
            /\ 1 <= after <= before
            /\ before = np_sum (deref ring_store 0%nat)
            /\ after = np_sum (deref st' out).
Proof.
  assert (Ha : np_any (data (deref ring_store 0%nat)) = true) by reflexivity.
  split; [exact ring_binary|]. split; [exact Ha|].
  apply (remove_small_components_never_empties ring_store 0%nat ring_binary Ha).
Defined.

(** C9 on the full block of 2000 voxels, with a spacing of 1 mm: the
    volume is 2.0 ml. *)
Lemma refine_mask_statistics_witness :
  exists out stats st',
    refine_mask 0%nat 1%nat (literal 1, literal 1, literal 1) all_disabled
                block_store
    = (Ok (out, stats), st')
    /\ base_count stats = 2000
    /\ final_count stats = 2000
    /\ improvement_percent stats = PyFloat (literal 0)
    /\ Processing.volume_ml stats = literal 2.
Proof.
  pose proof (refine_mask_statistics block_store 0%nat 1%nat
                (literal 1) (literal 1) (literal 1) all_disabled) as H.
  assert (Hrun :
            fst (refine_mask 0%nat 1%nat (literal 1, literal 1, literal 1)
                             all_disabled block_store)
            = Ok (4%nat,
                  mkStatistics 2000
                    [mkStep "Noise Removal"
                       [("voxels_before", 2000); ("voxels_after", 2000);
                        ("voxels_removed", 0); ("components_total", 1);
                        ("components_kept", 1); ("components_removed", 0)]]
                    2000 (PyFloat (literal 0)) (literal 2) all_disabled))
    by (vm_compute; reflexivity).
  revert H Hrun.
  destruct (refine_mask 0%nat 1%nat (literal 1, literal 1, literal 1)
                        all_disabled block_store) as [r st'].
  cbn [fst]. intros H ->.
  destruct H as (_ & _ & _ & _ & _ & Hscenario & _).
  do 3 eexists. split; [reflexivity|].
  cbn [base_count final_count improvement_percent Processing.volume_ml].
  split; [reflexivity|]. split; [reflexivity|]. split; [reflexivity|].
  apply Hscenario; reflexivity.
Defined.

(** A mask that grows from 3 to 4 voxels, and an empty one: the
    improvement is the double nearest to 100/3, and the integer 0. *)
Example refine_growth :
  match refine_mask 0%nat 1%nat unit_spacing dilate_only strip_store with
  | (Ok (_, stats), _) =>
      base_count stats = 3
      /\ final_count stats = 4
      /\ improvement_percent stats
         = PyFloat (literal (3333333333333333 # 100000000000000))
  | (Raise _, _) => False
  end
  /\ match refine_mask 1%nat 1%nat unit_spacing all_disabled
                       (mkState [ring; np_zeros_like ring] []) with
     | (Ok (_, stats), _) =>
         base_count stats = 0 /\ improvement_percent stats = PyInt 0
     | (Raise _, _) => False
     end.
Proof. vm_compute. repeat split; reflexivity. Qed.

(** C9 as the specification states it, at the block of 200 voxels with
    the spacing [(0.7, 0.7, 1.25)]: [final_count * sx * sy * sz / 1000] is
    [0.1225], and [refine_mask] returns [0.12249999999999998]. *)
Theorem refine_mask_volume_rounded :
  exists out stats,
    fst (refine_mask 0%nat 1%nat fine_spacing all_disabled slab_store)
    = Ok (out, stats)
    /\ final_count stats = 200
    /\ div (mul (mul (mul (of_int (final_count stats)) (literal (7 # 10)))
                     (literal (7 # 10)))
                (literal (125 # 100)))
           (of_int 1000)
       = literal (1225 # 10000)
    /\ Processing.volume_ml stats
       = literal (12249999999999998 # 100000000000000000)
    /\ Processing.volume_ml stats
       <> div (mul (mul (mul (of_int (final_count stats)) (literal (7 # 10)))
                        (literal (7 # 10)))
                   (literal (125 # 100)))
              (of_int 1000).
Proof.
  exists 4%nat,
    (mkStatistics 200
       [mkStep "Noise Removal"
          [("voxels_before", 200); ("voxels_after", 200); ("voxels_removed", 0);
           ("components_total", 1); ("components_kept", 1);
           ("components_removed", 0)]]
       200 (PyFloat (literal 0))
       (literal (12249999999999998 # 100000000000000000)) all_disabled).
  split; [vm_compute; reflexivity|].
  cbn [final_count Processing.volume_ml].
  split; [reflexivity|]. split; [vm_compute; reflexivity|].
  split; [reflexivity|]. vm_compute. discriminate.
Qed.

(** X18 on the ring: the short volume and other HU bounds in place of the
    ring's volume. *)
Lemma refine_mask_ignores_volume_witness :
  get (dilation_iter no_stage) 0 <= 0
  /\ exists out stats stats' st',
       refine_mask 0%nat 1%nat unit_spacing no_stage ring_store = (Ok (out, stats), st')
       /\ refine_mask 0%nat 2%nat unit_spacing all_disabled ring_store
          = (Ok (out, stats'), st')
       /\ base_count stats' = base_count stats
       /\ steps stats' = steps stats
       /\ final_count stats' = final_count stats
       /\ improvement_percent stats' = improvement_percent stats
       /\ Processing.volume_ml stats' = Processing.volume_ml stats.
Proof.
  assert (Hd : get (dilation_iter no_stage) 0 <= 0) by (simpl; lia).
  split; [exact Hd|].
  apply (refine_mask_ignores_volume ring_store 0%nat 1%nat 2%nat unit_spacing
           no_stage all_disabled Hd eq_refl eq_refl eq_refl).
Defined.

(** X19 on the ring and its volume, one iteration. *)
Lemma hu_dilation_within_window_witness :
  shape (deref ring_store 0%nat) = shape (deref ring_store 1%nat)
  /\ exists out d st',
       _apply_hu_dilation 0%nat 1%nat (-1000 # 1) (-300 # 1) 1 ring_store
       = (Ok (out, d), st')
       /\ heap st' = heap ring_store ++ [deref st' out]
       /\ shape (deref st' out) = shape (deref ring_store 0%nat)
       /\ bits (deref st' out)
       /\ (forall i, nth i (data (deref st' out)) 0 = 1 ->
                     nth i (binary_dilation (deref ring_store 0%nat) 1) false = true
                     /\ in_hu_range (-1000 # 1) (-300 # 1)
                                    (nth i (data (deref ring_store 1%nat)) 0) = true)
       /\ lookup "voxels_before" d = Some (np_sum (deref ring_store 0%nat))
       /\ lookup "voxels_after" d = Some (np_sum (deref st' out))
       /\ lookup "voxels_added" d
          = Some (np_sum (deref st' out) - np_sum (deref ring_store 0%nat)).
Proof.
  assert (Hs : shape (deref ring_store 0%nat) = shape (deref ring_store 1%nat))
    by reflexivity.
  split; [exact Hs|].
  apply (hu_dilation_within_window ring_store 0%nat 1%nat (-1000 # 1) (-300 # 1) 1 Hs).
Defined.

(** X20 on the ring and its volume. *)
Lemma refine_mask_within_window_witness :
  0 < 1 /\ get (Some 1) 1 <= 1 /\ get (Some false) false = false
  /\ (1 < length (heap ring_store))%nat
  /\ shape (deref ring_store 0%nat) = shape (deref ring_store 1%nat)
  /\ exists out stats st',
       refine_mask 0%nat 1%nat unit_spacing dilate_only ring_store
       = (Ok (out, stats), st')
       /\ forall i, nth i (data (deref st' out)) 0 = 1 ->
                    in_hu_range (-1000 # 1) (-300 # 1)
                                (nth i (data (deref ring_store 1%nat)) 0) = true.
Proof.
  assert (H1 : 0 < 1) by lia.
  assert (H2 : get (Some 1) 1 <= 1) by (simpl; lia).
  assert (H3 : get (Some false) false = false) by reflexivity.
  assert (H4 : (1 < length (heap ring_store))%nat) by (simpl; lia).
  assert (H5 : shape (deref ring_store 0%nat) = shape (deref ring_store 1%nat))
    by reflexivity.
  split; [exact H1|]. split; [exact H2|]. split; [exact H3|].
  split; [exact H4|]. split; [exact H5|].
  apply (refine_mask_within_window ring_store 0%nat 1%nat unit_spacing
           (-1000 # 1) (-300 # 1) 1 (Some 1) (Some false) H1 H2 H3 H4 H5).
Defined.

(** X22 on the ring. *)
Lemma difference_after_noise_removal_witness :
  binary (deref ring_store 0%nat)
  /\ get (dilation_iter all_disabled) 0 <= 0
  /\ get (closing_size all_disabled) 1 <= 1
  /\ get (fill_holes all_disabled) false = false
  /\ exists out stats st' d,
       refine_mask 0%nat 1%nat unit_spacing all_disabled ring_store
       = (Ok (out, stats), st')
       /\ calculate_mask_difference (deref ring_store 0%nat) (deref st' out) = Ok d
       /\ added_voxels d = 0
       /\ unchanged_voxels d = final_count stats
       /\ removed_voxels d = base_count stats - final_count stats
       /\ mask1_count d = base_count stats
       /\ mask2_count d = final_count stats.
Proof.
  assert (H1 : get (dilation_iter all_disabled) 0 <= 0) by (simpl; lia).
  assert (H2 : get (closing_size all_disabled) 1 <= 1) by (simpl; lia).
  assert (H3 : get (fill_holes all_disabled) false = false) by reflexivity.
  split; [exact ring_binary|]. split; [exact H1|]. split; [exact H2|].
  split; [exact H3|].
  apply (difference_after_noise_removal ring_store 0%nat 1%nat unit_spacing
           all_disabled ring_binary H1 H2 H3).
Defined.

(** X23 on the ring, with a spacing of 1 mm. *)
Lemma mask_statistics_coverage_witness :
  Forall (fun v => 0 <= v) (data ring) /\ well_formed ring
  /\ let s := get_mask_statistics ring unit_spacing in
     0 <= z_coverage s <= z_total s
     /\ (z_coverage s = 0 <-> voxel_count s = 0)
     /\ z_coverage s
        = Z.of_nat (length (filter (fun z => np_any (get_slice ring z))
                                   (seq 0 (fst (fst (shape ring))))))
     /\ z_total s = Z.of_nat (fst (fst (shape ring)))
     /\ volume_cm3 s = DataIO.volume_ml s.
Proof.
  assert (Hn : Forall (fun v => 0 <= v) (data ring))
    by (simpl; repeat constructor; lia).
  assert (Hw : well_formed ring) by reflexivity.
  split; [exact Hn|]. split; [exact Hw|].
  apply (mask_statistics_coverage ring unit_spacing Hn Hw).
Defined.

Lemma scipy_fill_keeps_shape : fill_keeps_shape scipy_ndimage.
Proof.
  intros h w slice. cbn [binary_fill_holes scipy_ndimage]. unfold fill_holes_2d.
  rewrite length_map. apply enumerate_length.
Qed.

(** X25 on the ring, with the reference operators. *)
Lemma fill_holes_slicewise_witness :
  fill_keeps_shape scipy_ndimage
  /\ (0 < length (heap ring_store))%nat
  /\ well_formed (deref ring_store 0%nat)
  /\ exists d st',
       _fill_holes_2d 0%nat ring_store = (Ok (0%nat, d), st')
       /\ shape (deref st' 0%nat) = shape (deref ring_store 0%nat)
       /\ (forall z, (z < fst (fst (shape (deref ring_store 0%nat))))%nat ->
                     get_slice (deref st' 0%nat) z
                     = if np_any (get_slice (deref ring_store 0%nat) z)
                       then map Z.b2z
                              (binary_fill_holes
                                 (snd (fst (shape (deref ring_store 0%nat))))
                                 (snd (shape (deref ring_store 0%nat)))
                                 (get_slice (deref ring_store 0%nat) z))
                       else get_slice (deref ring_store 0%nat) z)
       /\ lookup "slices_processed" d
          = Some (Z.of_nat
                    (length (filter (fun z => np_any (get_slice (deref ring_store 0%nat) z))
                                    (seq 0 (fst (fst (shape (deref ring_store 0%nat))))))))
       /\ lookup "voxels_added" d
          = Some (np_sum (deref st' 0%nat) - np_sum (deref ring_store 0%nat))
       /\ (forall r, r <> 0%nat -> deref st' r = deref ring_store r).
Proof.
  assert (Hm : (0 < length (heap ring_store))%nat) by (simpl; lia).
  assert (Hw : well_formed (deref ring_store 0%nat)) by reflexivity.
  split; [exact scipy_fill_keeps_shape|]. split; [exact Hm|]. split; [exact Hw|].
  apply (fill_holes_slicewise scipy_fill_keeps_shape ring_store 0%nat Hm Hw).
Defined.

(** The hole of the ring, filled in place: the caller's array changes. *)
Example fill_holes_ring :
  let '(r, st') := _fill_holes_2d 0%nat ring_store in
  r = Ok (0%nat, [("voxels_before", 8); ("voxels_after", 9); ("voxels_added", 1);
                  ("slices_processed", 1)])
  /\ data (deref st' 0%nat) = [1; 1; 1; 1; 1; 1; 1; 1; 1].
Proof. vm_compute. split; reflexivity. Qed.

(** Why the metrics are stated for arrays of one shape: numpy broadcasts a
    one-voxel mask against a three-voxel one, and the Dice coefficient
    leaves the unit interval. *)
Example dice_broadcast :
  calculate_dice_coefficient (mkArray (1, 1, 1)%nat [1]) (mkArray (1, 1, 3)%nat [1; 1; 1])
  = Ok (2 * inject_Z 3 / inject_Z 4)%Q.
Proof. reflexivity. Qed.

End MoreSamplesFacts.

Section SegmenterSamplesFacts.
Import Numpy Shapes Segmenter SegmenterSamples.
Local Open Scope list_scope.
Local Open Scope Z_scope.

Lemma threshold_keeps_shape : keeps_shape.
Proof.
  intro img. eexists. split; [reflexivity|]. split; [reflexivity|].
  cbn [data]. apply length_map.
Qed.

(** X26 on five slices in batches of two, with the thresholding model. *)
Lemma batch_segment_tiles_witness :
  keeps_shape /\ 0 < batch_size (mkSegmenter 2) /\ well_formed (pixels scan)
  /\ exists result log,
       _batch_segment (mkSegmenter 2) scan true = inr (result, log)
       /\ shape result = shape (pixels scan)
       /\ flat_map (fun img => data (pixels img)) (applied log) = data (pixels scan)
       /\ data result = flat_map segmented (applied log)
       /\ Forall (fun img => 1 <= depth img <= batch_size (mkSegmenter 2)) (applied log)
       /\ Z.of_nat (length (applied log))
          = (depth scan + batch_size (mkSegmenter 2) - 1) / batch_size (mkSegmenter 2).
Proof.
  assert (Hb : 0 < batch_size (mkSegmenter 2)) by reflexivity.
  assert (Hw : well_formed (pixels scan)) by reflexivity.
  split; [exact threshold_keeps_shape|]. split; [exact Hb|]. split; [exact Hw|].
  apply (batch_segment_tiles (mkSegmenter 2) scan true threshold_keeps_shape Hb Hw).
Defined.

(** The five slices in batches of two: three batches, the last of one
    slice, each with its own origin along z. *)
Example batch_segment_scan :
  match _batch_segment (mkSegmenter 2) scan false with
  | inr (result, log) =>
      result = mkArray (5, 1, 2)%nat [1; 0; 1; 0; 0; 1; 1; 1; 0; 0]
      /\ map (fun img => (shape (pixels img), origin img)) (applied log)
         = [((2, 1, 2)%nat, (0, 0, 10 + inject_Z 0 * 2)%Q);
            ((2, 1, 2)%nat, (0, 0, 10 + inject_Z 2 * 2)%Q);
            ((1, 1, 2)%nat, (0, 0, 10 + inject_Z 4 * 2)%Q)]
  | inl _ => False
  end.
Proof. vm_compute. split; reflexivity. Qed.

(** X28 on the five slices with a batch size of -2. *)
Lemma batch_segment_bad_batch_size_witness :
  batch_size (mkSegmenter (-2)) < 0 /\ - batch_size (mkSegmenter (-2)) < depth scan
  /\ _batch_segment (mkSegmenter (-2)) scan true
     = inr (np_zeros_like (pixels scan), []).
Proof.
  assert (Hneg : batch_size (mkSegmenter (-2)) < 0) by reflexivity.
  assert (Hn : - batch_size (mkSegmenter (-2)) < depth scan) by reflexivity.
  split; [exact Hneg|]. split; [exact Hn|].
  apply (proj2 (batch_segment_bad_batch_size (mkSegmenter (-2)) scan true) Hneg Hn).
Defined.

(** X27 on 101 slices in batches of 50. *)
Lemma run_segmentation_progress_witness :
  keeps_shape /\ 0 < batch_size (mkSegmenter 50) /\ well_formed (pixels long_scan)
  /\ let n_batches :=
       (depth long_scan + batch_size (mkSegmenter 50) - 1)
       / batch_size (mkSegmenter 50) in
     exists result log quiet,
       _run_segmentation (mkSegmenter 50) long_scan 101 true = inr (result, log)
       /\ _run_segmentation (mkSegmenter 50) long_scan 101 false = inr (result, quiet)
       /\ applied quiet = applied log
       /\ percentages quiet = []
       /\ percentages log
          = 25 :: (if 100 <? 101
                   then map (fun j => batch_progress j n_batches) (range 0 n_batches)
                   else [])
       /\ StronglySorted Z.le (percentages log)
       /\ Forall (fun pct => 25 <= pct <= 89) (percentages log).
Proof.
  assert (Hb : 0 < batch_size (mkSegmenter 50)) by reflexivity.
  assert (Hw : well_formed (pixels long_scan)) by reflexivity.
  split; [exact threshold_keeps_shape|]. split; [exact Hb|]. split; [exact Hw|].
  apply (run_segmentation_progress (mkSegmenter 50) long_scan 101
                                   threshold_keeps_shape Hb Hw).
Defined.

Example run_segmentation_long_scan :
  match _run_segmentation (mkSegmenter 50) long_scan 101 true with
  | inr (result, log) =>
      percentages log = [25; 30; 50; 70]
      /\ map depth (applied log) = [50; 50; 1]
      /\ np_sum result = 101
  | inl _ => False
  end.
Proof. vm_compute. repeat split; reflexivity. Qed.

End SegmenterSamplesFacts.
